(** * Elysium community directory: plugin validator and directory builder

    A shallow embedding of [scripts/validate.js] and of the directory build
    script, followed by the properties proved about them.

    Conventions of the embedding:
    - a JavaScript string is a [string]: a sequence of code units below 256;
    - a value produced by [JSON.parse] (or [undefined]) is a [value]; the
      scripts test the numbers among these values, compare them and convert
      them to text, and never compute with them, so a number is held as the
      text that [String] gives it;
    - a regular expression is a [regex], run by a backtracking matcher with
      continuations, as the language specification defines it;
    - everything the scripts obtain from outside (file system, network,
      clock, [JSON.parse], collation, wording of engine-raised errors) is a
      field of [Env];
    - a computation is a function from the trace of external events so far to
      an outcome (a result or a thrown exception, represented by its
      [message]) and the extended trace;
    - console output is not part of the trace, but the conversions to text
      that a console line makes are, since they can throw;
    - the pictographs of the reports lie outside these code units; each is
      written as the bytes of its UTF-8 encoding, the form in which a report
      reaches the console and the result file;
    - a file is written with the text of a document; the trace records the
      files that were written, each with the value handed to
      [JSON.stringify], and a write that fails throws and records nothing;
    - a script ends by completing or by [process.exit]. *)

From Stdlib Require Import String Ascii List ZArith NArith Bool Lia Arith.
From Stdlib Require Import DecimalString.
From Stdlib Require Import Sorting.Sorted Sorting.Permutation.
From Stdlib Require OrderedTypeEx.
From Equations Require Import Equations.
Import ListNotations.

Local Open Scope list_scope.
Local Open Scope string_scope.

Set Warnings "-register-all".

(* ================================================================== *)
(** * The JavaScript runtime, as far as the scripts use it *)
(* ================================================================== *)

Module JS.

(** ** Strings *)

Definition code (c : ascii) : N := N_of_ascii c.

Definition in_range (lo hi c : ascii) : bool :=
  (code lo <=? code c)%N && (code c <=? code hi)%N.

Definition is_lower (c : ascii) : bool := in_range "a" "z" c.
Definition is_upper (c : ascii) : bool := in_range "A" "Z" c.
Definition is_digit (c : ascii) : bool := in_range "0" "9" c.

Definition is_char (x c : ascii) : bool := Ascii.eqb c x.

(** [\w]: the word characters, which also decide [\b]. *)
Definition is_word (c : ascii) : bool :=
  is_lower c || is_upper c || is_digit c || is_char "_" c.

(** [\s] on code units below 256: TAB, LF, VT, FF, CR, SPACE, NBSP. *)
Definition is_space (c : ascii) : bool :=
  ((9 <=? code c)%N && (code c <=? 13)%N) || (code c =? 32)%N ||
  (code c =? 160)%N.

(** [s.split(sep)] for a one-character separator. *)
Fixpoint split (sep : ascii) (s : string) : list string :=
  match s with
  | EmptyString => [EmptyString]
  | String c s' =>
      if Ascii.eqb c sep then EmptyString :: split sep s'
      else match split sep s' with
           | p :: ps => String c p :: ps
           | [] => [String c EmptyString]
           end
  end.

(** [parts.join(sep)] on strings. *)
Fixpoint join (sep : string) (parts : list string) : string :=
  match parts with
  | [] => EmptyString
  | [p] => p
  | p :: ps => p ++ sep ++ join sep ps
  end.

(** [s.endsWith(suffix)]. *)
Definition endsWith (suffix s : string) : bool :=
  let n := String.length s in
  let k := String.length suffix in
  (k <=? n)%nat && String.eqb (substring (n - k) k s) suffix.

(** Index of the first occurrence of [needle] in [s], if any. *)
Fixpoint indexOf (needle s : string) : option nat :=
  if prefix needle s then Some 0%nat
  else match s with
       | EmptyString => None
       | String _ s' => option_map S (indexOf needle s')
       end.

(** [s.replace(needle, by_)] with a string pattern: the first occurrence. *)
Definition replace_first (needle by_ s : string) : string :=
  match indexOf needle s with
  | None => s
  | Some i =>
      substring 0 i s ++ by_ ++
      substring (i + String.length needle)
                (String.length s - (i + String.length needle)) s
  end.

(** The line feed, written [\n] in the scripts. *)
Definition newline : string := String (ascii_of_nat 10) EmptyString.

(** Decimal rendering of an integer, as [String(n)] gives it. *)
Definition string_of_Z (n : Z) : string := NilZero.string_of_int (Z.to_int n).

(** ** Regular expressions

    The matcher follows the continuation semantics of the language
    specification: a pattern is run from a state against a continuation,
    alternatives are tried left to right, [*] is greedy, and an iteration
    of [*] that consumes nothing is rejected. *)

Inductive regex : Type :=
| Chr (p : ascii -> bool)        (* a character class *)
| Eps                            (* the empty pattern *)
| Seq (r1 r2 : regex)
| Alt (r1 r2 : regex)            (* r1|r2 *)
| Star (r : regex)               (* r* *)
| Group (i : nat) (r : regex)    (* the i-th capturing group *)
| Bol                            (* ^ *)
| Eol                            (* $ *)
| WordB.                         (* \b *)

Definition Plus (r : regex) : regex := Seq r (Star r).
Definition Opt (r : regex) : regex := Alt r Eps.

(** The literal text [s]. *)
Fixpoint Lit (s : string) : regex :=
  match s with
  | EmptyString => Eps
  | String c s' => Seq (Chr (is_char c)) (Lit s')
  end.

Record mstate : Type := MState {
  before : option ascii;          (* the code unit left of the position *)
  rest : string;                  (* the input right of the position *)
  caps : list (nat * string)      (* the groups captured so far *)
}.

Definition word_before (st : mstate) : bool :=
  match before st with Some c => is_word c | None => false end.

Definition word_after (st : mstate) : bool :=
  match rest st with String c _ => is_word c | EmptyString => false end.

(** The text consumed between two states of one run. *)
Definition consumed (st st' : mstate) : string :=
  substring 0 (String.length (rest st) - String.length (rest st')) (rest st).

Definition set_cap (i : nat) (s : string) (st : mstate) : mstate :=
  MState (before st) (rest st) ((i, s) :: caps st).

(** The iterations of [body*]: at most one per remaining code unit, since
    each must consume something. *)
Fixpoint repeat {A : Type}
  (body : mstate -> (mstate -> option A) -> option A)
  (k : mstate -> option A) (n : nat) (st : mstate) {struct n} : option A :=
  match n with
  | O => k st
  | S n' =>
      match body st (fun st1 =>
              if (String.length (rest st1) <? String.length (rest st))%nat
              then repeat body k n' st1 else None) with
      | Some x => Some x
      | None => k st
      end
  end.

Fixpoint m {A : Type} (r : regex) (st : mstate) (k : mstate -> option A)
  {struct r} : option A :=
  match r with
  | Chr p =>
      match rest st with
      | String c s' => if p c then k (MState (Some c) s' (caps st)) else None
      | EmptyString => None
      end
  | Eps => k st
  | Seq r1 r2 => m r1 st (fun st1 => m r2 st1 k)
  | Alt r1 r2 =>
      match m r1 st k with
      | Some x => Some x
      | None => m r2 st k
      end
  | Star r1 =>
      repeat (fun st1 k1 => m r1 st1 k1) k (String.length (rest st)) st
  | Group i r1 => m r1 st (fun st1 => k (set_cap i (consumed st st1) st1))
  | Bol => match before st with None => k st | Some _ => None end
  | Eol => match rest st with EmptyString => k st | String _ _ => None end
  | WordB => if xorb (word_before st) (word_after st) then k st else None
  end.

(** [r.exec(s)] for a pattern without flags: the leftmost start position
    from which the pattern matches; the result is that position and the
    final state. *)
Fixpoint exec_from (r : regex) (b : option ascii) (s : string) (i : nat)
  : option (nat * mstate) :=
  match m r (MState b s []) (fun st => Some st) with
  | Some st => Some (i, st)
  | None =>
      match s with
      | EmptyString => None
      | String c s' => exec_from r (Some c) s' (S i)
      end
  end.

Definition exec (r : regex) (s : string) : option (nat * mstate) :=
  exec_from r None s 0.

(** [r.test(s)]. *)
Definition test (r : regex) (s : string) : bool :=
  match exec r s with Some _ => true | None => false end.

(** The text of capturing group [i] after a match. *)
Fixpoint cap (i : nat) (cs : list (nat * string)) : option string :=
  match cs with
  | [] => None
  | (j, s) :: cs' => if Nat.eqb i j then Some s else cap i cs'
  end.

(** [s.replace(r, by_)] for a pattern without flags: the leftmost match. *)
Definition replace_regex (r : regex) (by_ s : string) : string :=
  match exec r s with
  | None => s
  | Some (i, st) =>
      substring 0 i s ++ by_ ++ rest st
  end.

End JS.

(** ** Values, exceptions and the outside world *)

Module Runtime.
Import JS.

(** What [JSON.parse] can produce, and [undefined].  A number is held as
    its text, the one [String] gives it ([7], [1.5], [1e+21], [Infinity]):
    two numbers are equal for [===] exactly when they have the same text, and
    the only falsy number that [JSON.parse] produces has the text [0]. *)
Inductive value : Type :=
| VUndefined
| VNull
| VBool (b : bool)
| VNum (text : string)
| VStr (s : string)
| VArr (items : list value)
| VObj (fields : list (string * value)).

(** A result, or a thrown exception.  The scripts only ever read the
    [message] of what they catch, so an exception is its message. *)
Inductive outcome (A : Type) : Type :=
| Ret (a : A)
| Throw (message : string).
Arguments Ret {A} a.
Arguments Throw {A} message.

(** The errors the engine raises by itself; their wording is the engine's. *)
Inductive type_error : Type :=
| CannotReadProperty (of_ : value) (key : string)
| NotAFunction (callee : string)
| CannotConvertToPrimitive.

(** A response: its HTTP status, a number of three digits, and its text. *)
Record response : Type := Response {
  status : Z;
  body : string
}.

(** [response.ok]: the status is in the range 200-299. *)
Definition ok (r : response) : bool :=
  ((200 <=? status r) && (status r <=? 299))%Z.

(** What a run asks of the outside world: the content of a file, the names
    in a directory, a page, the time; and what it leaves there, a file that
    was written with the text of a document. *)
Inductive event : Type :=
| ReadFile (path : string)
| ReadDir (path : string)
| Fetch (url : string)
| Now
| WriteFile (path : string) (document : value).

(** The outside world.  Files and pages answer the same at every request of
    a run; the clock may depend on everything that happened before. *)
Record Env : Type := {
  readFileSync : string -> outcome string;        (* content of a file *)
  readdirSync : string -> outcome (list string);  (* names in a directory *)
  fetch : string -> outcome response;             (* response to a GET *)
  writeFileSync : string -> value -> outcome unit; (* writing a document *)
  JSON_parse : string -> outcome value;
  toISOString : list event -> string;             (* the clock *)
  localeCompare : string -> string -> Z;          (* collation *)
  typeError : type_error -> string;               (* wording of the engine *)
  PLUGINS_DIR : string;
  OUTPUT_FILE : string
}.

(** Truthiness. *)
Definition truthy (v : value) : bool :=
  match v with
  | VUndefined | VNull => false
  | VBool b => b
  | VNum text => negb (String.eqb text "0")
  | VStr s => negb (String.eqb s EmptyString)
  | VArr _ | VObj _ => true
  end.

(** Own property of an object. *)
Fixpoint assoc (key : string) (fields : list (string * value)) : option value :=
  match fields with
  | [] => None
  | (k, v) :: fields' => if String.eqb key k then Some v else assoc key fields'
  end.

Definition has_own (key : string) (fields : list (string * value)) : bool :=
  match assoc key fields with Some _ => true | None => false end.

(** [a === b] on values that come from different [JSON.parse] calls or
    literals: arrays and objects are then never the same reference. *)
Definition strict_equal (a b : value) : bool :=
  match a, b with
  | VUndefined, VUndefined => true
  | VNull, VNull => true
  | VBool x, VBool y => Bool.eqb x y
  | VNum x, VNum y => String.eqb x y
  | VStr x, VStr y => String.eqb x y
  | _, _ => false
  end.

(** [table.includes(v)] for a table of strings. *)
Definition includes (table : list string) (v : value) : bool :=
  existsb (fun s => strict_equal (VStr s) v) table.

(** [String(v)]; [None] when the conversion throws.  An object converts
    through its [toString] property; when [JSON.parse] gave it one of its
    own, that property is not callable and the conversion fails. *)
Fixpoint toString (v : value) : option string :=
  match v with
  | VUndefined => Some "undefined"
  | VNull => Some "null"
  | VBool true => Some "true"
  | VBool false => Some "false"
  | VNum text => Some text
  | VStr s => Some s
  | VArr items =>
      (fix items_to_string (l : list value) : option string :=
         match l with
         | [] => Some EmptyString
         | x :: l' =>
             let sx := match x with
                       | VUndefined | VNull => Some EmptyString
                       | _ => toString x
                       end in
             match sx, l' with
             | None, _ => None
             | Some s, [] => Some s
             | Some s, _ :: _ =>
                 match items_to_string l' with
                 | Some t => Some (s ++ "," ++ t)
                 | None => None
                 end
             end
         end) items
  | VObj fields =>
      if has_own "toString" fields then None else Some "[object Object]"
  end.

(** ** Computations *)

Definition M (A : Type) : Type := list event -> outcome A * list event.

Definition ret {A} (a : A) : M A := fun tr => (Ret a, tr).

Definition throw {A} (message : string) : M A := fun tr => (Throw message, tr).

Definition bind {A B} (c : M A) (k : A -> M B) : M B :=
  fun tr =>
    match c tr with
    | (Ret a, tr') => k a tr'
    | (Throw e, tr') => (Throw e, tr')
    end.

(** [try { c } catch (e) { handler(e.message) }]. *)
Definition try_catch {A} (c : M A) (handler : string -> M A) : M A :=
  fun tr =>
    match c tr with
    | (Ret a, tr') => (Ret a, tr')
    | (Throw e, tr') => handler e tr'
    end.

(** A call to the outside world, recorded in the trace. *)
Definition call {A} (e : event) (answer : outcome A) : M A :=
  fun tr => (answer, (tr ++ [e])%list).

(** A pure step that may throw. *)
Definition lift {A} (o : outcome A) : M A := fun tr => (o, tr).

Declare Scope js_scope.
Delimit Scope js_scope with js.
Notation "x <- c ;; k" := (bind c (fun x => k))
  (at level 61, c at next level, right associativity) : js_scope.
Notation "c ;;; k" := (bind c (fun _ => k))
  (at level 61, right associativity) : js_scope.

Local Open Scope js_scope.

(** [table.filter(f)] where the predicate may throw. *)
Fixpoint filterM {A} (f : A -> M bool) (l : list A) : M (list A) :=
  match l with
  | [] => ret []
  | x :: l' =>
      keep <- f x ;;
      tail <- filterM f l' ;;
      ret (if keep then x :: tail else tail)
  end.

Section WithEnv.

Variable env : Env.

Definition type_error_ {A} (e : type_error) : M A := throw (typeError env e).

(** [v[key]] for the property names the scripts read; none of them is
    inherited from a prototype. *)
Definition get (v : value) (key : string) : M value :=
  match v with
  | VUndefined | VNull => type_error_ (CannotReadProperty v key)
  | VObj fields =>
      ret (match assoc key fields with Some x => x | None => VUndefined end)
  | _ => ret VUndefined
  end.

(** The receiver of a call to a string method ([match], [split],
    [localeCompare]): only a string has one. *)
Definition string_receiver (v : value) (method : string) : M string :=
  match v with
  | VStr s => ret s
  | VUndefined | VNull => type_error_ (CannotReadProperty v method)
  | _ => type_error_ (NotAFunction method)
  end.

(** [`${v}`] and every other implicit conversion to a string. *)
Definition toStringM (v : value) : M string :=
  match toString v with
  | Some s => ret s
  | None => type_error_ CannotConvertToPrimitive
  end.

(** [items.join(sep)] on values: [undefined] and [null] give the empty
    string, the others are converted. *)
Fixpoint join_values (sep : string) (items : list value) : M string :=
  match items with
  | [] => ret EmptyString
  | x :: items' =>
      s <- match x with
           | VUndefined | VNull => ret EmptyString
           | _ => toStringM x
           end ;;
      match items' with
      | [] => ret s
      | _ :: _ => t <- join_values sep items' ;; ret (s ++ sep ++ t)
      end
  end.

(** [v?.filter(f) || []]. *)
Definition optional_filter (f : value -> bool) (v : value) : M (list value) :=
  match v with
  | VUndefined | VNull => ret []
  | VArr items => ret (filter f items)
  | _ => type_error_ (NotAFunction "filter")
  end.

(** [JSON.parse(fs.readFileSync(path, 'utf8'))]. *)
Definition readJSON (path : string) : M value :=
  content <- call (ReadFile path) (readFileSync env path) ;;
  lift (JSON_parse env content).

(** [fs.writeFileSync(path, JSON.stringify(document, null, 2))]: the file
    is written, which the trace records, or the call throws. *)
Definition writeJSON (path : string) (document : value) : M unit :=
  fun tr =>
    match writeFileSync env path document with
    | Ret done => (Ret done, (tr ++ [WriteFile path document])%list)
    | Throw e => (Throw e, tr)
    end.

(** [new Date().toISOString()]. *)
Definition now : M string :=
  fun tr => (Ret (toISOString env tr), (tr ++ [Now])%list).

End WithEnv.

(** [path.normalize(p)] with [/] as separator, on the segments of [p]:
    empty segments and [.] are dropped, [..] removes the segment before it;
    where there is none, it is kept in a relative path and dropped in an
    absolute one.  [kept] holds the segments kept so far, the last one
    first. *)
Fixpoint normalizeString (allowAboveRoot : bool) (segments kept : list string)
  : list string :=
  match segments with
  | [] => rev kept
  | segment :: segments' =>
      if String.eqb segment EmptyString || String.eqb segment "."
      then normalizeString allowAboveRoot segments' kept
      else if String.eqb segment ".." then
        match kept with
        | previous :: kept' =>
            if String.eqb previous ".."
            then normalizeString allowAboveRoot segments'
                   (if allowAboveRoot then ".." :: kept else kept)
            else normalizeString allowAboveRoot segments' kept'
        | [] =>
            normalizeString allowAboveRoot segments'
              (if allowAboveRoot then [".."] else [])
        end
      else normalizeString allowAboveRoot segments' (segment :: kept)
  end.

Definition normalize (p : string) : string :=
  if String.eqb p EmptyString then "."
  else
    let isAbsolute := prefix "/" p in
    let trailingSeparator := endsWith "/" p in
    let normalized :=
      join "/" (normalizeString (negb isAbsolute) (split "/" p) []) in
    if String.eqb normalized EmptyString then
      if isAbsolute then "/" else if trailingSeparator then "./" else "."
    else
      let normalized :=
        if trailingSeparator then normalized ++ "/" else normalized in
      if isAbsolute then "/" ++ normalized else normalized.

(** [path.join(dir, file)]: the arguments that are not empty, joined by the
    separator and normalized. *)
Definition path_join (dir file : string) : string :=
  if String.eqb dir EmptyString then
    if String.eqb file EmptyString then "." else normalize file
  else if String.eqb file EmptyString then normalize dir
  else normalize (dir ++ "/" ++ file).

(** [path.basename(p)]: the last segment, trailing separators ignored. *)
Fixpoint drop_trailing_empty (l : list string) : list string :=
  match l with
  | [] => []
  | s :: l' =>
      match drop_trailing_empty l' with
      | [] => if String.eqb s EmptyString then [] else [s]
      | t => s :: t
      end
  end.

Definition basename (p : string) : string :=
  last (drop_trailing_empty (split "/" p)) EmptyString.

(** How a script ends: its work is done, or [process.exit(code)]. *)
Inductive termination : Type :=
| Completed
| Exit (code : Z).

End Runtime.

(* ================================================================== *)
(** * scripts/validate.js *)
(* ================================================================== *)

Module Validate.
Import JS Runtime.
Local Open Scope js_scope.

Definition REQUIRED_SUBMISSION_FIELDS : list string :=
  ["id"; "name"; "description"; "author"; "repo"].

Definition REQUIRED_MANIFEST_FIELDS : list string :=
  ["id"; "name"; "version"; "minAppVersion"; "author"; "description"; "main";
   "permissions"].

Definition VALID_PERMISSIONS : list string :=
  ["read:goals"; "read:tasks"; "read:habits"; "read:odysseys";
   "read:appointments"; "read:reminders"; "read:categories"; "read:tags";
   "read:timeline"; "read:settings"; "read:schedules";
   "write:goals"; "write:tasks"; "write:habits"; "write:odysseys";
   "write:appointments"; "write:reminders"; "write:categories"; "write:tags";
   "write:timeline"; "write:settings";
   "notifications"; "shortcuts"; "network"; "clipboard"; "filesystem"; "theme";
   "customize:ui"].

Definition DANGEROUS_PERMISSIONS : list string :=
  ["write:goals"; "write:tasks"; "write:habits"; "write:odysseys";
   "write:appointments"; "write:reminders"; "write:categories"; "write:tags";
   "write:timeline"; "write:settings";
   "network"; "filesystem"; "theme"; "customize:ui"].

(** [\s*] *)
Definition spaces : regex := Star (Chr is_space).

(** [/\beval\s*\(/], [/\bnew\s+Function\s*\(/], [/document\.write/],
    [/innerHTML\s*=/] and [/\bfetch\s*\([^)]*\$\{/], with their names. *)
Definition DANGEROUS_PATTERNS : list (regex * string) :=
  [ (Seq WordB (Seq (Lit "eval") (Seq spaces (Lit "("))), "eval()");
    (Seq WordB (Seq (Lit "new") (Seq (Plus (Chr is_space))
       (Seq (Lit "Function") (Seq spaces (Lit "("))))), "new Function()");
    (Lit "document.write", "document.write");
    (Seq (Lit "innerHTML") (Seq spaces (Lit "=")), "innerHTML assignment");
    (Seq WordB (Seq (Lit "fetch") (Seq spaces (Seq (Lit "(")
       (Seq (Star (Chr (fun c => negb (is_char ")" c)))) (Lit "${"))))),
     "dynamic fetch URL") ].

(** ** class ValidationResult *)

Module Item.
Record t : Type := Make {
  name : string;
  passed : bool;
  details : value
}.
End Item.

Record ValidationResult : Type := Result {
  pluginId : value;
  passed : bool;
  checks : list Item.t;
  warnings : list string;
  errors : list string;
  manifest : value
}.

(** [new ValidationResult(pluginId)]. *)
Definition new_ValidationResult (id : value) : ValidationResult :=
  Result id true [] [] [] VNull.

Definition addCheck (name : string) (passed_ : bool) (details : value)
  (this : ValidationResult) : ValidationResult :=
  Result (pluginId this)
         (if negb passed_ then false else passed this)
         (checks this ++ [Item.Make name passed_ details])%list
         (warnings this) (errors this) (manifest this).

Definition addWarning (message : string) (this : ValidationResult)
  : ValidationResult :=
  Result (pluginId this) (passed this) (checks this)
         (warnings this ++ [message])%list (errors this) (manifest this).

Definition addError (message : string) (this : ValidationResult)
  : ValidationResult :=
  Result (pluginId this) false (checks this) (warnings this)
         (errors this ++ [message])%list (manifest this).

Definition set_pluginId (id : value) (this : ValidationResult)
  : ValidationResult :=
  Result id (passed this) (checks this) (warnings this) (errors this)
         (manifest this).

Definition set_manifest (mf : value) (this : ValidationResult)
  : ValidationResult :=
  Result (pluginId this) (passed this) (checks this) (warnings this)
         (errors this) mf.

(** ** Patterns of the helpers *)

Definition not_slash (c : ascii) : bool := negb (is_char "/" c).

(** [/github\.com\/([^\/]+)\/([^\/]+)/] *)
Definition github_url : regex :=
  Seq (Lit "github.com/")
      (Seq (Group 1 (Plus (Chr not_slash)))
           (Seq (Lit "/") (Group 2 (Plus (Chr not_slash))))).

(** [/\.git$/] *)
Definition dot_git_at_end : regex := Seq (Lit ".git") Eol.

Definition lower_alnum (c : ascii) : bool := is_lower c || is_digit c.
Definition lower_alnum_hyphen (c : ascii) : bool :=
  is_lower c || is_digit c || is_char "-" c.

(** [/^[a-z0-9][a-z0-9-]*[a-z0-9]$|^[a-z0-9]$/] *)
Definition partPattern : regex :=
  Alt (Seq Bol (Seq (Chr lower_alnum)
         (Seq (Star (Chr lower_alnum_hyphen)) (Seq (Chr lower_alnum) Eol))))
      (Seq Bol (Seq (Chr lower_alnum) Eol)).

Definition suffix_char (c : ascii) : bool :=
  is_lower c || is_upper c || is_digit c || is_char "." c || is_char "-" c.

Definition digits : regex := Plus (Chr is_digit).

(** [/^\d+\.\d+\.\d+(-[a-zA-Z0-9.-]+)?(\+[a-zA-Z0-9.-]+)?$/] *)
Definition semver : regex :=
  Seq Bol (Seq digits (Seq (Lit ".") (Seq digits (Seq (Lit ".") (Seq digits
    (Seq (Opt (Group 1 (Seq (Lit "-") (Plus (Chr suffix_char)))))
    (Seq (Opt (Group 2 (Seq (Lit "+") (Plus (Chr suffix_char)))))
     Eol))))))).

Section WithEnv.

Variable env : Env.

(** ** parseGitHubUrl *)
Definition parseGitHubUrl (url : value) : M (option (string * string)) :=
  s <- string_receiver env url "match" ;;
  match exec github_url s with
  | None => ret None
  | Some (_, st) =>
      match cap 1 (caps st), cap 2 (caps st) with
      | Some owner, Some repo =>
          ret (Some (owner, replace_regex dot_git_at_end EmptyString repo))
      | _, _ => ret None
      end
  end.

Definition rawUrl (owner repo branch filePath : string) : string :=
  "https://raw.githubusercontent.com/" ++ owner ++ "/" ++ repo ++ "/" ++
  branch ++ "/" ++ filePath.

(** ** fetchFromGitHub

    The function calls itself once, with the branch [master], when the
    branch was [main]; the measure records that. *)
Definition retries_left (branch : string) : nat :=
  if string_dec branch "main" then 1 else 0.

Equations fetchFromGitHub (repoUrl filePath : value) (branch : string)
  (tr : list event) : outcome string * list event
  by wf (retries_left branch) lt :=
  fetchFromGitHub repoUrl filePath branch tr :=
    (parsed <- parseGitHubUrl repoUrl ;;
     match parsed with
     | None =>
         u <- toStringM env repoUrl ;;
         throw ("Invalid GitHub URL: " ++ u)
     | Some (owner, repo) =>
         path <- toStringM env filePath ;;
         let url := rawUrl owner repo branch path in
         response <- call (Fetch url) (fetch env url) ;;
         if negb (ok response) then
           match string_dec branch "main" with
           | left _ => fun tr' => fetchFromGitHub repoUrl filePath "master" tr'
           | right _ =>
               throw ("Failed to fetch " ++ path ++ ": " ++
                      string_of_Z (status response))
           end
         else ret (body response)
     end) tr.

(** ** isValidPluginId *)
Definition isValidPluginId (id : value) : M bool :=
  s <- string_receiver env id "split" ;;
  let parts := split "." s in
  if (List.length parts <? 2)%nat then ret false
  else ret (forallb (test partPattern) parts).

(** ** isValidSemver *)
Definition isValidSemver (version : value) : M bool :=
  s <- toStringM env version ;;
  ret (test semver s).

(** ** checkDuplicate *)
Fixpoint checkDuplicate_loop (pluginId_ : value) (pluginsDir : string)
  (existingFiles : list string) : M bool :=
  match existingFiles with
  | [] => ret false
  | file :: files' =>
      found <- try_catch
                 (content <- readJSON env (path_join pluginsDir file) ;;
                  id <- get env content "id" ;;
                  ret (strict_equal id pluginId_))
                 (fun _ => ret false) ;;
      if found then ret true
      else checkDuplicate_loop pluginId_ pluginsDir files'
  end.

Definition checkDuplicate (pluginId_ : value) (pluginsDir : string) : M bool :=
  files <- call (ReadDir pluginsDir) (readdirSync env pluginsDir) ;;
  let existingFiles := filter (endsWith ".json") files in
  checkDuplicate_loop pluginId_ pluginsDir existingFiles.

(** ** validatePlugin *)

(** [(mainJs.length / 1024).toFixed(0)] rounds to the nearest integer, a
    half upwards. *)
Definition size_warning (mainJs : string) : string :=
  "Main script is large (" ++
  string_of_Z ((Z.of_nat (String.length mainJs) + 512) / 1024) ++
  "KB) - consider code splitting".

Definition pattern_warning (name : string) : string :=
  "Found potentially dangerous pattern: `" ++ name ++
  "` - please document its use".

(** The source scan, once the entry file has been fetched. *)
Definition scan (mainJs : string) (result : ValidationResult)
  : ValidationResult :=
  let result :=
    if (1024 * 1024 <? String.length mainJs)%nat
    then addWarning (size_warning mainJs) result
    else result in
  fold_left
    (fun result pn =>
       if test (fst pn) mainJs
       then addWarning (pattern_warning (snd pn)) result
       else result)
    DANGEROUS_PATTERNS result.

Definition dangerous_warning (listed : string) : string :=
  "Plugin requests dangerous permissions: `" ++ listed ++
  "` - please document why these are needed".

Definition count_warning (n : nat) : string :=
  "Plugin requests " ++ string_of_Z (Z.of_nat n) ++
  " permissions - consider if all are necessary".

(** [v.length], where there is one. *)
Definition length_of (v : value) : option nat :=
  match v with
  | VArr items => Some (List.length items)
  | VStr s => Some (String.length s)
  | _ => None
  end.

(** The body of [validatePlugin] is given in four consecutive pieces, each
    ending in a call of the next, so that statements can speak about the
    later part of a run: checks 1 to 5 ([validatePlugin]), check 6
    ([checkRepo]), checks 7 to 10 ([checkManifest]), and the warning checks
    with the source scan ([advisories]).  A [return result] of the source is
    a piece that ends without calling the next one. *)

(** The warning checks and the security checks. *)
Definition advisories (submission manifest_ : value)
  (result : ValidationResult) : M ValidationResult :=
  (* Check for dangerous permissions *)
  permissions <- get env manifest_ "permissions" ;;
  dangerousUsed <-
    optional_filter env (includes DANGEROUS_PERMISSIONS) permissions ;;
  result <-
    (if (0 <? List.length dangerousUsed)%nat then
       s <- join_values env "`, `" dangerousUsed ;;
       ret (addWarning (dangerous_warning s) result)
     else ret result) ;;
  (* Check for missing optional fields *)
  helpUrl <- get env manifest_ "helpUrl" ;;
  let result :=
    if negb (truthy helpUrl)
    then addWarning "Consider adding a `helpUrl` for documentation" result
    else result in
  category <- get env manifest_ "category" ;;
  let result :=
    if negb (truthy category)
    then addWarning
           "Consider adding a `category` for better discoverability" result
    else result in
  (* Check permission count *)
  let result :=
    match length_of permissions with
    | Some n =>
        if (5 <? n)%nat then addWarning (count_warning n) result else result
    | None => result
    end in
  (* Security checks - fetch main.js and scan for dangerous patterns *)
  try_catch
    (repo <- get env submission "repo" ;;
     main <- get env manifest_ "main" ;;
     mainJs <- fetchFromGitHub repo main "main" ;;
     ret (scan mainJs result))
    (fun e =>
       ret (addCheck "Main script accessible" false (VStr e) result)).

(** Checks 7 to 10. *)
Definition checkManifest (submission manifest_ : value)
  (result : ValidationResult) : M ValidationResult :=
  (* Check 7: Manifest has required fields *)
  missingManifestFields <-
    filterM (fun f => v <- get env manifest_ f ;; ret (negb (truthy v)))
            REQUIRED_MANIFEST_FIELDS ;;
  if (0 <? List.length missingManifestFields)%nat then
    ret (addCheck "Manifest valid" false
           (VStr ("missing: " ++ join ", " missingManifestFields)) result)
  else
    let result := addCheck "Manifest valid" true VNull result in
    (* Check 8: IDs match *)
    manifest_id <- get env manifest_ "id" ;;
    submission_id <- get env submission "id" ;;
    result <-
      (if negb (strict_equal manifest_id submission_id) then
         s <- toStringM env submission_id ;;
         t <- toStringM env manifest_id ;;
         ret (addCheck "IDs match" false
                (VStr ("submission: " ++ s ++ ", manifest: " ++ t)) result)
       else ret (addCheck "IDs match" true VNull result)) ;;
    (* Check 9: Version format *)
    version <- get env manifest_ "version" ;;
    valid <- isValidSemver version ;;
    result <-
      (if negb valid then
         s <- toStringM env version ;;
         ret (addCheck "Version format" false
                (VStr (s ++ " is not valid semver")) result)
       else ret (addCheck "Version format" true version result)) ;;
    (* Check 10: Permissions are valid *)
    permissions <- get env manifest_ "permissions" ;;
    invalidPermissions <-
      optional_filter env (fun p => negb (includes VALID_PERMISSIONS p))
                      permissions ;;
    result <-
      (if (0 <? List.length invalidPermissions)%nat then
         s <- join_values env ", " invalidPermissions ;;
         ret (addCheck "Valid permissions" false (VStr ("invalid: " ++ s))
                result)
       else ret (addCheck "Valid permissions" true VNull result)) ;;
    advisories submission manifest_ result.

(** Check 6: Repo accessible and has manifest. *)
Definition checkRepo (submission : value) (result : ValidationResult)
  : M ValidationResult :=
  fetched <-
    try_catch
      (repo <- get env submission "repo" ;;
       manifestContent <- fetchFromGitHub repo (VStr "manifest.json") "main" ;;
       manifest_ <- lift (JSON_parse env manifestContent) ;;
       let result := addCheck "Repo accessible" true VNull result in
       let result := addCheck "Manifest found" true VNull result in
       ret (inl (manifest_, set_manifest manifest_ result)))
      (fun e =>
         ret (inr (addCheck "Repo accessible" false (VStr e) result))) ;;
  match fetched with
  | inr result => ret result
  | inl (manifest_, result) => checkManifest submission manifest_ result
  end.

Definition duplicate_warning : string :=
  "Plugin ID already exists - this will update the existing entry".

(** Check 4, as a function of the file name and the identifier's text. *)
Definition checkFilename (filename id_text : string)
  (result : ValidationResult) : ValidationResult :=
  let expectedFilename := id_text ++ ".json" in
  if negb (String.eqb filename expectedFilename)
  then addCheck "Filename matches ID" false
         (VStr ("expected " ++ expectedFilename)) result
  else addCheck "Filename matches ID" true VNull result.

Definition validatePlugin (submissionPath pluginsDir : string)
  : M ValidationResult :=
  let filename := basename submissionPath in
  let result :=
    new_ValidationResult
      (VStr (replace_first ".json" EmptyString filename)) in
  (* Check 1: Valid JSON *)
  parsed <-
    try_catch
      (submission <- readJSON env submissionPath ;;
       ret (inl (submission, addCheck "Valid JSON" true VNull result)))
      (fun e => ret (inr (addCheck "Valid JSON" false (VStr e) result))) ;;
  match parsed with
  | inr result => ret result
  | inl (submission, result) =>
      (* Check 2: Required fields *)
      missingFields <-
        filterM (fun f => v <- get env submission f ;; ret (negb (truthy v)))
                REQUIRED_SUBMISSION_FIELDS ;;
      if (0 <? List.length missingFields)%nat then
        ret (addCheck "Required fields" false
               (VStr ("missing: " ++ join ", " missingFields)) result)
      else
        let result := addCheck "Required fields" true VNull result in
        (* Update result with actual plugin ID *)
        id <- get env submission "id" ;;
        let result := set_pluginId id result in
        (* Check 3: Plugin ID format *)
        valid <- isValidPluginId id ;;
        if negb valid then
          ret (addCheck "Plugin ID format" false
                 (VStr "must be reverse domain notation (e.g., com.author.name)")
                 result)
        else
          let result := addCheck "Plugin ID format" true VNull result in
          (* Check 4: Filename matches plugin ID *)
          id_text <- toStringM env id ;;
          let result := checkFilename filename id_text result in
          (* Check 5: Check for duplicates *)
          isDuplicate <- checkDuplicate id pluginsDir ;;
          let result :=
            if isDuplicate then addWarning duplicate_warning result
            else result in
          checkRepo submission result
  end.

End WithEnv.

(** ** ValidationResult: the reports *)

Definition utf8 (bytes : list nat) : string :=
  string_of_list_ascii (map ascii_of_nat bytes).

Definition check_mark : string := utf8 [226; 156; 133].          (* U+2705 *)
Definition cross_mark : string := utf8 [226; 157; 140].          (* U+274C *)
Definition magnifier : string := utf8 [240; 159; 148; 141].      (* U+1F50D *)
Definition warning_sign : string :=
  utf8 [226; 154; 160; 239; 184; 143].                    (* U+26A0 U+FE0F *)

(** An element of [checks], as [JSON.stringify] sees it. *)
Definition check_value (check : Item.t) : value :=
  VObj [ ("name", VStr (Item.name check));
         ("passed", VBool (Item.passed check));
         ("details", Item.details check) ].

(** [toJSON()]. *)
Definition toJSON (this : ValidationResult) : value :=
  VObj [ ("pluginId", pluginId this);
         ("passed", VBool (passed this));
         ("checks", VArr (map check_value (checks this)));
         ("warnings", VArr (map VStr (warnings this)));
         ("errors", VArr (map VStr (errors this)));
         ("manifest", manifest this) ].

Section Report.

Variable env : Env.

(** One row of the table of checks. *)
Definition row (check : Item.t) : M string :=
  let icon := if Item.passed check then check_mark else cross_mark in
  details <-
    (if truthy (Item.details check) then
       s <- toStringM env (Item.details check) ;;
       ret (" (" ++ s ++ ")")
     else ret EmptyString) ;;
  ret ("| " ++ Item.name check ++ details ++ " | " ++ icon ++ " |" ++ newline).

Fixpoint rows (checks_ : list Item.t) (md : string) : M string :=
  match checks_ with
  | [] => ret md
  | check :: checks' =>
      r <- row check ;;
      rows checks' (md ++ r)
  end.

(** [this.manifest.permissions?.join(', ') || 'none']. *)
Definition listed_permissions (permissions : value) : M string :=
  match permissions with
  | VUndefined | VNull => ret "none"
  | VArr items =>
      s <- join_values env ", " items ;;
      ret (if String.eqb s EmptyString then "none" else s)
  | _ => type_error_ env (NotAFunction "join")
  end.

(** [toMarkdown()]. *)
Definition toMarkdown (this : ValidationResult) : M string :=
  let status :=
    if passed this then check_mark ++ " Passed" else cross_mark ++ " Failed" in
  let md := "## " ++ magnifier ++ " Plugin Validation Results" ++ newline ++
            newline in
  id <- toStringM env (pluginId this) ;;
  let md := md ++ "**Plugin:** `" ++ id ++ "`" ++ newline in
  let md := md ++ "**Status:** " ++ status ++ newline ++ newline in
  (* Checks table *)
  let md := md ++ "### Checks" ++ newline in
  let md := md ++ "| Check | Status |" ++ newline in
  let md := md ++ "|-------|--------|" ++ newline in
  md <- rows (checks this) md ;;
  let md := md ++ newline in
  (* Warnings *)
  let md :=
    if (0 <? List.length (warnings this))%nat then
      fold_left
        (fun md warning =>
           md ++ warning_sign ++ " " ++ warning ++ newline ++ newline)
        (warnings this) (md ++ "### Warnings" ++ newline)
    else md in
  (* Errors *)
  let md :=
    if (0 <? List.length (errors this))%nat then
      fold_left
        (fun md error => md ++ cross_mark ++ " " ++ error ++ newline ++ newline)
        (errors this) (md ++ "### Errors" ++ newline)
    else md in
  (* Manifest summary *)
  if truthy (manifest this) then
    let md := md ++ "### Manifest Summary" ++ newline in
    version <- get env (manifest this) "version" ;;
    s <- toStringM env version ;;
    let md := md ++ "- **Version:** " ++ s ++ newline in
    minAppVersion <- get env (manifest this) "minAppVersion" ;;
    s <- toStringM env minAppVersion ;;
    let md := md ++ "- **Min App Version:** " ++ s ++ newline in
    permissions <- get env (manifest this) "permissions" ;;
    s <- listed_permissions permissions ;;
    let md := md ++ "- **Permissions:** " ++ s ++ newline in
    category <- get env (manifest this) "category" ;;
    if truthy category then
      s <- toStringM env category ;;
      ret (md ++ "- **Category:** " ++ s ++ newline)
    else ret md
  else ret md.

End Report.

(** ** main *)

Section Main.

Variable env : Env.

(** [path.basename(p, suffix)] of the path library. *)
Variable basename_without : string -> string -> string.

(** The result recorded for a file whose validation threw. *)
Definition failed_result (file e : string) : ValidationResult :=
  addError ("Validation failed: " ++ e)
    (new_ValidationResult (VStr (basename_without file ".json"))).

(** One iteration of the loop of [main].  The [try] block pushes the result
    and then renders it for the console; the [catch] block pushes a second
    result, whatever was pushed before. *)
Definition validate_file (file : string) (results : list ValidationResult)
  : M (list ValidationResult) :=
  validated <-
    try_catch
      (result <- validatePlugin env file (PLUGINS_DIR env) ;;
       ret (inl result))
      (fun e => ret (inr e)) ;;
  match validated with
  | inr e => ret (results ++ [failed_result file e])%list
  | inl result =>
      let results := (results ++ [result])%list in
      try_catch
        (_ <- toMarkdown env result ;;
         ret results)
        (fun e => ret (results ++ [failed_result file e])%list)
  end.

Fixpoint for_each_arg (args : list string) (results : list ValidationResult)
  : M (list ValidationResult) :=
  match args with
  | [] => ret results
  | file :: args' =>
      results' <- validate_file file results ;;
      for_each_arg args' results'
  end.

(** [results.map(r => r.toMarkdown())]. *)
Fixpoint markdowns (results : list ValidationResult) : M (list string) :=
  match results with
  | [] => ret []
  | r :: results' =>
      md <- toMarkdown env r ;;
      mds <- markdowns results' ;;
      ret (md :: mds)
  end.

Definition separator : string :=
  newline ++ "---" ++ newline ++ newline.

Definition output_document (results : list ValidationResult)
  (rendered : list string) : value :=
  VObj [ ("allPassed", VBool (forallb passed results));
         ("results", VArr (map toJSON results));
         ("markdown", VStr (join separator rendered)) ].

Definition RESULT_FILE : string := "validation-result.json".

(** [main()], given [process.argv.slice(2)]. *)
Definition main (args : list string) : M termination :=
  if (List.length args =? 0)%nat then ret (Exit 1)
  else
    results <- for_each_arg args [] ;;
    (* Write results to file for GitHub Action *)
    rendered <- markdowns results ;;
    let output := output_document results rendered in
    writeJSON env RESULT_FILE output ;;;
    (* Exit with error code if any failed *)
    if negb (forallb passed results) then ret (Exit 1) else ret Completed.

(** [main().catch(e => { ...; process.exit(1) })]. *)
Definition script (args : list string) : M termination :=
  try_catch (main args) (fun _ => ret (Exit 1)).

End Main.

End Validate.

(* ================================================================== *)
(** * The directory build script *)
(* ================================================================== *)

Module Build.
Import JS Runtime.
Local Open Scope js_scope.

Definition not_slash (c : ascii) : bool := negb (is_char "/" c).

(** [/github\.com\/([^\/]+)\/([^\/]+)/] *)
Definition github_url : regex :=
  Seq (Lit "github.com/")
      (Seq (Group 1 (Plus (Chr not_slash)))
           (Seq (Lit "/") (Group 2 (Plus (Chr not_slash))))).

(** [/\.git$/] *)
Definition dot_git_at_end : regex := Seq (Lit ".git") Eol.

Section WithEnv.

Variable env : Env.

(** ** parseGitHubUrl *)
Definition parseGitHubUrl (url : value) : M (option (string * string)) :=
  s <- string_receiver env url "match" ;;
  match exec github_url s with
  | None => ret None
  | Some (_, st) =>
      match cap 1 (caps st), cap 2 (caps st) with
      | Some owner, Some repo =>
          ret (Some (owner, replace_regex dot_git_at_end EmptyString repo))
      | _, _ => ret None
      end
  end.

Definition rawUrl (owner repo branch : string) : string :=
  "https://raw.githubusercontent.com/" ++ owner ++ "/" ++ repo ++ "/" ++
  branch ++ "/manifest.json".

Definition retries_left (branch : string) : nat :=
  if string_dec branch "main" then 1 else 0.

(** ** fetchManifest *)
Equations fetchManifest (repoUrl : value) (branch : string)
  (tr : list event) : outcome value * list event
  by wf (retries_left branch) lt :=
  fetchManifest repoUrl branch tr :=
    (parsed <- parseGitHubUrl repoUrl ;;
     match parsed with
     | None =>
         u <- toStringM env repoUrl ;;
         throw ("Invalid GitHub URL: " ++ u)
     | Some (owner, repo) =>
         let url := rawUrl owner repo branch in
         response <- call (Fetch url) (fetch env url) ;;
         if negb (ok response) then
           match string_dec branch "main" with
           | left _ => fun tr' => fetchManifest repoUrl "master" tr'
           | right _ =>
               throw ("Failed to fetch manifest: " ++
                      string_of_Z (status response))
           end
         else lift (JSON_parse env (body response))
     end) tr.

(** ** buildDirectory *)

(** [...(v && { key: v })]. *)
Definition optional_field (key : string) (v : value)
  : list (string * value) :=
  if truthy v then [(key, v)] else [].

(** The object literal of the directory entry. *)
Definition entry (manifest submission : value) : M value :=
  id <- get env manifest "id" ;;
  name <- get env manifest "name" ;;
  description <- get env manifest "description" ;;
  author <- get env manifest "author" ;;
  version <- get env manifest "version" ;;
  minAppVersion <- get env manifest "minAppVersion" ;;
  repo <- get env submission "repo" ;;
  permissions <- get env manifest "permissions" ;;
  authorUrl <- get env manifest "authorUrl" ;;
  helpUrl <- get env manifest "helpUrl" ;;
  fundingUrl <- get env manifest "fundingUrl" ;;
  supportLinks <- get env manifest "supportLinks" ;;
  tags <- get env manifest "tags" ;;
  category <- get env manifest "category" ;;
  updatedAt <- now env ;;
  ret (VObj ([ ("id", id);
               ("name", name);
               ("description", description);
               ("author", author);
               ("version", version);
               ("minAppVersion", minAppVersion);
               ("repo", repo);
               ("permissions",
                if truthy permissions then permissions else VArr []) ]
             ++ optional_field "authorUrl" authorUrl
             ++ optional_field "helpUrl" helpUrl
             ++ optional_field "fundingUrl" fundingUrl
             ++ optional_field "supportLinks" supportLinks
             ++ optional_field "tags" tags
             ++ optional_field "category" category
             ++ [ ("updatedAt", VStr updatedAt) ])%list).

(** The two arrays the loop appends to. *)
Record collected : Type := Collected {
  plugins : list value;
  errors : list (string * string)        (* { file, error } *)
}.

Definition push_plugin (plugin : value) (acc : collected) : collected :=
  Collected (plugins acc ++ [plugin])%list (errors acc).

Definition push_error (file e : string) (acc : collected) : collected :=
  Collected (plugins acc) (errors acc ++ [(file, e)])%list.

(** One iteration of the loop.  The [try] block first builds the entry and
    pushes it, then writes the console line, which converts the manifest's
    name and version to text; the [catch] block records the error, whatever
    was pushed before. *)
Definition process (file : string) (acc : collected) : M collected :=
  built <-
    try_catch
      (submission <- readJSON env (path_join (PLUGINS_DIR env) file) ;;
       repo <- get env submission "repo" ;;
       manifest <- fetchManifest repo "main" ;;
       plugin <- entry manifest submission ;;
       ret (inl (manifest, plugin)))
      (fun e => ret (inr e)) ;;
  match built with
  | inr e => ret (push_error file e acc)
  | inl (manifest, plugin) =>
      let acc := push_plugin plugin acc in
      try_catch
        (name <- get env manifest "name" ;;
         _ <- toStringM env name ;;
         version <- get env manifest "version" ;;
         _ <- toStringM env version ;;
         ret acc)
        (fun e => ret (push_error file e acc))
  end.

Fixpoint for_each_file (files : list string) (acc : collected) : M collected :=
  match files with
  | [] => ret acc
  | file :: files' =>
      acc' <- process file acc ;;
      for_each_file files' acc'
  end.

(** [(a, b) => a.name.localeCompare(b.name)] *)
Definition by_name (a b : value) : M Z :=
  a_name <- get env a "name" ;;
  this <- string_receiver env a_name "localeCompare" ;;
  b_name <- get env b "name" ;;
  that <- toStringM env b_name ;;
  ret (localeCompare env this that).

(** [array.sort(comparefn)].  The language leaves the sequence of calls to
    the comparison function to the engine.  Here each element in turn is
    inserted into the sorted prefix and is the first argument of the
    comparisons that place it, as in the engine of Node, whose first call on
    an array is [comparefn(array[1], array[0])].  An exception of the
    comparison function ends the sort. *)
Fixpoint insert (comparefn : value -> value -> M Z) (x : value)
  (sorted : list value) : M (list value) :=
  match sorted with
  | [] => ret [x]
  | y :: sorted' =>
      order <- comparefn x y ;;
      if (order <? 0)%Z then ret (x :: y :: sorted')
      else (tail <- insert comparefn x sorted' ;; ret (y :: tail))
  end.

Fixpoint sort_into (comparefn : value -> value -> M Z) (sorted : list value)
  (pending : list value) : M (list value) :=
  match pending with
  | [] => ret sorted
  | x :: pending' =>
      sorted' <- insert comparefn x sorted ;;
      sort_into comparefn sorted' pending'
  end.

Definition sort (comparefn : value -> value -> M Z) (array : list value)
  : M (list value) :=
  sort_into comparefn [] array.

Definition directory_document (generatedAt : string) (plugins_ : list value)
  : value :=
  VObj [ ("version", VNum "1");
         ("generatedAt", VStr generatedAt);
         ("plugins", VArr plugins_) ].

Definition buildDirectory : M collected :=
  (* Read all submission files *)
  listing <- call (ReadDir (PLUGINS_DIR env))
                  (readdirSync env (PLUGINS_DIR env)) ;;
  let files := filter (endsWith ".json") listing in
  acc <- for_each_file files (Collected [] []) ;;
  (* Sort plugins by name *)
  sorted <- sort by_name (plugins acc) ;;
  (* Build final directory *)
  generatedAt <- now env ;;
  (* Write to file *)
  writeJSON env (OUTPUT_FILE env) (directory_document generatedAt sorted) ;;;
  ret (Collected sorted (errors acc)).

End WithEnv.

(** [buildDirectory().catch(e => { ...; process.exit(1) })]. *)
Definition script (env : Env) : M termination :=
  try_catch (_ <- buildDirectory env ;; ret Completed)
            (fun _ => ret (Exit 1)).

End Build.

(* ================================================================== *)
(** * Vocabulary of the statements *)
(* ================================================================== *)

Module Spec.
Import JS Runtime Validate.

(** ** Regular expressions *)

(** [Match r st st']: pattern [r] can take the matcher from state [st] to
    state [st']. *)
Inductive Match : regex -> mstate -> mstate -> Prop :=
| MChr p b c s cs :
    p c = true ->
    Match (Chr p) (MState b (String c s) cs) (MState (Some c) s cs)
| MEps st : Match Eps st st
| MSeq r1 r2 st st1 st2 :
    Match r1 st st1 -> Match r2 st1 st2 -> Match (Seq r1 r2) st st2
| MAltL r1 r2 st st' : Match r1 st st' -> Match (Alt r1 r2) st st'
| MAltR r1 r2 st st' : Match r2 st st' -> Match (Alt r1 r2) st st'
| MStar0 r st : Match (Star r) st st
| MStarS r st st1 st2 :
    Match r st st1 ->
    (String.length (rest st1) < String.length (rest st))%nat ->
    Match (Star r) st1 st2 ->
    Match (Star r) st st2
| MGroup i r st st1 :
    Match r st st1 ->
    Match (Group i r) st (set_cap i (consumed st st1) st1)
| MBol st : before st = None -> Match Bol st st
| MEol st : rest st = EmptyString -> Match Eol st st
| MWordB st :
    xorb (word_before st) (word_after st) = true -> Match WordB st st.

(** Every code unit of [s] satisfies [p]. *)
Fixpoint all (p : ascii -> bool) (s : string) : bool :=
  match s with
  | EmptyString => true
  | String c s' => p c && all p s'
  end.

(** The code unit left of the position after consuming [w]. *)
Fixpoint last_of (b : option ascii) (w : string) : option ascii :=
  match w with
  | EmptyString => b
  | String c w' => last_of (Some c) w'
  end.

(** The state in which a match attempt at the start of [s] begins. *)
Definition start (s : string) : mstate := MState None s [].

(** ** Identifiers and versions, in the words of the specification *)

(** [c] is one of the code units of [alphabet]. *)
Definition one_of (alphabet : string) (c : ascii) : bool :=
  existsb (Ascii.eqb c) (list_ascii_of_string alphabet).

(** [[a-z0-9]] and [[a-z0-9-]]. *)
Definition az09 : ascii -> bool :=
  one_of "abcdefghijklmnopqrstuvwxyz0123456789".
Definition az09h : ascii -> bool :=
  one_of "abcdefghijklmnopqrstuvwxyz0123456789-".

(** A part matches [[a-z0-9][a-z0-9-]*[a-z0-9]] or is a single [[a-z0-9]]. *)
Definition identifier_part (p : string) : Prop :=
  (exists c, p = String c EmptyString /\ az09 c = true) \/
  (exists c1 mid c2, p = String c1 (mid ++ String c2 EmptyString) /\
     az09 c1 = true /\ all az09h mid = true /\ az09 c2 = true).

Definition no_dot (p : string) : bool :=
  all (fun c => negb (Ascii.eqb c ".")) p.

(** [\d] and [[a-zA-Z0-9.-]]. *)
Definition digit : ascii -> bool := one_of "0123456789".
Definition suffix_unit : ascii -> bool :=
  one_of "abcdefghijklmnopqrstuvwxyzABCDEFGHIJKLMNOPQRSTUVWXYZ0123456789.-".

(** [\d+] *)
Definition number (w : string) : Prop :=
  w <> EmptyString /\ all digit w = true.

(** Nothing, or [sign] followed by one or more of [[a-zA-Z0-9.-]]. *)
Definition optional_suffix (sign : ascii) (t : string) : Prop :=
  t = EmptyString \/
  exists w, t = String sign w /\ w <> EmptyString /\
            all suffix_unit w = true.

(** MAJOR.MINOR.PATCH, then an optional [-] pre-release suffix, then an
    optional [+] build-metadata suffix. *)
Definition semantic_version (v : string) : Prop :=
  exists major minor patch pre build,
    v = major ++ "." ++ minor ++ "." ++ patch ++ pre ++ build /\
    number major /\ number minor /\ number patch /\
    optional_suffix "-" pre /\ optional_suffix "+" build.

(** ** Sequences of operations on a ValidationResult *)

Inductive operation : Type :=
| AddCheck (name : string) (passed_ : bool) (details : value)
| AddWarning (message : string)
| AddError (message : string).

Definition apply_operation (r : ValidationResult) (op : operation)
  : ValidationResult :=
  match op with
  | AddCheck n p d => addCheck n p d r
  | AddWarning w => addWarning w r
  | AddError e => addError e r
  end.

Definition apply_all (ops : list operation) (r : ValidationResult)
  : ValidationResult :=
  fold_left apply_operation ops r.

(** A failed check or an error. *)
Definition failing (op : operation) : bool :=
  match op with
  | AddCheck _ p _ => negb p
  | AddWarning _ => false
  | AddError _ => true
  end.

(** ** Fetching *)

(** The address of the file [file] of the repository [owner]/[repo] on the
    branch [branch], at the host of raw files. *)
Definition raw_file (owner repo branch file : string) : string :=
  "https://raw.githubusercontent.com/" ++ owner ++ "/" ++ repo ++ "/" ++
  branch ++ "/" ++ file.

(** A retrieval that is not successful: a response whose status is not in
    200-299, or no response at all. *)
Definition refused (o : outcome response) : Prop :=
  match o with
  | Ret r => ok r = false
  | Throw _ => True
  end.

(** The message of the failure that carries the HTTP status. *)
Definition failed_to_fetch (what : string) (r : response) : string :=
  "Failed to fetch " ++ what ++ ": " ++ string_of_Z (status r).

(** The policy of one fallback, for a function [run] of the branch that
    requests the addresses [address branch]; [result] is what it makes of a
    successful response and [failure] the message for one that is not.
    - A successful response gives the result, after that one request.
    - A response without success on the branch [main] is followed by exactly
      one more request, to the branch [master], whose answer decides: the
      result, the failure with its status, or its rejection.
    - A response without success on another branch gives the failure with
      its status, after that one request.
    - A request that is rejected, so that there is no response, ends the
      fetch at once with the rejection, on whatever branch. *)
Definition one_fallback {A : Type} (env : Env) (address : string -> string)
  (failure : response -> string) (result : response -> outcome A)
  (run : string -> M A) : Prop :=
  (forall branch r tr,
     fetch env (address branch) = Ret r -> ok r = true ->
     run branch tr = (result r, (tr ++ [Fetch (address branch)])%list)) /\
  (forall r1 tr,
     fetch env (address "main") = Ret r1 -> ok r1 = false ->
     run "main" tr =
     (match fetch env (address "master") with
      | Ret r2 => if ok r2 then result r2 else Throw (failure r2)
      | Throw e => Throw e
      end,
      (tr ++ [Fetch (address "main"); Fetch (address "master")])%list)) /\
  (forall branch r tr,
     branch <> "main" ->
     fetch env (address branch) = Ret r -> ok r = false ->
     run branch tr =
     (Throw (failure r), (tr ++ [Fetch (address branch)])%list)) /\
  (forall branch e tr,
     fetch env (address branch) = Throw e ->
     run branch tr = (Throw e, (tr ++ [Fetch (address branch)])%list)).

(** The repository at [url] serves [file] on neither branch. *)
Definition unreachable (env : Env) (url file : string) : Prop :=
  exists owner repo,
    parseGitHubUrl env (VStr url) [] = (Ret (Some (owner, repo)), []) /\
    refused (fetch env (raw_file owner repo "main" file)) /\
    refused (fetch env (raw_file owner repo "master" file)).

(** ** Submissions and manifests *)

(** [v.key] read as a pure function: [undefined] where there is nothing. *)
Definition field (v : value) (key : string) : value :=
  match v with
  | VObj fields =>
      match assoc key fields with Some x => x | None => VUndefined end
  | _ => VUndefined
  end.

(** Neither [undefined] nor [null]. *)
Definition present (v : value) : Prop :=
  match v with
  | VUndefined | VNull => False
  | _ => True
  end.

(** The file at [path] holds [submission], which passes checks 1 to 3: it
    is readable JSON, its required fields are there, and its identifier
    [id] has the required format. *)
Record accepted (env : Env) (path : string) (submission : value) (id : string)
  : Prop := {
  accepted_file :
    exists content, readFileSync env path = Ret content /\
                    JSON_parse env content = Ret submission;
  accepted_fields :
    forall f, In f REQUIRED_SUBMISSION_FIELDS ->
              truthy (field submission f) = true;
  accepted_id : field submission "id" = VStr id;
  accepted_format : isValidPluginId env (VStr id) [] = (Ret true, [])
}.

(** A passed check without details. *)
Definition pass (name : string) : Item.t := Item.Make name true VNull.

(** The result object when check 6 starts. *)
Definition before_check6 (path id : string) (isDuplicate : bool)
  : ValidationResult :=
  let result :=
    checkFilename (basename path) id
      (addCheck "Plugin ID format" true VNull
         (set_pluginId (VStr id)
            (addCheck "Required fields" true VNull
               (addCheck "Valid JSON" true VNull
                  (new_ValidationResult
                     (VStr (replace_first ".json" EmptyString
                                          (basename path)))))))) in
  if isDuplicate then addWarning duplicate_warning result else result.

(** Check 4 as it is recorded for the file name [name] and the identifier
    [id]. *)
Definition filename_check (name id : string) : Item.t :=
  if String.eqb name (id ++ ".json") then pass "Filename matches ID"
  else Item.Make "Filename matches ID" false
         (VStr ("expected " ++ id ++ ".json")).

(** The result of a validation that ends at a failed check 6: the three
    first checks passed, check 4 as it came out, the warning of the
    duplicate check if it found the identifier, the failed check with the
    message [e], and nothing else; no manifest. *)
Definition stopped_at_check6 (path id : string) (isDuplicate : bool)
  (e : string) : ValidationResult :=
  Result (VStr id) false
    [pass "Valid JSON"; pass "Required fields"; pass "Plugin ID format";
     filename_check (basename path) id;
     Item.Make "Repo accessible" false (VStr e)]
    (if isDuplicate
     then ["Plugin ID already exists - this will update the existing entry"]
     else [])
    [] VNull.

(** The requests [requests] for the file [file] of the repository
    [owner]/[repo] all failed, and [e] is the message of the failure: the
    branch [main] and then the branch [master] answered without success, or
    the last of these requests was rejected. *)
Definition all_failed (env : Env) (owner repo file : string)
  (requests : list event) (e : string) : Prop :=
  match fetch env (raw_file owner repo "main" file) with
  | Throw e1 => requests = [Fetch (raw_file owner repo "main" file)] /\ e = e1
  | Ret r1 =>
      ok r1 = false /\
      requests = [Fetch (raw_file owner repo "main" file);
                  Fetch (raw_file owner repo "master" file)] /\
      match fetch env (raw_file owner repo "master" file) with
      | Throw e2 => e = e2
      | Ret r2 => ok r2 = false /\ e = failed_to_fetch file r2
      end
  end.


(** ** Permissions *)

(** The strings of [table] among [items], in the order of [items]. *)
Fixpoint strings_in (table : list string) (items : list value) : list string :=
  match items with
  | [] => []
  | VStr s :: items' =>
      if existsb (String.eqb s) table then s :: strings_in table items'
      else strings_in table items'
  | _ :: items' => strings_in table items'
  end.

(** A warning about dangerous permissions. *)
Definition is_dangerous_warning (w : string) : bool :=
  prefix "Plugin requests dangerous permissions: " w.

Definition harmless (w : string) : Prop := is_dangerous_warning w = false.

(** The warning about the dangerous permissions of [items], if one is due. *)
Definition dangerous_warnings (items : list value) : list string :=
  match strings_in DANGEROUS_PERMISSIONS items with
  | [] => []
  | l => [dangerous_warning (join "`, `" l)]
  end.

(** ** Dangerous permissions *)

(** The kinds of data of the application. *)
Definition DATA : list string :=
  ["goals"; "tasks"; "habits"; "odysseys"; "appointments"; "reminders";
   "categories"; "tags"; "timeline"; "settings"].

(** The permissions that need a justification: writing any kind of data,
    and [network], [filesystem], [theme], [customize:ui]. *)
Definition dangerous (p : string) : bool :=
  existsb (fun kind => String.eqb p ("write:" ++ kind)) DATA ||
  existsb (String.eqb p) ["network"; "filesystem"; "theme"; "customize:ui"].

(** The dangerous permissions among [items], in the order of [items]. *)
Fixpoint dangerous_among (items : list value) : list string :=
  match items with
  | [] => []
  | VStr p :: items' =>
      if dangerous p then p :: dangerous_among items'
      else dangerous_among items'
  | _ :: items' => dangerous_among items'
  end.

(** The warning that lists the permissions [listed]. *)
Definition dangerous_text (listed : list string) : string :=
  "Plugin requests dangerous permissions: `" ++ join "`, `" listed ++
  "` - please document why these are needed".

(** ** Directory entries *)

(** The entry made of a manifest, a repository URL and a timestamp. *)
Definition projection (manifest_ repo : value) (updatedAt : string) : value :=
  VObj ([ ("id", field manifest_ "id");
          ("name", field manifest_ "name");
          ("description", field manifest_ "description");
          ("author", field manifest_ "author");
          ("version", field manifest_ "version");
          ("minAppVersion", field manifest_ "minAppVersion");
          ("repo", repo);
          ("permissions",
           if truthy (field manifest_ "permissions")
           then field manifest_ "permissions" else VArr []) ]
        ++ Build.optional_field "authorUrl" (field manifest_ "authorUrl")
        ++ Build.optional_field "helpUrl" (field manifest_ "helpUrl")
        ++ Build.optional_field "fundingUrl" (field manifest_ "fundingUrl")
        ++ Build.optional_field "supportLinks" (field manifest_ "supportLinks")
        ++ Build.optional_field "tags" (field manifest_ "tags")
        ++ Build.optional_field "category" (field manifest_ "category")
        ++ [ ("updatedAt", VStr updatedAt) ])%list.

(** The fields that an entry always takes from the manifest, and those it
    takes when the manifest has them. *)
Definition ENTRY_FIELDS : list string :=
  ["id"; "name"; "description"; "author"; "version"; "minAppVersion"].

Definition OPTIONAL_FIELDS : list string :=
  ["authorUrl"; "helpUrl"; "fundingUrl"; "supportLinks"; "tags"; "category"].

(** [e] is the entry made of the manifest [manifest_], the repository URL
    [repo] and the timestamp [updatedAt]: an object with the fields of
    [ENTRY_FIELDS], then [repo] and [permissions], then those of
    [OPTIONAL_FIELDS] that are truthy in the manifest, then [updatedAt]; all
    with the values of the manifest, but for [repo], for [updatedAt], and for
    permissions that are falsy, in whose place the entry has the empty
    array. *)
Definition entry_of (manifest_ repo : value) (updatedAt : string) (e : value)
  : Prop :=
  exists fields,
    e = VObj fields /\
    map fst fields =
      (ENTRY_FIELDS ++ ["repo"; "permissions"] ++
       filter (fun key => truthy (field manifest_ key)) OPTIONAL_FIELDS ++
       ["updatedAt"])%list /\
    (forall key, In key ENTRY_FIELDS -> field e key = field manifest_ key) /\
    field e "repo" = repo /\
    field e "permissions" =
      (if truthy (field manifest_ "permissions")
       then field manifest_ "permissions" else VArr []) /\
    (forall key, In key OPTIONAL_FIELDS ->
                 truthy (field manifest_ key) = true ->
                 field e key = field manifest_ key) /\
    field e "updatedAt" = VStr updatedAt.

(** An entry whose name is a string. *)
Definition named (v : value) : Prop :=
  exists fields s, v = VObj fields /\ assoc "name" fields = Some (VStr s).

(** The event is the writing of a file. *)
Definition writes (ev : event) : bool :=
  match ev with
  | WriteFile _ _ => true
  | _ => false
  end.

(** The file at [path] can be written, whatever the document. *)
Definition writable (env : Env) (path : string) : Prop :=
  forall document, writeFileSync env path document = Ret tt.

(** ** Occurrences of a pattern *)

Definition occurs (r : regex) (s : string) : Prop :=
  exists pre suf st', s = pre ++ suf /\ Match r (MState (last_of None pre) suf []) st'.

(** ** Addresses of repositories *)

Definition segment (w : string) : Prop :=
  w <> EmptyString /\ all not_slash w = true.

Definition names_repository (url : string) : Prop :=
  exists pre owner name post,
    url = pre ++ "github.com/" ++ owner ++ "/" ++ name ++ post /\
    segment owner /\ segment name.

Definition without_dot_git (name : string) : string :=
  if endsWith ".git" name
  then substring 0 (String.length name - 4) name
  else name.

(** ** Computations and the events they record *)

(** The computation consults nothing: its outcome is the same whatever
    happened before, and it records no event. *)
Definition silent {A} (c : M A) : Prop :=
  exists o, forall tr, c tr = (o, tr).

(** The computation keeps the events recorded so far and adds only events
    that satisfy [P]. *)
Definition adds_only {A} (P : event -> Prop) (c : M A) : Prop :=
  forall tr, exists o more, c tr = (o, (tr ++ more)%list) /\ Forall P more.

(** ** Requests *)

(** A request for a file of a repository, to the host of raw files. *)
Definition raw_request (ev : event) : Prop :=
  exists owner repo branch path, ev = Fetch (raw_file owner repo branch path).

(** The last of [more] is a successful request, answered by [r]. *)
Definition answered_by (env : Env) (more : list event) (r : response) : Prop :=
  exists earlier url,
    more = (earlier ++ [Fetch url])%list /\ fetch env url = Ret r /\ ok r = true.

(** ** What a validation consults *)

(** What a validation of the file [path] against the directory [dir] may
    consult: that file, the listing of the directory, the files of the
    directory whose name ends in [.json], and files of repositories. *)
Definition consulted (path dir : string) (ev : event) : Prop :=
  match ev with
  | ReadFile p =>
      p = path \/
      exists file, endsWith ".json" file = true /\ p = path_join dir file
  | ReadDir d => d = dir
  | Fetch _ => raw_request ev
  | Now | WriteFile _ _ => False
  end.

(** The computation does not depend on the events recorded so far: it has
    one outcome and adds one sequence of events, all of which satisfy [P]. *)
Definition steady {A} (P : event -> Prop) (c : M A) : Prop :=
  exists o more,
    Forall P more /\ forall tr, c tr = (o, (tr ++ more)%list).

(** ** What the builder reads *)

(** The files read, in order. *)
Fixpoint files_read (tr : list event) : list string :=
  match tr with
  | [] => []
  | ReadFile p :: tr' => p :: files_read tr'
  | _ :: tr' => files_read tr'
  end.

(** A request for a raw file, or a reading of the clock. *)
Definition request_or_clock (ev : event) : Prop :=
  raw_request ev \/ ev = Now.

(** ** The order of the directory *)

(** The name of a directory entry, where it is a string. *)
Definition name_of (v : value) : string :=
  match field v "name" with
  | VStr s => s
  | _ => EmptyString
  end.

(** [a] may stand before [b] in a list ordered by name. *)
Definition by_name_order (env : Env) (a b : value) : Prop :=
  (localeCompare env (name_of a) (name_of b) <= 0)%Z.

(** The directory document: its format version, the time of its making and
    the entries. *)
Definition directory (generatedAt : string) (entries : list value) : value :=
  VObj [ ("version", VNum "1");
         ("generatedAt", VStr generatedAt);
         ("plugins", VArr entries) ].

(** The collation orders the strings: it is antisymmetric and transitive. *)
Definition consistent_collation (env : Env) : Prop :=
  (forall s t, (0 <= localeCompare env s t)%Z -> (localeCompare env t s <= 0)%Z) /\
  (forall s t u,
     (localeCompare env s t <= 0)%Z -> (localeCompare env t u <= 0)%Z ->
     (localeCompare env s u <= 0)%Z).

(** ** The checks of a result *)

(** The checks, in the order in which a validation records them. *)
Definition CHECK_ORDER : list string :=
  ["Valid JSON"; "Required fields"; "Plugin ID format"; "Filename matches ID";
   "Repo accessible"; "Manifest found"; "Manifest valid"; "IDs match";
   "Version format"; "Valid permissions"; "Main script accessible"].

(** The checks after whose failure a validation returns at once. *)
Definition STOPPING : list string :=
  ["Valid JSON"; "Required fields"; "Plugin ID format"; "Repo accessible";
   "Manifest valid"].

Definition stopping (check : Item.t) : bool :=
  existsb (String.eqb (Item.name check)) STOPPING.

(** [r'] is [r] after the checks [added] and possibly some warnings. *)
Definition grows (r r' : ValidationResult) (added : list Item.t) : Prop :=
  checks r' = (checks r ++ added)%list /\
  passed r' = passed r && forallb Item.passed added /\
  errors r' = errors r.

(** The check that the source scan may add. *)
Definition main_check (failure : option string) : list Item.t :=
  match failure with
  | None => []
  | Some e => [Item.Make "Main script accessible" false (VStr e)]
  end.

(** ** The first checks, the duplicate check, checks 8 to 10 *)

(** The result object that a validation of the file [path] starts from. *)
Definition fresh_result (path : string) : ValidationResult :=
  new_ValidationResult
    (VStr (replace_first ".json" EmptyString (basename path))).

(** The required fields that [submission] lacks. *)
Definition missing (submission : value) (required : list string) : list string :=
  filter (fun f => negb (truthy (field submission f))) required.

(** The file [file] of the directory [dir] holds JSON whose [id] is [id]. *)
Definition holds_id (env : Env) (dir : string) (id : value) (file : string)
  : bool :=
  match readFileSync env (path_join dir file) with
  | Ret content =>
      match JSON_parse env content with
      | Ret VUndefined | Ret VNull => false
      | Ret v => strict_equal (field v "id") id
      | Throw _ => false
      end
  | Throw _ => false
  end.

(** The elements of [l] up to and including the first that satisfies [f]. *)
Fixpoint up_to_first (f : string -> bool) (l : list string) : list string :=
  match l with
  | [] => []
  | x :: l' => if f x then [x] else x :: up_to_first f l'
  end.

(** Checks 8 to 10, for identifiers, a version and permissions that are
    strings. *)
Definition ids_check (sid mid : string) (r : ValidationResult)
  : ValidationResult :=
  if String.eqb mid sid then addCheck "IDs match" true VNull r
  else addCheck "IDs match" false
         (VStr ("submission: " ++ sid ++ ", manifest: " ++ mid)) r.

Definition version_check (v : string) (r : ValidationResult)
  : ValidationResult :=
  if test semver v then addCheck "Version format" true (VStr v) r
  else addCheck "Version format" false (VStr (v ++ " is not valid semver")) r.

Definition unknown_permissions (items : list string) : list string :=
  filter (fun p => negb (existsb (String.eqb p) VALID_PERMISSIONS)) items.

Definition permissions_check (items : list string) (r : ValidationResult)
  : ValidationResult :=
  match unknown_permissions items with
  | [] => addCheck "Valid permissions" true VNull r
  | unknown =>
      addCheck "Valid permissions" false
        (VStr ("invalid: " ++ join ", " unknown)) r
  end.

(** ** The texts that the source scan looks for *)

(** After the text [pre] a word can begin: [pre] is empty or does not end in a
    letter, a digit or an underscore. *)
Definition word_can_start (pre : string) : Prop :=
  match last_of None pre with
  | Some c => is_word c = false
  | None => True
  end.

(** White space only. *)
Definition blank (ws : string) : Prop := all is_space ws = true.

Definition calls_eval (s : string) : Prop :=
  exists pre ws post,
    s = pre ++ "eval" ++ ws ++ "(" ++ post /\ word_can_start pre /\ blank ws.

Definition calls_new_Function (s : string) : Prop :=
  exists pre ws1 ws2 post,
    s = pre ++ "new" ++ ws1 ++ "Function" ++ ws2 ++ "(" ++ post /\
    word_can_start pre /\ ws1 <> EmptyString /\ blank ws1 /\ blank ws2.

Definition mentions_document_write (s : string) : Prop :=
  exists pre post, s = pre ++ "document.write" ++ post.

Definition assigns_innerHTML (s : string) : Prop :=
  exists pre ws post, s = pre ++ "innerHTML" ++ ws ++ "=" ++ post /\ blank ws.

Definition fetches_template (s : string) : Prop :=
  exists pre ws args post,
    s = pre ++ "fetch" ++ ws ++ "(" ++ args ++ "${" ++ post /\
    word_can_start pre /\ blank ws /\
    all (fun c => negb (is_char ")" c)) args = true.

(** The names of the patterns found in [mainJs], in the order of the table. *)
Definition flagged (mainJs : string) : list string :=
  map snd (filter (fun pn => test (fst pn) mainJs) DANGEROUS_PATTERNS).

(** ** The run of [main] *)

(** The outcome of validating the file [path], and the events of that
    validation. *)
Definition verdict (env : Env) (path : string) : outcome ValidationResult :=
  fst (validatePlugin env path (PLUGINS_DIR env) []).

Definition consultation (env : Env) (path : string) : list event :=
  snd (validatePlugin env path (PLUGINS_DIR env) []).

(** The outcome of rendering a result. *)
Definition rendering (env : Env) (r : ValidationResult) : outcome string :=
  fst (toMarkdown env r []).

(** The results that [main] records for one file. *)
Definition reported (env : Env) (basename_without : string -> string -> string)
  (file : string) : list ValidationResult :=
  match verdict env file with
  | Throw e => [failed_result basename_without file e]
  | Ret r =>
      match rendering env r with
      | Ret _ => [r]
      | Throw e => [r; failed_result basename_without file e]
      end
  end.

(** The file validates, passes and can be rendered. *)
Definition clean (env : Env) (file : string) : Prop :=
  exists r md,
    verdict env file = Ret r /\ passed r = true /\ rendering env r = Ret md.

(** ** What a rendering converts to text *)

(** The value can be converted to text. *)
Definition printable (v : value) : Prop := exists s, toString v = Some s.

(** The elements of an array can be joined. *)
Definition joinable (items : list value) : Prop := Forall printable items.

(** What the summary of a manifest converts to text. *)
Definition summary_printable (m : value) : Prop :=
  printable (field m "version") /\
  printable (field m "minAppVersion") /\
  (truthy (field m "category") = true -> printable (field m "category")) /\
  match field m "permissions" with
  | VUndefined | VNull => True
  | VArr items => joinable items
  | _ => False
  end.

(** What a rendering of the result converts to text. *)
Definition renderable (r : ValidationResult) : Prop :=
  printable (pluginId r) /\
  Forall (fun c => truthy (Item.details c) = true -> printable (Item.details c))
         (checks r) /\
  (truthy (manifest r) = true -> summary_printable (manifest r)).

(** ** A repository that serves a file *)

(** The repository at [url] serves the text [text] as [file]: on the branch
    [main], or on [master] when [main] answers without success. *)
Definition serves (env : Env) (url file text : string) : Prop :=
  exists owner repo r,
    parseGitHubUrl env (VStr url) [] = (Ret (Some (owner, repo)), []) /\
    ok r = true /\ body r = text /\
    (fetch env (raw_file owner repo "main" file) = Ret r \/
     (exists r1, fetch env (raw_file owner repo "main" file) = Ret r1 /\
                 ok r1 = false) /\
     fetch env (raw_file owner repo "master" file) = Ret r).

(** Ten passed checks, the version being the detail of the ninth. *)
Definition all_checks_passed (v : string) : list Item.t :=
  [pass "Valid JSON"; pass "Required fields"; pass "Plugin ID format";
   pass "Filename matches ID"; pass "Repo accessible"; pass "Manifest found";
   pass "Manifest valid"; pass "IDs match";
   Item.Make "Version format" true (VStr v); pass "Valid permissions"].

End Spec.

(* ================================================================== *)
(** * Example worlds *)
(* ================================================================== *)

Module Examples.
Import JS Runtime Validate Spec.

(** JSON text is written with ['] for the double quote. *)
Definition double_quote : ascii := ascii_of_nat 34.

Fixpoint json (s : string) : string :=
  match s with
  | EmptyString => EmptyString
  | String c s' =>
      String (if Ascii.eqb c "'" then double_quote else c) (json s')
  end.

Fixpoint lookup {A : Type} (key : string) (table : list (string * A))
  (default : A) : A :=
  match table with
  | [] => default
  | (k, a) :: table' =>
      if String.eqb key k then a else lookup key table' default
  end.

(** A world given by its files, directory listings, web pages and the JSON
    documents among their texts.  Every file can be written, the clock
    stands still and strings are collated by code unit. *)
Definition world (files : list (string * string))
  (dirs : list (string * list string)) (web : list (string * string))
  (documents : list (string * value)) : Env := {|
  readFileSync := fun p =>
    lookup p (map (fun f => (fst f, Ret (snd f))) files)
           (Throw "ENOENT: no such file or directory");
  readdirSync := fun p =>
    lookup p (map (fun d => (fst d, Ret (snd d))) dirs)
           (Throw "ENOENT: no such file or directory");
  fetch := fun u =>
    lookup u (map (fun w => (fst w, Ret (Response 200 (snd w)))) web)
           (Ret (Response 404 "404: Not Found"));
  writeFileSync := fun _ _ => Ret tt;
  JSON_parse := fun t =>
    lookup t (map (fun d => (fst d, Ret (snd d))) documents)
           (Throw "Unexpected token");
  toISOString := fun _ => "2024-01-01T00:00:00.000Z";
  localeCompare := fun a b =>
    match String.compare a b with Lt => (-1)%Z | Eq => 0%Z | Gt => 1%Z end;
  typeError := fun e =>
    match e with
    | CannotReadProperty VNull key =>
        "Cannot read properties of null (reading '" ++ key ++ "')"
    | CannotReadProperty _ key =>
        "Cannot read properties of undefined (reading '" ++ key ++ "')"
    | NotAFunction callee => callee ++ " is not a function"
    | CannotConvertToPrimitive => "Cannot convert object to primitive value"
    end;
  PLUGINS_DIR := "plugins";
  OUTPUT_FILE := "plugins.json"
|}.

(** The submission of Examples 1, 2 and 4. *)
Definition submission_text : string :=
  json "{'id':'com.a.b','name':'B','description':'d','author':'A','repo':'https://github.com/a/b'}".

Definition submission_value : value :=
  VObj [("id", VStr "com.a.b"); ("name", VStr "B"); ("description", VStr "d");
        ("author", VStr "A"); ("repo", VStr "https://github.com/a/b")].

(** The manifest of Example 1. *)
Definition manifest_text : string :=
  json "{'id':'com.a.b','name':'B','version':'1.0.0','minAppVersion':'2.0.0','author':'A','description':'d','main':'main.js','permissions':['read:goals','network']}".

Definition manifest_value : value :=
  VObj [("id", VStr "com.a.b"); ("name", VStr "B"); ("version", VStr "1.0.0");
        ("minAppVersion", VStr "2.0.0"); ("author", VStr "A");
        ("description", VStr "d"); ("main", VStr "main.js");
        ("permissions", VArr [VStr "read:goals"; VStr "network"])].

Definition main_js : string := "console.log(1)".

(** Example 1: the submission is stored as [plugins/com.a.b.json], the only
    file of the directory, and a copy as [incoming/foo.json] (Example 2);
    its repository serves the manifest and the entry file. *)
Definition example1 : Env :=
  world [("plugins/com.a.b.json", submission_text);
         ("incoming/foo.json", submission_text)]
        [("plugins", ["com.a.b.json"])]
        [("https://raw.githubusercontent.com/a/b/main/manifest.json",
          manifest_text);
         ("https://raw.githubusercontent.com/a/b/main/main.js", main_js)]
        [(submission_text, submission_value);
         (manifest_text, manifest_value)].

(** Example 4: the same submission, but nothing is served. *)
Definition example4 : Env :=
  world [("plugins/com.a.b.json", submission_text)]
        [("plugins", ["com.a.b.json"])]
        []
        [(submission_text, submission_value)].

(** A repository whose manifest names another plugin. *)
Definition other_manifest_text : string :=
  json "{'id':'org.other.plugin','name':'Other','version':'2.0.0','minAppVersion':'2.0.0','author':'O','description':'o','main':'main.js','permissions':[]}".

Definition other_manifest_value : value :=
  VObj [("id", VStr "org.other.plugin"); ("name", VStr "Other");
        ("version", VStr "2.0.0"); ("minAppVersion", VStr "2.0.0");
        ("author", VStr "O"); ("description", VStr "o");
        ("main", VStr "main.js"); ("permissions", VArr [])].

Definition mismatch : Env :=
  world [("plugins/com.a.b.json", submission_text)]
        [("plugins", ["com.a.b.json"])]
        [("https://raw.githubusercontent.com/a/b/main/manifest.json",
          other_manifest_text)]
        [(submission_text, submission_value);
         (other_manifest_text, other_manifest_value)].

(** Two submissions; the manifest of the second repository is [beta]. *)
Definition alpha_text : string :=
  json "{'id':'com.a.alpha','name':'Alpha','description':'d','author':'A','repo':'https://github.com/a/alpha'}".

Definition alpha_value : value :=
  VObj [("id", VStr "com.a.alpha"); ("name", VStr "Alpha");
        ("description", VStr "d"); ("author", VStr "A");
        ("repo", VStr "https://github.com/a/alpha")].

Definition beta_text : string :=
  json "{'id':'com.b.beta','name':'Beta','description':'d','author':'B','repo':'https://github.com/b/beta'}".

Definition beta_value : value :=
  VObj [("id", VStr "com.b.beta"); ("name", VStr "Beta");
        ("description", VStr "d"); ("author", VStr "B");
        ("repo", VStr "https://github.com/b/beta")].

Definition alpha_manifest_text : string :=
  json "{'id':'com.a.alpha','name':'Alpha','version':'1.0.0','minAppVersion':'2.0.0','author':'A','description':'d','main':'main.js','permissions':[]}".

Definition alpha_manifest_value : value :=
  VObj [("id", VStr "com.a.alpha"); ("name", VStr "Alpha");
        ("version", VStr "1.0.0"); ("minAppVersion", VStr "2.0.0");
        ("author", VStr "A"); ("description", VStr "d");
        ("main", VStr "main.js"); ("permissions", VArr [])].

Definition two_submissions (listing : list string) (beta : string * value)
  : Env :=
  world [("plugins/alpha.json", alpha_text); ("plugins/beta.json", beta_text)]
        [("plugins", listing)]
        [("https://raw.githubusercontent.com/a/alpha/main/manifest.json",
          alpha_manifest_text);
         ("https://raw.githubusercontent.com/b/beta/main/manifest.json",
          fst beta)]
        [(alpha_text, alpha_value); (beta_text, beta_value);
         (alpha_manifest_text, alpha_manifest_value); beta].

(** A manifest without a name. *)
Definition nameless : string * value :=
  (json "{'id':'com.b.beta','version':'1.0.0'}",
   VObj [("id", VStr "com.b.beta"); ("version", VStr "1.0.0")]).

(** A manifest whose name is an object with a [toString] entry. *)
Definition unprintable : string * value :=
  (json "{'id':'com.b.beta','name':{'toString':1},'version':'1.0.0'}",
   VObj [("id", VStr "com.b.beta"); ("name", VObj [("toString", VNum "1")]);
         ("version", VStr "1.0.0")]).

(** The repository of [submission_value]. *)
Definition example_url : string := "https://github.com/a/b".

(** A submission whose repository is not on GitHub. *)
Definition elsewhere_text : string :=
  json "{'id':'com.a.b','name':'B','description':'d','author':'A','repo':'https://gitlab.com/a/b'}".

Definition elsewhere_value : value :=
  VObj [("id", VStr "com.a.b"); ("name", VStr "B"); ("description", VStr "d");
        ("author", VStr "A"); ("repo", VStr "https://gitlab.com/a/b")].

Definition elsewhere : Env :=
  world [("plugins/com.a.b.json", elsewhere_text)]
        [("plugins", ["com.a.b.json"])]
        []
        [(elsewhere_text, elsewhere_value)].

(** Submissions that do not get far: one lacks fields, one has an
    identifier in capitals, one is [null], one has a number as identifier. *)
Definition sparse_text : string := json "{'id':'com.a.b','name':''}".

Definition sparse_value : value :=
  VObj [("id", VStr "com.a.b"); ("name", VStr EmptyString)].

Definition capitals_text : string :=
  json "{'id':'Com.A.B','name':'B','description':'d','author':'A','repo':'https://github.com/a/b'}".

Definition capitals_value : value :=
  VObj [("id", VStr "Com.A.B"); ("name", VStr "B"); ("description", VStr "d");
        ("author", VStr "A"); ("repo", VStr "https://github.com/a/b")].

Definition numbered_text : string :=
  json "{'id':7,'name':'B','description':'d','author':'A','repo':'https://github.com/a/b'}".

Definition numbered_value : value :=
  VObj [("id", VNum "7"); ("name", VStr "B"); ("description", VStr "d");
        ("author", VStr "A"); ("repo", VStr "https://github.com/a/b")].

Definition rejected : Env :=
  world [("plugins/sparse.json", sparse_text);
         ("plugins/capitals.json", capitals_text);
         ("plugins/null.json", "null");
         ("plugins/numbered.json", numbered_text)]
        [("plugins", ["sparse.json"; "capitals.json"; "null.json";
                      "numbered.json"])]
        []
        [(sparse_text, sparse_value); (capitals_text, capitals_value);
         ("null", VNull); (numbered_text, numbered_value)].

(** Example 1 without the entry file. *)
Definition no_entry_file : Env :=
  world [("plugins/com.a.b.json", submission_text)]
        [("plugins", ["com.a.b.json"])]
        [("https://raw.githubusercontent.com/a/b/main/manifest.json",
          manifest_text)]
        [(submission_text, submission_value);
         (manifest_text, manifest_value)].

(** A manifest with nothing but a version that cannot be converted to
    text. *)
Definition opaque_manifest : string * value :=
  (json "{'version':{'toString':1}}",
   VObj [("version", VObj [("toString", VNum "1")])]).

Definition unrenderable : Env :=
  world [("plugins/com.a.b.json", submission_text)]
        [("plugins", ["com.a.b.json"])]
        [("https://raw.githubusercontent.com/a/b/main/manifest.json",
          fst opaque_manifest)]
        [(submission_text, submission_value); opaque_manifest].

(** The manifest of the second of the two submissions. *)
Definition beta_manifest : string * value :=
  (json "{'id':'com.b.beta','name':'Beta','version':'1.0.0','minAppVersion':'2.0.0','author':'B','description':'d','main':'main.js','permissions':[]}",
   VObj [("id", VStr "com.b.beta"); ("name", VStr "Beta");
         ("version", VStr "1.0.0"); ("minAppVersion", VStr "2.0.0");
         ("author", VStr "B"); ("description", VStr "d");
         ("main", VStr "main.js"); ("permissions", VArr [])]).

(** The world [env] with other answers to its requests. *)
Definition with_fetch (env : Env) (answers : string -> outcome response)
  : Env := {|
  readFileSync := readFileSync env;
  readdirSync := readdirSync env;
  fetch := answers;
  writeFileSync := writeFileSync env;
  JSON_parse := JSON_parse env;
  toISOString := toISOString env;
  localeCompare := localeCompare env;
  typeError := typeError env;
  PLUGINS_DIR := PLUGINS_DIR env;
  OUTPUT_FILE := OUTPUT_FILE env
|}.

(** The world [env] where no file can be written. *)
Definition read_only (env : Env) : Env := {|
  readFileSync := readFileSync env;
  readdirSync := readdirSync env;
  fetch := fetch env;
  writeFileSync := fun _ _ => Throw "EACCES: permission denied";
  JSON_parse := JSON_parse env;
  toISOString := toISOString env;
  localeCompare := localeCompare env;
  typeError := typeError env;
  PLUGINS_DIR := PLUGINS_DIR env;
  OUTPUT_FILE := OUTPUT_FILE env
|}.

(** The repository of Example 1 with its files on the branch [master]. *)
Definition on_master : Env :=
  world [("plugins/com.a.b.json", submission_text)]
        [("plugins", ["com.a.b.json"])]
        [("https://raw.githubusercontent.com/a/b/master/manifest.json",
          manifest_text);
         ("https://raw.githubusercontent.com/a/b/master/main.js", main_js)]
        [(submission_text, submission_value);
         (manifest_text, manifest_value)].

(** The same, while the connection fails for every request to the branch
    [main]. *)
Definition main_out_of_reach : Env :=
  with_fetch on_master
    (fun u =>
       if prefix "https://raw.githubusercontent.com/a/b/main/" u
       then Throw "fetch failed"
       else fetch on_master u).

(** A repository whose manifest names another plugin and has optional
    fields, one of them empty. *)
Definition detailed_manifest_text : string :=
  json "{'id':'org.other.plugin','name':'Other','version':'2.0.0','minAppVersion':'2.0.0','author':'O','description':'o','main':'main.js','permissions':[],'helpUrl':'https://other.example/help','fundingUrl':'','tags':['time'],'category':'tools'}".

Definition detailed_manifest_value : value :=
  VObj [("id", VStr "org.other.plugin"); ("name", VStr "Other");
        ("version", VStr "2.0.0"); ("minAppVersion", VStr "2.0.0");
        ("author", VStr "O"); ("description", VStr "o");
        ("main", VStr "main.js"); ("permissions", VArr []);
        ("helpUrl", VStr "https://other.example/help");
        ("fundingUrl", VStr EmptyString); ("tags", VArr [VStr "time"]);
        ("category", VStr "tools")].

Definition detailed : Env :=
  world [("plugins/com.a.b.json", submission_text)]
        [("plugins", ["com.a.b.json"])]
        [("https://raw.githubusercontent.com/a/b/main/manifest.json",
          detailed_manifest_text)]
        [(submission_text, submission_value);
         (detailed_manifest_text, detailed_manifest_value)].

(** The entry that the builder is to make of it for the submission of
    Example 1. *)
Definition detailed_entry : value :=
  VObj [("id", VStr "org.other.plugin"); ("name", VStr "Other");
        ("description", VStr "o"); ("author", VStr "O");
        ("version", VStr "2.0.0"); ("minAppVersion", VStr "2.0.0");
        ("repo", VStr "https://github.com/a/b"); ("permissions", VArr []);
        ("helpUrl", VStr "https://other.example/help");
        ("tags", VArr [VStr "time"]); ("category", VStr "tools");
        ("updatedAt", VStr "2024-01-01T00:00:00.000Z")].

(** A stand-in for [path.basename(p, suffix)]. *)
Definition keep_path (p suffix : string) : string := p.

End Examples.

(* ================================================================== *)
(** * Proofs *)
(* ================================================================== *)

Import JS Runtime Validate Spec Examples.
Local Open Scope js_scope.

(** ** The matcher is sound and complete for [Match] *)

Lemma repeat_sound A (body : mstate -> (mstate -> option A) -> option A)
  (r : regex) (k : mstate -> option A) (x : A) :
  (forall st k' y, body st k' = Some y ->
     exists st', Match r st st' /\ k' st' = Some y) ->
  forall n st, repeat body k n st = Some x ->
    exists st', Match (Star r) st st' /\ k st' = Some x.
Proof.
  intros Hbody n. induction n as [|n IH]; intros st H; simpl in H.
  - exists st. split; [constructor | exact H].
  - destruct (body st _) as [y|] eqn:E.
    + inversion H; subst y; clear H.
      apply Hbody in E. destruct E as [st1 [M1 K1]].
      destruct (String.length (rest st1) <? String.length (rest st))%nat eqn:L;
        [|discriminate].
      apply Nat.ltb_lt in L.
      destruct (IH _ K1) as [st2 [M2 K2]].
      exists st2. split; [eapply MStarS; eauto | exact K2].
    + exists st. split; [constructor | exact H].
Qed.

Lemma m_sound A (r : regex) :
  forall st (k : mstate -> option A) x,
    m r st k = Some x -> exists st', Match r st st' /\ k st' = Some x.
Proof.
  induction r; intros st k x H; simpl in H.
  - destruct st as [b s cs]; simpl in H.
    destruct s as [|c s']; [discriminate|].
    destruct (p c) eqn:P; [|discriminate].
    eexists. split; [constructor; exact P | exact H].
  - exists st. split; [constructor | exact H].
  - apply IHr1 in H. destruct H as [st1 [M1 H]].
    apply IHr2 in H. destruct H as [st2 [M2 H]].
    exists st2. split; [econstructor; eauto | exact H].
  - destruct (m r1 st k) as [y|] eqn:E.
    + inversion H; subst y. apply IHr1 in E. destruct E as [st' [M1 K1]].
      exists st'. split; [apply MAltL; exact M1 | exact K1].
    + apply IHr2 in H. destruct H as [st' [M2 K2]].
      exists st'. split; [apply MAltR; exact M2 | exact K2].
  - eapply repeat_sound; [|exact H]. intros; eauto.
  - apply IHr in H. destruct H as [st1 [M1 K1]].
    eexists. split; [constructor; exact M1 | exact K1].
  - destruct (before st) eqn:B; [discriminate|].
    exists st. split; [constructor; exact B | exact H].
  - destruct (rest st) eqn:R; [|discriminate].
    exists st. split; [constructor; exact R | exact H].
  - destruct (xorb _ _) eqn:X; [|discriminate].
    exists st. split; [constructor; exact X | exact H].
Qed.

Lemma repeat_complete A (body : mstate -> (mstate -> option A) -> option A)
  (r : regex) (k : mstate -> option A) :
  (forall st st', Match r st st' ->
     forall k', k' st' <> None -> body st k' <> None) ->
  forall n st st',
    Match (Star r) st st' -> (String.length (rest st) <= n)%nat ->
    k st' <> None -> repeat body k n st <> None.
Proof.
  intros Hbody n. induction n as [|n IH]; intros st st' HM Hn Hk; simpl.
  - inversion HM; subst; [exact Hk | lia].
  - inversion HM; subst.
    + destruct (body st' _); [discriminate | exact Hk].
    + match goal with
      | H1 : Match r st ?s1, H2 : Match (Star r) ?s1 st' |- _ =>
          specialize (Hbody _ _ H1
            (fun st1 =>
               if (String.length (rest st1) <? String.length (rest st))%nat
               then repeat body k n st1 else None));
          pose proof (IH _ _ H2) as IH2
      end.
      destruct (body st _); [discriminate|].
      exfalso. apply Hbody; [|reflexivity].
      match goal with
      | H : (_ < _)%nat |- _ =>
          pose proof H as L; apply Nat.ltb_lt in H; rewrite H
      end.
      apply IH2; [lia | exact Hk].
Qed.

Lemma m_complete A (r : regex) :
  forall st st', Match r st st' ->
    forall k : mstate -> option A, k st' <> None -> m r st k <> None.
Proof.
  induction r; intros st st' HM k Hk; simpl.
  - inversion HM; subst; simpl.
    match goal with H : p _ = true |- _ => rewrite H end. exact Hk.
  - inversion HM; subst. exact Hk.
  - inversion HM; subst. eapply IHr1; eauto.
  - inversion HM; subst.
    + destruct (m r1 st k) eqn:E; [discriminate|].
      exfalso. eapply IHr1; eauto.
    + destruct (m r1 st k); [discriminate|]. eapply IHr2; eauto.
  - eapply repeat_complete; eauto.
  - inversion HM; subst. eapply IHr; eauto.
  - inversion HM; subst.
    match goal with H : before _ = None |- _ => rewrite H end. exact Hk.
  - inversion HM; subst.
    match goal with H : rest _ = _ |- _ => rewrite H end. exact Hk.
  - inversion HM; subst.
    match goal with H : xorb _ _ = true |- _ => rewrite H end. exact Hk.
Qed.

(** *** What a match of a character class, a literal or their repetition
    looks like on the input *)

Lemma Match_Chr_inv p st st' :
  Match (Chr p) st st' ->
  exists c s, rest st = String c s /\ p c = true /\
              st' = MState (Some c) s (caps st).
Proof. intros H. inversion H; subst. simpl. eauto. Qed.

Lemma Match_Seq_inv r1 r2 st st' :
  Match (Seq r1 r2) st st' ->
  exists st1, Match r1 st st1 /\ Match r2 st1 st'.
Proof. intros H. inversion H; subst. eauto. Qed.

Lemma Match_Alt_inv r1 r2 st st' :
  Match (Alt r1 r2) st st' -> Match r1 st st' \/ Match r2 st st'.
Proof. intros H. inversion H; subst; auto. Qed.

Lemma Match_Eps_inv st st' : Match Eps st st' -> st' = st.
Proof. intros H. inversion H; subst; auto. Qed.

Lemma Match_Bol_inv st st' : Match Bol st st' -> before st = None /\ st' = st.
Proof. intros H. inversion H; subst; auto. Qed.

Lemma Match_Eol_inv st st' :
  Match Eol st st' -> rest st = EmptyString /\ st' = st.
Proof. intros H. inversion H; subst; auto. Qed.

Lemma Match_Group_inv i r st st' :
  Match (Group i r) st st' ->
  exists st1, Match r st st1 /\ st' = set_cap i (consumed st st1) st1.
Proof. intros H. inversion H; subst. eauto. Qed.

Lemma Match_star_chr_inv p st st' :
  Match (Star (Chr p)) st st' ->
  exists w, all p w = true /\ rest st = w ++ rest st' /\
            before st' = last_of (before st) w /\ caps st' = caps st.
Proof.
  intros H. remember (Star (Chr p)) as r eqn:Er.
  induction H; try discriminate.
  - exists EmptyString. simpl. auto.
  - inversion Er; subst r. clear IHMatch1.
    specialize (IHMatch2 eq_refl).
    destruct IHMatch2 as [w [Hall [Hrest [Hbef Hcaps]]]].
    apply Match_Chr_inv in H. destruct H as [c [s [R [P E]]]].
    subst st1. simpl in *.
    exists (String c w). simpl. rewrite P, Hall, R, Hrest. auto.
Qed.

Lemma Match_star_chr_intro p w : forall b s cs,
  all p w = true ->
  Match (Star (Chr p)) (MState b (w ++ s) cs) (MState (last_of b w) s cs).
Proof.
  induction w as [|c w IH]; intros b s cs H; simpl in *.
  - constructor.
  - apply andb_true_iff in H. destruct H as [P H].
    eapply MStarS.
    + constructor. exact P.
    + simpl. lia.
    + apply IH. exact H.
Qed.

Lemma Match_plus_chr_inv p st st' :
  Match (Plus (Chr p)) st st' ->
  exists w, w <> EmptyString /\ all p w = true /\ rest st = w ++ rest st' /\
            before st' = last_of (before st) w /\ caps st' = caps st.
Proof.
  intros H. apply Match_Seq_inv in H. destruct H as [st1 [H1 H2]].
  apply Match_Chr_inv in H1. destruct H1 as [c [s [R [P E]]]]. subst st1.
  apply Match_star_chr_inv in H2. simpl in H2.
  destruct H2 as [w [Hall [Hrest [Hbef Hcaps]]]].
  exists (String c w). simpl. rewrite P, Hall, R, Hrest.
  repeat split; auto. discriminate.
Qed.

Lemma Match_plus_chr_intro p w b s cs :
  w <> EmptyString -> all p w = true ->
  Match (Plus (Chr p)) (MState b (w ++ s) cs) (MState (last_of b w) s cs).
Proof.
  destruct w as [|c w]; [congruence|]. intros _ H. simpl in *.
  apply andb_true_iff in H. destruct H as [P H].
  eapply MSeq; [constructor; exact P | apply Match_star_chr_intro; exact H].
Qed.

Lemma is_char_true x c : is_char x c = true <-> c = x.
Proof. unfold is_char. apply Ascii.eqb_eq. Qed.

Lemma Match_Lit_inv t : forall st st',
  Match (Lit t) st st' ->
  rest st = t ++ rest st' /\ before st' = last_of (before st) t /\
  caps st' = caps st.
Proof.
  induction t as [|c t IH]; intros st st' H; simpl in H.
  - apply Match_Eps_inv in H. subst. auto.
  - apply Match_Seq_inv in H. destruct H as [st1 [H1 H2]].
    apply Match_Chr_inv in H1. destruct H1 as [c' [s [R [P E]]]]. subst st1.
    apply is_char_true in P. subst c'.
    apply IH in H2. simpl in *. destruct H2 as [R2 [B2 C2]].
    rewrite R, R2. auto.
Qed.

Lemma Match_Lit_intro t : forall b s cs,
  Match (Lit t) (MState b (t ++ s) cs) (MState (last_of b t) s cs).
Proof.
  induction t as [|c t IH]; intros b s cs; simpl.
  - constructor.
  - eapply MSeq; [constructor; apply is_char_true; reflexivity | apply IH].
Qed.

Lemma test_at_start r :
  (forall c s, m r (MState (Some c) s []) (fun st => Some st) = None) ->
  forall s, test r s = true <-> exists st', Match r (start s) st'.
Proof.
  intros Hlater s.
  assert (L : forall s c i, exec_from r (Some c) s i = None).
  { induction s0 as [|c' s' IH]; intros c i; simpl; rewrite Hlater; auto. }
  unfold test, exec.
  destruct s as [|c s']; simpl.
  - destruct (m r (MState None EmptyString []) (fun st => Some st)) as [st|] eqn:E.
    + split; [intros _|reflexivity].
      apply m_sound in E. destruct E as [st' [HM _]]. exists st'. exact HM.
    + split; [discriminate|]. intros [st' HM]. exfalso.
      eapply (@m_complete _ _ _ _ HM (fun st => Some st)); [discriminate | exact E].
  - destruct (m r (MState None (String c s') []) (fun st => Some st))
      as [st|] eqn:E.
    + split; [intros _|reflexivity].
      apply m_sound in E. destruct E as [st' [HM _]]. exists st'. exact HM.
    + rewrite L. split; [discriminate|]. intros [st' HM]. exfalso.
      eapply (@m_complete _ _ _ _ HM (fun st => Some st)); [discriminate | exact E].
Qed.

(** ** Identifiers and versions *)

Ltac each_ascii c := destruct c as [[] [] [] [] [] [] [] []].

Lemma lower_alnum_spec c : lower_alnum c = az09 c.
Proof. each_ascii c; reflexivity. Qed.

Lemma lower_alnum_hyphen_spec c : lower_alnum_hyphen c = az09h c.
Proof. each_ascii c; reflexivity. Qed.

Lemma all_ext p q s : (forall c, p c = q c) -> all p s = all q s.
Proof. intros E. induction s; simpl; [reflexivity|]. rewrite E, IHs. reflexivity. Qed.

Ltac inv_match :=
  repeat match goal with
  | H : Match (Plus (Chr _)) _ _ |- _ =>
      apply Match_plus_chr_inv in H; destruct H as [? [? [? [? [? ?]]]]]
  | H : Match (Lit _) _ _ |- _ =>
      apply Match_Lit_inv in H; destruct H as [? [? ?]]
  | H : Match (Star (Chr _)) _ _ |- _ =>
      apply Match_star_chr_inv in H; destruct H as [? [? [? [? ?]]]]
  | H : Match (Seq _ _) _ _ |- _ =>
      apply Match_Seq_inv in H; destruct H as [? [? ?]]
  | H : Match (Chr _) _ _ |- _ =>
      apply Match_Chr_inv in H; destruct H as [? [? [? [? ?]]]]; subst
  | H : Match Bol _ _ |- _ => apply Match_Bol_inv in H; destruct H as [? ?]; subst
  | H : Match Eol _ _ |- _ => apply Match_Eol_inv in H; destruct H as [? ?]; subst
  | H : Match Eps _ _ |- _ => apply Match_Eps_inv in H; subst
  | H : Match (Group _ _) _ _ |- _ =>
      apply Match_Group_inv in H; destruct H as [? [? ?]]; subst
  end.

Lemma partPattern_test p : test partPattern p = true <-> identifier_part p.
Proof.
  rewrite test_at_start by (intros; reflexivity).
  unfold identifier_part. split.
  - intros [st' H]. unfold partPattern in H.
    apply Match_Alt_inv in H. destruct H as [H|H]; inv_match; simpl in *.
    + right. subst. 
      match goal with H : _ = String _ _ |- _ => rewrite H in * end.
      rewrite lower_alnum_spec in *.
      do 3 eexists. split; [reflexivity|].
      erewrite <- all_ext by apply lower_alnum_hyphen_spec. auto.
    + left. subst. rewrite lower_alnum_spec in *. eauto.
  - intros [[c [E P]]|[c1 [mid [c2 [E [P1 [Pm P2]]]]]]]; subst p.
    + eexists. apply MAltR. unfold start.
      eapply MSeq; [constructor; reflexivity|].
      eapply MSeq; [constructor; rewrite lower_alnum_spec; exact P|].
      constructor. reflexivity.
    + eexists. apply MAltL. unfold start.
      eapply MSeq; [constructor; reflexivity|].
      eapply MSeq; [constructor; rewrite lower_alnum_spec; exact P1|].
      eapply MSeq; [apply Match_star_chr_intro;
                    erewrite all_ext by apply lower_alnum_hyphen_spec; exact Pm|].
      eapply MSeq; [constructor; rewrite lower_alnum_spec; exact P2|].
      constructor. reflexivity.
Qed.

Lemma split_nonempty sep s : split sep s <> [].
Proof.
  destruct s as [|c s]; simpl; [discriminate|].
  destruct (Ascii.eqb c sep); [discriminate|].
  destruct (split sep s); discriminate.
Qed.

Lemma join_cons sep p q ps : join sep (p :: q :: ps) = p ++ sep ++ join sep (q :: ps).
Proof. reflexivity. Qed.

Lemma join_String sep c p ps :
  join sep (String c p :: ps) = String c (join sep (p :: ps)).
Proof. destruct ps; reflexivity. Qed.

Lemma join_split s : join "." (split "." s) = s.
Proof.
  induction s as [|c s IH]; simpl; [reflexivity|].
  pose proof (split_nonempty "." s) as N.
  destruct (Ascii.eqb c ".") eqn:E.
  - apply Ascii.eqb_eq in E. subst c.
    destruct (split "." s) as [|q qs]; [congruence|].
    rewrite join_cons. rewrite IH. reflexivity.
  - destruct (split "." s) as [|q qs]; [congruence|].
    rewrite join_String, IH. reflexivity.
Qed.

Lemma split_no_dot p : no_dot p = true -> split "." p = [p].
Proof.
  induction p as [|c p IH]; simpl; [reflexivity|].
  intros H. apply andb_true_iff in H. destruct H as [Hc Hp].
  apply negb_true_iff in Hc. rewrite Hc. rewrite (IH Hp). reflexivity.
Qed.

Lemma split_app_dot p s :
  no_dot p = true -> split "." (p ++ String "." s) = p :: split "." s.
Proof.
  induction p as [|c p IH]; simpl; [reflexivity|].
  intros H. apply andb_true_iff in H. destruct H as [Hc Hp].
  apply negb_true_iff in Hc. rewrite Hc. rewrite (IH Hp). reflexivity.
Qed.

Lemma split_join parts :
  parts <> [] -> Forall (fun p => no_dot p = true) parts ->
  split "." (join "." parts) = parts.
Proof.
  induction parts as [|p ps IH]; [congruence|]. intros _ H.
  inversion H; subst.
  destruct ps as [|q qs].
  - simpl. apply split_no_dot. assumption.
  - rewrite join_cons.
    change ("." ++ join "." (q :: qs)) with (String "." (join "." (q :: qs))).
    rewrite split_app_dot by assumption.
    rewrite IH; [reflexivity | discriminate | assumption].
Qed.

Lemma all_app p s t : all p (s ++ t) = all p s && all p t.
Proof. induction s; simpl; [reflexivity|]. rewrite IHs. apply andb_assoc. Qed.

Lemma all_weaken (p q : ascii -> bool) s :
  (forall c, p c = true -> q c = true) -> all p s = true -> all q s = true.
Proof.
  intros W. induction s; simpl; [auto|]. intros H.
  apply andb_true_iff in H. destruct H. rewrite W, IHs; auto.
Qed.

Lemma az09_az09h c : az09 c = true -> az09h c = true.
Proof. each_ascii c; vm_compute; auto. Qed.

Lemma az09h_no_dot c : az09h c = true -> negb (Ascii.eqb c ".") = true.
Proof. each_ascii c; vm_compute; auto. Qed.

Lemma identifier_part_chars p : identifier_part p -> all az09h p = true.
Proof.
  intros [[c [E P]]|[c1 [mid [c2 [E [P1 [Pm P2]]]]]]]; subst p; simpl.
  - rewrite az09_az09h; auto.
  - rewrite all_app. simpl. rewrite Pm, !az09_az09h; auto.
Qed.

Lemma identifier_part_no_dot p : identifier_part p -> no_dot p = true.
Proof.
  intros H. apply identifier_part_chars in H.
  unfold no_dot. eapply all_weaken; [|exact H]. apply az09h_no_dot.
Qed.

Lemma forallb_test_parts parts :
  forallb (test partPattern) parts = true <-> Forall identifier_part parts.
Proof.
  rewrite forallb_forall, Forall_forall.
  split; intros H p Hp; apply partPattern_test; auto.
Qed.

Lemma az09h_not_upper c : az09h c = true -> negb (is_upper c) = true.
Proof. each_ascii c; vm_compute; auto. Qed.

Lemma az09_not_hyphen c : az09 c = true -> Ascii.eqb c "-" = false.
Proof. each_ascii c; vm_compute; auto. Qed.

Lemma substring_at_end s c :
  substring (String.length s) 1 (s ++ String c EmptyString) =
  String c EmptyString.
Proof. induction s as [|a s IH]; simpl; [reflexivity | exact IH]. Qed.

Lemma length_snoc s c :
  String.length (s ++ String c EmptyString) = S (String.length s).
Proof. induction s as [|a s IH]; simpl; [reflexivity | rewrite IH; reflexivity]. Qed.

Lemma endsWith_snoc s c :
  endsWith "-" (s ++ String c EmptyString) = Ascii.eqb c "-".
Proof.
  unfold endsWith. rewrite length_snoc.
  change (String.length "-") with 1%nat.
  replace (S (String.length s) - 1)%nat with (String.length s) by lia.
  rewrite substring_at_end. simpl. apply andb_true_r.
Qed.

Lemma identifier_part_shape p :
  identifier_part p ->
  p <> EmptyString /\ all (fun c => negb (is_upper c)) p = true /\
  prefix "-" p = false /\ endsWith "-" p = false.
Proof.
  intros H. pose proof (identifier_part_chars p H) as A.
  split; [|split; [|split]].
  - destruct H as [[c [E _]]|[c1 [mid [c2 [E _]]]]]; subst p; discriminate.
  - eapply all_weaken; [|exact A]. apply az09h_not_upper.
  - assert (X : forall c t, Ascii.eqb c "-" = false ->
                            prefix "-" (String c t) = false).
    { intros c t Hc.
      change (prefix "-" (String c t))
        with (if ascii_dec "-" c then prefix EmptyString t else false).
      destruct (ascii_dec "-" c) as [Ec|Nc].
      - subst c. discriminate.
      - reflexivity. }
    destruct H as [[c [E P]]|[c1 [mid [c2 [E [P _]]]]]]; subst p;
      apply X, az09_not_hyphen, P.
  - destruct H as [[c [E P]]|[c1 [mid [c2 [E [_ [_ P]]]]]]]; subst p;
      apply az09_not_hyphen in P.
    + change (String c EmptyString)
        with (EmptyString ++ String c EmptyString).
      rewrite endsWith_snoc. exact P.
    + change (String c1 (mid ++ String c2 EmptyString))
        with (String c1 mid ++ String c2 EmptyString).
      rewrite endsWith_snoc. exact P.
Qed.

(** Claim C7.  For every string [i], [isValidPluginId] accepts [i] if and only
    if [i] is the join with [.] of at least two parts, each of which matches
    [[a-z0-9][a-z0-9-]*[a-z0-9]] or is a single [[a-z0-9]]; so an accepted
    identifier has no empty segment, no uppercase letter, and no segment that
    begins or ends with a hyphen. *)
Theorem isValidPluginId_spec (env : Env) (i : string) (tr : list event) :
  exists b : bool,
    isValidPluginId env (VStr i) tr = (Ret b, tr) /\
    (b = true <->
     exists parts, i = join "." parts /\ (2 <= List.length parts)%nat /\
                   Forall identifier_part parts) /\
    (b = true ->
     forall p, In p (split "." i) ->
       p <> EmptyString /\ all (fun c => negb (is_upper c)) p = true /\
       prefix "-" p = false /\ endsWith "-" p = false).
Proof.
  unfold isValidPluginId, string_receiver, bind, ret.
  destruct (List.length (split "." i) <? 2)%nat eqn:L.
  - exists false. split; [reflexivity|]. split; [|discriminate].
    split; [discriminate|].
    intros [parts [E [N F]]]. exfalso.
    apply Nat.ltb_lt in L. subst i.
    rewrite split_join in L.
    + lia.
    + destruct parts; simpl in N; [lia | discriminate].
    + eapply Forall_impl; [|exact F]. apply identifier_part_no_dot.
  - eexists. split; [reflexivity|].
    apply Nat.ltb_ge in L. rewrite forallb_test_parts. split; [split|].
    + intros F. exists (split "." i). rewrite join_split. auto.
    + intros [parts [E [N F]]]. subst i. rewrite split_join; auto.
      * destruct parts; simpl in N; [lia | discriminate].
      * eapply Forall_impl; [|exact F]. apply identifier_part_no_dot.
    + intros F q Hq. apply identifier_part_shape.
      rewrite Forall_forall in F. apply F. exact Hq.
Qed.

Lemma is_digit_spec c : is_digit c = digit c.
Proof. each_ascii c; reflexivity. Qed.

Lemma suffix_char_spec c : suffix_char c = suffix_unit c.
Proof. each_ascii c; reflexivity. Qed.

Ltac inv_all :=
  repeat match goal with
  | H : Match (Alt _ _) _ _ |- _ => apply Match_Alt_inv in H; destruct H
  | _ => progress inv_match
  end.

Lemma append_empty_r s : s ++ EmptyString = s.
Proof. induction s; simpl; congruence. Qed.

Lemma all_digit w : all is_digit w = all digit w.
Proof. apply all_ext, is_digit_spec. Qed.

Lemma all_suffix w : all suffix_char w = all suffix_unit w.
Proof. apply all_ext, suffix_char_spec. Qed.

Lemma semver_test v : test semver v = true <-> semantic_version v.
Proof.
  rewrite test_at_start by (intros; reflexivity).
  split.
  - intros [st' H]. unfold semver, digits, Opt in H.
    inv_all; simpl in *.
    all: repeat match goal with
         | H : rest ?x = _ |- _ => rewrite H in *; clear H
         end.
    all: rewrite ?append_empty_r in *.
    all: rewrite ?all_digit, ?all_suffix in *.
    all: match goal with
         | H : _ = ?a ++ String "." (?b ++ String "." (?c ++
                     String "-" (?d ++ String "+" ?e))) |- _ =>
             exists a, b, c, (String "-" d), (String "+" e)
         | H : _ = ?a ++ String "." (?b ++ String "." (?c ++
                     String "-" ?d)) |- _ =>
             exists a, b, c, (String "-" d), EmptyString
         | H : _ = ?a ++ String "." (?b ++ String "." (?c ++
                     String "+" ?e)) |- _ =>
             exists a, b, c, EmptyString, (String "+" e)
         | H : _ = ?a ++ String "." (?b ++ String "." ?c) |- _ =>
             exists a, b, c, EmptyString, EmptyString
         end.
    all: unfold number, optional_suffix; simpl; rewrite ?append_empty_r.
    all: repeat split; eauto 6.
  - intros [major [minor [patch [pre [build [E [[N1 D1] [[N2 D2] [[N3 D3]
             [Hpre Hbuild]]]]]]]]]].
    rewrite <- all_digit in D1, D2, D3.
    assert (P : forall sign t i b s cs,
               optional_suffix sign t ->
               exists st1,
                 Match (Opt (Group i (Seq (Lit (String sign EmptyString))
                                          (Plus (Chr suffix_char)))))
                       (MState b (t ++ s) cs) st1 /\ rest st1 = s).
    { intros sign t i b s cs [Et|[w [Et [Nw Aw]]]]; subst t.
      - eexists. split; [apply MAltR; constructor | reflexivity].
      - rewrite <- all_suffix in Aw. eexists. split.
        + apply MAltL. constructor.
          eapply MSeq;
            [apply (Match_Lit_intro (String sign EmptyString) b (w ++ s) cs)|].
          apply Match_plus_chr_intro; assumption.
        + reflexivity. }
    subst v. unfold start, semver, digits.
    destruct (P "-"%char pre 1%nat (last_of (Some "."%char) patch)
                (build ++ EmptyString) [] Hpre) as [st1 [M1 R1]].
    destruct st1 as [b1 s1 cs1]. simpl in R1. subst s1.
    destruct (P "+"%char build 2%nat b1 EmptyString cs1 Hbuild) as [st2 [M2 R2]].
    exists st2.
    eapply MSeq; [constructor; reflexivity|].
    eapply MSeq; [apply Match_plus_chr_intro; assumption|].
    eapply MSeq; [apply (Match_Lit_intro ".")|].
    eapply MSeq; [apply Match_plus_chr_intro; assumption|].
    eapply MSeq; [apply (Match_Lit_intro ".")|].
    rewrite <- (append_empty_r build) at 1.
    eapply MSeq; [apply Match_plus_chr_intro; assumption|].
    eapply MSeq; [exact M1|].
    eapply MSeq; [exact M2|].
    constructor. exact R2.
Qed.

(** Claim C9.  For every string [v], [isValidSemver] accepts [v] if and only if
    [v] is MAJOR.MINOR.PATCH with three non-empty runs of digits, optionally
    followed by a [-] pre-release suffix and then optionally by a [+]
    build-metadata suffix (each a sign and one or more of [[a-zA-Z0-9.-]]),
    and nothing else. *)
Theorem isValidSemver_spec (env : Env) (v : string) (tr : list event) :
  exists b : bool,
    isValidSemver env (VStr v) tr = (Ret b, tr) /\
    (b = true <-> semantic_version v).
Proof.
  exists (test semver v). split; [reflexivity | apply semver_test].
Qed.

(** ** The result flag, and fetching with one fallback *)

Lemma passed_apply_all ops : forall r,
  passed (apply_all ops r) = passed r && forallb (fun op => negb (failing op)) ops.
Proof.
  induction ops as [|op ops IH]; intros r; simpl.
  - rewrite andb_true_r. reflexivity.
  - unfold apply_all in IH. rewrite IH.
    destruct op as [n [] d|w|e]; simpl; rewrite ?andb_false_r; auto.
Qed.

(** Claim C2.  After any sequence of addCheck, addWarning and addError on a
    new ValidationResult the flag is false if and only if some check of the
    sequence failed or some error was added; addWarning never changes the
    flag; and once the flag is false no later operation makes it true. *)
Theorem passed_flag (id : value) (ops : list operation) :
  (passed (apply_all ops (new_ValidationResult id)) = false <->
   exists op, In op ops /\ failing op = true) /\
  (forall r w, passed (addWarning w r) = passed r) /\
  (forall r later, passed r = false -> passed (apply_all later r) = false).
Proof.
  split; [|split].
  - rewrite passed_apply_all. simpl. split.
    + intros H. 
      destruct (forallb _ ops) eqn:F; [discriminate|].
      clear H. induction ops as [|op ops IH]; simpl in F; [discriminate|].
      apply andb_false_iff in F. destruct F as [F|F].
      * exists op. split; [left; reflexivity|].
        apply negb_false_iff in F. exact F.
      * destruct (IH F) as [op' [I Fo]]. exists op'. split; [right|]; assumption.
    + intros [op [I F]].
      destruct (forallb _ ops) eqn:A; [|reflexivity].
      rewrite forallb_forall in A. specialize (A op I). rewrite F in A. discriminate.
  - reflexivity.
  - intros r later H. rewrite passed_apply_all, H. reflexivity.
Qed.

(** The last part at work: an error, then a passed check and a warning. *)
Lemma passed_flag_witness :
  passed (addError "e" (new_ValidationResult VNull)) = false /\
  passed (apply_all [AddCheck "c" true VNull; AddWarning "w"]
                    (addError "e" (new_ValidationResult VNull))) = false.
Proof.
  split; [reflexivity|].
  apply (proj2 (proj2 (passed_flag VNull []))). reflexivity.
Defined.

Lemma parseGitHubUrl_same env url : Build.parseGitHubUrl env url = Validate.parseGitHubUrl env url.
Proof. reflexivity. Qed.

(** The addresses that the two scripts build. *)
Lemma rawUrl_raw_file owner repo branch path :
  rawUrl owner repo branch path = raw_file owner repo branch path.
Proof. reflexivity. Qed.

Lemma rawUrl_same owner repo branch :
  Build.rawUrl owner repo branch = raw_file owner repo branch "manifest.json".
Proof. reflexivity. Qed.

Lemma parseGitHubUrl_pure env u tr0 tr o :
  parseGitHubUrl env (VStr u) tr0 = (Ret o, tr0) ->
  parseGitHubUrl env (VStr u) tr = (Ret o, tr).
Proof.
  unfold parseGitHubUrl, string_receiver, bind, ret.
  destruct (exec github_url u) as [[i st]|]; [|congruence].
  destruct (cap 1 (caps st)); [destruct (cap 2 (caps st))|]; congruence.
Qed.

Section Fetch.
Variable env : Env.
Variables (url owner repo : string).
Hypothesis Hparse : parseGitHubUrl env (VStr url) [] = (Ret (Some (owner, repo)), []).

Lemma fetchFromGitHub_step path branch tr :
  fetchFromGitHub env (VStr url) (VStr path) branch tr =
  match fetch env (raw_file owner repo branch path) with
  | Throw e => (Throw e, (tr ++ [Fetch (raw_file owner repo branch path)])%list)
  | Ret r =>
      if ok r then (Ret (body r), (tr ++ [Fetch (raw_file owner repo branch path)])%list)
      else if string_dec branch "main"
           then fetchFromGitHub env (VStr url) (VStr path) "master"
                  ((tr ++ [Fetch (raw_file owner repo branch path)])%list)
           else (Throw ("Failed to fetch " ++ path ++ ": " ++ string_of_Z (status r)),
                 (tr ++ [Fetch (raw_file owner repo branch path)])%list)
  end.
Proof.
  rewrite fetchFromGitHub_equation_1.
  unfold bind at 1. rewrite (@parseGitHubUrl_pure env url [] tr _ Hparse).
  unfold toStringM, bind, call, ret, throw; simpl.
  rewrite ?rawUrl_raw_file, ?rawUrl_same.
  destruct (fetch env (raw_file owner repo branch path)) as [r|e]; [|reflexivity].
  destruct (ok r); simpl; [reflexivity|].
  destruct (string_dec branch "main"); reflexivity.
Qed.

Lemma fetchManifest_step branch tr :
  Build.fetchManifest env (VStr url) branch tr =
  match fetch env (raw_file owner repo branch "manifest.json") with
  | Throw e => (Throw e, (tr ++ [Fetch (raw_file owner repo branch "manifest.json")])%list)
  | Ret r =>
      if ok r then (JSON_parse env (body r), (tr ++ [Fetch (raw_file owner repo branch "manifest.json")])%list)
      else if string_dec branch "main"
           then Build.fetchManifest env (VStr url) "master"
                  ((tr ++ [Fetch (raw_file owner repo branch "manifest.json")])%list)
           else (Throw ("Failed to fetch manifest: " ++ string_of_Z (status r)),
                 (tr ++ [Fetch (raw_file owner repo branch "manifest.json")])%list)
  end.
Proof.
  rewrite Build.fetchManifest_equation_1.
  unfold bind at 1. rewrite parseGitHubUrl_same, (@parseGitHubUrl_pure env url [] tr _ Hparse).
  unfold toStringM, bind, call, ret, throw, lift; simpl.
  rewrite ?rawUrl_raw_file, ?rawUrl_same.
  destruct (fetch env (raw_file owner repo branch "manifest.json")) as [r|e]; [|reflexivity].
  destruct (ok r); simpl; [reflexivity|].
  destruct (string_dec branch "main"); reflexivity.
Qed.
End Fetch.

(** Claim C4, amended.  For a repository URL that parses, [fetchFromGitHub]
    and [fetchManifest] follow the policy of one fallback, the first for the
    address of the requested file and the second for the address of
    [manifest.json]: a response without success on [main] is followed by
    exactly one request to [master], whose answer decides; without success
    on another branch, or on [master] after [main], the failure carries the
    HTTP status; a rejected request is not followed by another and its
    failure is the rejection.  The traces show that no other request is
    made. *)
Theorem one_fallback_attempt (env : Env) (url owner repo path : string) :
  parseGitHubUrl env (VStr url) [] = (Ret (Some (owner, repo)), []) ->
  one_fallback env (fun branch => raw_file owner repo branch path)
    (failed_to_fetch path) (fun r => Ret (body r))
    (fetchFromGitHub env (VStr url) (VStr path)) /\
  one_fallback env (fun branch => raw_file owner repo branch "manifest.json")
    (failed_to_fetch "manifest") (fun r => JSON_parse env (body r))
    (Build.fetchManifest env (VStr url)).
Proof.
  intros Hparse. split; unfold one_fallback; repeat split.
  - intros branch r tr F K.
    rewrite (fetchFromGitHub_step _ _ _ _ Hparse), F, K. reflexivity.
  - intros r1 tr F1 K1.
    rewrite (fetchFromGitHub_step _ _ _ _ Hparse), F1, K1. simpl.
    rewrite (fetchFromGitHub_step _ _ _ _ Hparse), <- app_assoc. simpl.
    destruct (fetch env (raw_file owner repo "master" path)) as [r2|e];
      [|reflexivity].
    destruct (ok r2); reflexivity.
  - intros branch r tr Hb F K.
    rewrite (fetchFromGitHub_step _ _ _ _ Hparse), F, K.
    destruct (string_dec branch "main"); [contradiction | reflexivity].
  - intros branch e tr F.
    rewrite (fetchFromGitHub_step _ _ _ _ Hparse), F. reflexivity.
  - intros branch r tr F K.
    rewrite (fetchManifest_step _ _ _ _ Hparse), F, K. reflexivity.
  - intros r1 tr F1 K1.
    rewrite (fetchManifest_step _ _ _ _ Hparse), F1, K1. simpl.
    rewrite (fetchManifest_step _ _ _ _ Hparse), <- app_assoc. simpl.
    destruct (fetch env (raw_file owner repo "master" "manifest.json"))
      as [r2|e]; [|reflexivity].
    destruct (ok r2); reflexivity.
  - intros branch r tr Hb F K.
    rewrite (fetchManifest_step _ _ _ _ Hparse), F, K.
    destruct (string_dec branch "main"); [contradiction | reflexivity].
  - intros branch e tr F.
    rewrite (fetchManifest_step _ _ _ _ Hparse), F. reflexivity.
Qed.

(** Example 4, where both branches answer 404: two requests, then the
    failure with the status, in the validator and in the builder; and the
    repository that has its files on [master]: two requests, then the
    manifest. *)
Lemma one_fallback_attempt_witness :
  parseGitHubUrl example4 (VStr example_url) [] = (Ret (Some ("a", "b")), []) /\
  fetchFromGitHub example4 (VStr example_url) (VStr "manifest.json") "main" [] =
    (Throw "Failed to fetch manifest.json: 404",
     [Fetch "https://raw.githubusercontent.com/a/b/main/manifest.json";
      Fetch "https://raw.githubusercontent.com/a/b/master/manifest.json"]) /\
  Build.fetchManifest example4 (VStr example_url) "main" [] =
    (Throw "Failed to fetch manifest: 404",
     [Fetch "https://raw.githubusercontent.com/a/b/main/manifest.json";
      Fetch "https://raw.githubusercontent.com/a/b/master/manifest.json"]) /\
  fetchFromGitHub on_master (VStr example_url) (VStr "main.js") "main" [] =
    (Ret main_js,
     [Fetch "https://raw.githubusercontent.com/a/b/main/main.js";
      Fetch "https://raw.githubusercontent.com/a/b/master/main.js"]) /\
  Build.fetchManifest on_master (VStr example_url) "main" [] =
    (Ret manifest_value,
     [Fetch "https://raw.githubusercontent.com/a/b/main/manifest.json";
      Fetch "https://raw.githubusercontent.com/a/b/master/manifest.json"]).
Proof.
  assert (H : parseGitHubUrl example4 (VStr example_url) [] =
              (Ret (Some ("a", "b")), [])) by (vm_compute; reflexivity).
  assert (H' : parseGitHubUrl on_master (VStr example_url) [] =
               (Ret (Some ("a", "b")), [])) by (vm_compute; reflexivity).
  split; [exact H|].
  destruct (one_fallback_attempt example4 example_url "a" "b" "manifest.json" H)
    as [[_ [V _]] [_ [B _]]].
  destruct (one_fallback_attempt on_master example_url "a" "b" "main.js" H')
    as [[_ [V' _]] [_ [B' _]]].
  split; [exact (V (Response 404 "404: Not Found") [] eq_refl eq_refl)|].
  split; [exact (B (Response 404 "404: Not Found") [] eq_refl eq_refl)|].
  split; [exact (V' (Response 404 "404: Not Found") [] eq_refl eq_refl)|].
  exact (B' (Response 404 "404: Not Found") [] eq_refl eq_refl).
Defined.

(** Against the claim as it was written: the request to the branch [main]
    is rejected, so that the retrieval is not successful; the branch [master]
    would have answered, but no request is made to it, and the failure
    carries the message of the rejection and no HTTP status. *)
Lemma rejected_request_is_not_retried :
  fetch main_out_of_reach
    "https://raw.githubusercontent.com/a/b/main/manifest.json" =
    Throw "fetch failed" /\
  fetch main_out_of_reach
    "https://raw.githubusercontent.com/a/b/master/manifest.json" =
    Ret (Response 200 manifest_text) /\
  fetchFromGitHub main_out_of_reach (VStr example_url) (VStr "manifest.json")
    "main" [] =
    (Throw "fetch failed",
     [Fetch "https://raw.githubusercontent.com/a/b/main/manifest.json"]) /\
  Build.fetchManifest main_out_of_reach (VStr example_url) "main" [] =
    (Throw "fetch failed",
     [Fetch "https://raw.githubusercontent.com/a/b/main/manifest.json"]).
Proof.
  split; [reflexivity|]. split; [reflexivity|].
  split; vm_compute; reflexivity.
Qed.

(** ** The validator up to check 6 *)

Lemma bind_Ret A B (c : M A) (k : A -> M B) a tr tr' :
  c tr = (Ret a, tr') -> bind c k tr = k a tr'.
Proof. intros H. unfold bind. rewrite H. reflexivity. Qed.

Lemma bind_Throw A B (c : M A) (k : A -> M B) e tr tr' :
  c tr = (Throw e, tr') -> bind c k tr = (Throw e, tr').
Proof. intros H. unfold bind. rewrite H. reflexivity. Qed.

Lemma try_Ret A (c : M A) h a tr tr' :
  c tr = (Ret a, tr') -> try_catch c h tr = (Ret a, tr').
Proof. intros H. unfold try_catch. rewrite H. reflexivity. Qed.

Lemma try_Throw A (c : M A) h e tr tr' :
  c tr = (Throw e, tr') -> try_catch c h tr = h e tr'.
Proof. intros H. unfold try_catch. rewrite H. reflexivity. Qed.

Lemma readJSON_Ret env path content v tr :
  readFileSync env path = Ret content -> JSON_parse env content = Ret v ->
  readJSON env path tr = (Ret v, (tr ++ [ReadFile path])%list).
Proof.
  intros F P. unfold readJSON, bind, call, lift. rewrite F, P. reflexivity.
Qed.

Lemma get_present env v key tr :
  present v -> get env v key tr = (Ret (field v key), tr).
Proof. destruct v; simpl; intros H; try contradiction; reflexivity. Qed.

Lemma truthy_field_present v key : truthy (field v key) = true -> present v.
Proof. destruct v; simpl; try discriminate; auto. Qed.

Lemma missing_fields env v l : forall tr,
  present v ->
  filterM (fun f => x <- get env v f ;; ret (negb (truthy x))) l tr =
  (Ret (filter (fun f => negb (truthy (field v f))) l), tr).
Proof.
  intros tr P. revert tr.
  induction l as [|f l IH]; intros tr; simpl; [reflexivity|].
  unfold bind at 1. unfold bind at 1. rewrite (get_present env v f tr P).
  unfold ret at 1. unfold bind at 1. rewrite IH. reflexivity.
Qed.

Lemma no_missing_fields v l :
  (forall f, In f l -> truthy (field v f) = true) ->
  filter (fun f => negb (truthy (field v f))) l = [].
Proof.
  induction l as [|f l IH]; simpl; intros H; [reflexivity|].
  rewrite (H f (or_introl eq_refl)). simpl. apply IH. intros; apply H; auto.
Qed.

Lemma isValidPluginId_pure env id tr0 tr b :
  isValidPluginId env (VStr id) tr0 = (Ret b, tr0) ->
  isValidPluginId env (VStr id) tr = (Ret b, tr).
Proof.
  unfold isValidPluginId, string_receiver, bind, ret.
  destruct (List.length (split "." id) <? 2)%nat; congruence.
Qed.

Lemma checkDuplicate_loop_returns env id dir files : forall tr,
  exists b more,
    checkDuplicate_loop env id dir files tr = (Ret b, (tr ++ more)%list).
Proof.
  induction files as [|file files IH]; intros tr; simpl.
  - exists false, []. rewrite app_nil_r. reflexivity.
  - unfold bind at 1, try_catch.
    destruct ((content <- readJSON env (path_join dir file) ;;
               id0 <- get env content "id" ;; ret (strict_equal id0 id)) tr)
      as [[found|e] tr'] eqn:E.
    + assert (X : exists more, tr' = (tr ++ more)%list).
      { revert E. unfold bind, readJSON, call, lift, ret, bind.
        destruct (readFileSync env (path_join dir file)); [|discriminate].
        destruct (JSON_parse env a); [|discriminate].
        destruct (get env a0 "id" _) as [[x|x] t] eqn:G; [|discriminate].
        intros E. inversion E; subst.
        eexists.
        destruct a0; simpl in G; inversion G; reflexivity. }
      destruct X as [more1 ->].
      destruct found.
      * exists true, more1. reflexivity.
      * destruct (IH (tr ++ more1)%list) as [b [more2 H]].
        exists b, (more1 ++ more2)%list. rewrite app_assoc. exact H.
    + assert (X : exists more, tr' = (tr ++ more)%list).
      { revert E. unfold bind, readJSON, call, lift, ret, bind.
        destruct (readFileSync env (path_join dir file)).
        - destruct (JSON_parse env a).
          + destruct (get env a0 "id" _) as [[x|x] t] eqn:G; [discriminate|].
            intros E. inversion E; subst. eexists.
            destruct a0; simpl in G; inversion G; reflexivity.
          + intros E. inversion E; subst. eexists. reflexivity.
        - intros E. inversion E; subst. eexists. reflexivity. }
      destruct X as [more1 ->]. unfold ret at 1.
      destruct (IH (tr ++ more1)%list) as [b [more2 H]].
      exists b, (more1 ++ more2)%list. rewrite app_assoc. exact H.
Qed.

Lemma checkDuplicate_returns env id dir files tr :
  readdirSync env dir = Ret files ->
  exists b more,
    checkDuplicate env id dir tr = (Ret b, (tr ++ ReadDir dir :: more)%list).
Proof.
  intros H. unfold checkDuplicate, bind, call. rewrite H.
  destruct (checkDuplicate_loop_returns env id dir
              (filter (endsWith ".json") files) (tr ++ [ReadDir dir])%list)
    as [b [more E]].
  exists b, more. rewrite E. rewrite <- app_assoc. reflexivity.
Qed.

Lemma validatePlugin_accepted env path dir submission id files tr :
  accepted env path submission id ->
  readdirSync env dir = Ret files ->
  exists isDuplicate more,
    checkDuplicate env (VStr id) dir (tr ++ [ReadFile path])%list =
      (Ret isDuplicate, (tr ++ ReadFile path :: ReadDir dir :: more)%list) /\
    validatePlugin env path dir tr =
      checkRepo env submission (before_check6 path id isDuplicate)
                (tr ++ ReadFile path :: ReadDir dir :: more)%list.
Proof.
  intros [[content [Hfile Hparse]] Hfields Hid Hformat] Hdir.
  destruct (checkDuplicate_returns env (VStr id) dir files
              (tr ++ [ReadFile path])%list Hdir) as [dup [more D]].
  replace ((tr ++ [ReadFile path]) ++ ReadDir dir :: more)%list
    with (tr ++ ReadFile path :: ReadDir dir :: more)%list in D
    by (rewrite <- app_assoc; reflexivity).
  exists dup, more. split; [exact D|].
  assert (P : present submission).
  { apply (truthy_field_present submission "id"), Hfields. simpl. auto. }
  unfold validatePlugin.
  erewrite bind_Ret;
    [|apply try_Ret; erewrite bind_Ret;
      [reflexivity | apply (readJSON_Ret env path content submission tr Hfile Hparse)]].
  cbv beta iota.
  erewrite bind_Ret; [|apply missing_fields; exact P].
  rewrite (no_missing_fields submission _ Hfields).
  change (0 <? List.length (@nil string))%nat with false. cbv iota.
  erewrite bind_Ret; [|apply get_present; exact P]. rewrite Hid.
  erewrite bind_Ret; [|apply (isValidPluginId_pure env id [] _ true Hformat)].
  change (negb true) with false. cbv iota.
  erewrite bind_Ret; [|reflexivity].
  erewrite bind_Ret; [|exact D].
  unfold before_check6. destruct dup; reflexivity.
Qed.

(** ** The advisory checks and the later pieces of a validation *)

Lemma includes_VStr table s :
  includes table (VStr s) = existsb (String.eqb s) table.
Proof.
  unfold includes. induction table as [|t table IH]; simpl; [reflexivity|].
  rewrite <- IH, String.eqb_sym. reflexivity.
Qed.

Lemma includes_other table v :
  (forall s, v <> VStr s) -> includes table v = false.
Proof.
  intros H. unfold includes.
  induction table as [|t table IH]; [reflexivity|].
  cbn [existsb]. rewrite IH.
  destruct v; try reflexivity. exfalso. eapply H. reflexivity.
Qed.

Lemma filter_includes table items :
  filter (includes table) items = map VStr (strings_in table items).
Proof.
  induction items as [|v items IH]; simpl; [reflexivity|].
  destruct v; try (rewrite includes_other by discriminate; exact IH).
  rewrite includes_VStr. destruct (existsb (String.eqb s) table); simpl;
    rewrite IH; reflexivity.
Qed.

Lemma join_values_strings env sep l : forall tr,
  join_values env sep (map VStr l) tr = (Ret (join sep l), tr).
Proof.
  induction l as [|s l IH]; intros tr; [reflexivity|].
  destruct l as [|s' l]; [reflexivity|].
  change (join_values env sep (map VStr (s :: s' :: l)) tr)
    with (bind (join_values env sep (map VStr (s' :: l)))
               (fun t => ret (s ++ sep ++ t)) tr).
  unfold bind. rewrite IH. reflexivity.
Qed.

Lemma warnings_fold (f : ValidationResult -> regex * string -> ValidationResult)
  (P : string -> Prop) (l : list (regex * string)) :
  (forall r pn, exists ws, warnings (f r pn) = (warnings r ++ ws)%list /\
                           checks (f r pn) = checks r /\ Forall P ws) ->
  forall r, exists ws, warnings (fold_left f l r) = (warnings r ++ ws)%list /\
                       checks (fold_left f l r) = checks r /\ Forall P ws.
Proof.
  intros Hf. induction l as [|pn l IH]; intros r; simpl.
  - exists []. rewrite app_nil_r. auto.
  - destruct (Hf r pn) as [ws1 [W1 [C1 F1]]].
    destruct (IH (f r pn)) as [ws2 [W2 [C2 F2]]].
    exists (ws1 ++ ws2)%list. rewrite W2, W1, C2, C1, app_assoc.
    repeat split; auto. apply Forall_app; auto.
Qed.

Lemma scan_warnings mainJs r :
  exists ws, warnings (scan mainJs r) = (warnings r ++ ws)%list /\
             checks (scan mainJs r) = checks r /\ Forall harmless ws.
Proof.
  unfold scan.
  set (r0 := if (1024 * 1024 <? String.length mainJs)%nat
             then addWarning (size_warning mainJs) r else r).
  assert (H0 : exists ws, warnings r0 = (warnings r ++ ws)%list /\
                          checks r0 = checks r /\ Forall harmless ws).
  { subst r0. destruct (1024 * 1024 <? String.length mainJs)%nat.
    - exists [size_warning mainJs]. simpl. repeat split; auto.
      constructor; [reflexivity | constructor].
    - exists []. rewrite app_nil_r. auto. }
  destruct H0 as [ws0 [W0 [C0 F0]]].
  destruct (warnings_fold
              (fun result pn =>
                 if test (fst pn) mainJs
                 then addWarning (pattern_warning (snd pn)) result
                 else result) harmless DANGEROUS_PATTERNS) with (r := r0)
    as [ws [W [C F]]].
  { intros r1 pn. destruct (test (fst pn) mainJs).
    - exists [pattern_warning (snd pn)]. simpl. repeat split; auto.
      constructor; [reflexivity | constructor].
    - exists []. rewrite app_nil_r. auto. }
  exists (ws0 ++ ws)%list. rewrite W, W0, C, C0, app_assoc.
  repeat split; auto. apply Forall_app; auto.
Qed.

Lemma count_warning_harmless n : harmless (count_warning n).
Proof.
  unfold harmless, is_dangerous_warning, count_warning, string_of_Z.
  destruct (Z.of_nat n) as [|p|p]; simpl; try reflexivity;
    unfold NilZero.string_of_uint; destruct (Pos.to_uint p); reflexivity.
Qed.

Lemma bind_Ret_inv A B (c : M A) (k : A -> M B) tr b tr' :
  bind c k tr = (Ret b, tr') ->
  exists a tr1, c tr = (Ret a, tr1) /\ k a tr1 = (Ret b, tr').
Proof.
  unfold bind. destruct (c tr) as [[a|e] tr1]; [eauto | discriminate].
Qed.

Lemma ret_inv A (a b : A) tr tr' : ret a tr = (Ret b, tr') -> a = b /\ tr = tr'.
Proof. unfold ret. intros H. inversion H. auto. Qed.

Lemma advisories_run env submission manifest_ items result tr :
  present manifest_ ->
  field manifest_ "permissions" = VArr items ->
  exists result' tr' after extra,
    advisories env submission manifest_ result tr = (Ret result', tr') /\
    warnings result' =
      (warnings result ++ dangerous_warnings items ++ after)%list /\
    Forall harmless after /\
    checks result' = (checks result ++ extra)%list /\
    errors result' = errors result.
Proof.
  intros P Hperm. unfold advisories.
  erewrite bind_Ret; [|apply get_present; exact P]. rewrite Hperm.
  erewrite bind_Ret; [|reflexivity].
  rewrite filter_includes.
  set (result1 :=
         match strings_in DANGEROUS_PERMISSIONS items with
         | [] => result
         | l => addWarning (dangerous_warning (join "`, `" l)) result
         end).
  assert (W1 : warnings result1 = (warnings result ++ dangerous_warnings items)%list
               /\ checks result1 = checks result /\ errors result1 = errors result).
  { subst result1. unfold dangerous_warnings.
    destruct (strings_in DANGEROUS_PERMISSIONS items); simpl;
      rewrite ?app_nil_r; auto. }
  erewrite bind_Ret with (a := result1).
  2:{ subst result1. destruct (strings_in DANGEROUS_PERMISSIONS items) as [|s l] eqn:E.
      - reflexivity.
      - change (0 <? List.length (map VStr (s :: l)))%nat with true. cbv iota.
        erewrite bind_Ret; [|apply join_values_strings]. reflexivity. }
  clearbody result1. destruct W1 as [W1 [C1 E1]].
  erewrite bind_Ret; [|apply get_present; exact P].
  erewrite bind_Ret; [|apply get_present; exact P].
  cbv zeta.
  set (result2 := if negb (truthy (field manifest_ "helpUrl"))
                  then addWarning "Consider adding a `helpUrl` for documentation" result1
                  else result1).
  set (result3 := if negb (truthy (field manifest_ "category"))
                  then addWarning "Consider adding a `category` for better discoverability" result2
                  else result2).
  set (result4 := match length_of (VArr items) with
                  | Some n => if (5 <? n)%nat then addWarning (count_warning n) result3
                              else result3
                  | None => result3
                  end).
  assert (W4 : exists ws, warnings result4 = (warnings result1 ++ ws)%list /\
                          Forall harmless ws /\ checks result4 = checks result1 /\
                          errors result4 = errors result1).
  { assert (W2 : exists ws, warnings result2 = (warnings result1 ++ ws)%list /\
                            Forall harmless ws /\ checks result2 = checks result1 /\
                            errors result2 = errors result1).
    { subst result2. destruct (negb (truthy (field manifest_ "helpUrl"))).
      - eexists [_]. simpl. repeat split. constructor; [reflexivity|constructor].
      - exists []. rewrite app_nil_r. auto. }
    destruct W2 as [ws2 [W2 [F2 [C2 E2]]]].
    assert (W3 : exists ws, warnings result3 = (warnings result2 ++ ws)%list /\
                            Forall harmless ws /\ checks result3 = checks result2 /\
                            errors result3 = errors result2).
    { subst result3. destruct (negb (truthy (field manifest_ "category"))).
      - eexists [_]. simpl. repeat split. constructor; [reflexivity|constructor].
      - exists []. rewrite app_nil_r. auto. }
    destruct W3 as [ws3 [W3 [F3 [C3 E3]]]].
    assert (W4 : exists ws, warnings result4 = (warnings result3 ++ ws)%list /\
                            Forall harmless ws /\ checks result4 = checks result3 /\
                            errors result4 = errors result3).
    { subst result4. simpl length_of. cbv iota.
      destruct (5 <? List.length items)%nat.
      - eexists [_]. simpl. repeat split.
        constructor; [apply count_warning_harmless|constructor].
      - exists []. rewrite app_nil_r. auto. }
    destruct W4 as [ws4 [W4 [F4 [C4 E4]]]].
    exists (ws2 ++ ws3 ++ ws4)%list.
    rewrite W4, W3, W2, C4, C3, C2, E4, E3, E2, <- !app_assoc.
    repeat split; auto. repeat (apply Forall_app; split); auto. }
  clearbody result4. clear result2 result3.
  destruct W4 as [ws4 [W4 [F4 [C4 E4]]]].
  unfold try_catch.
  match goal with
  | |- context [ (let (o, tr') := ?c ?t in _) ] =>
      destruct (c t) as [[r|e] tr'] eqn:E
  end.
  - apply bind_Ret_inv in E. destruct E as [repo [t1 [_ E]]].
    apply bind_Ret_inv in E. destruct E as [main [t2 [_ E]]].
    apply bind_Ret_inv in E. destruct E as [mainJs [t3 [_ E]]].
    apply ret_inv in E. destruct E as [<- <-].
    destruct (scan_warnings mainJs result4) as [ws [Ws [Cs Fs]]].
    exists (scan mainJs result4), t3, (ws4 ++ ws)%list, [].
    rewrite Ws, Cs, W4, W1, C4, C1, <- !app_assoc, app_nil_r.
    repeat split; auto.
    + apply Forall_app; auto.
    + unfold scan.
      set (r0 := if (1024 * 1024 <? String.length mainJs)%nat
                 then addWarning (size_warning mainJs) result4 else result4).
      assert (E0 : errors r0 = errors result).
      { subst r0. destruct (1024 * 1024 <? String.length mainJs)%nat; simpl; congruence. }
      clearbody r0. revert r0 E0.
      induction DANGEROUS_PATTERNS as [|pn l IH]; intros r0 E0; simpl; [exact E0|].
      apply IH. destruct (test (fst pn) mainJs); simpl; exact E0.
  - eexists _, tr', ws4, [_].
    split; [reflexivity|]. simpl.
    rewrite W4, W1, C4, C1, <- !app_assoc. repeat split; auto. congruence.
Qed.






Ltac binv H :=
  apply bind_Ret_inv in H;
  let a := fresh "a" in let t := fresh "t" in let Ha := fresh "Ha" in
  destruct H as [a [t [Ha H]]].




Lemma fetchFromGitHub_unreachable env url file tr :
  unreachable env url file ->
  exists e more,
    fetchFromGitHub env (VStr url) (VStr file) "main" tr =
    (Throw e, (tr ++ more)%list) /\
    Forall (fun ev => exists branch owner repo,
                        ev = Fetch (raw_file owner repo branch file)) more.
Proof.
  intros [owner [repo [Hparse [R1 R2]]]].
  rewrite (fetchFromGitHub_step _ _ _ _ Hparse).
  destruct (fetch env (raw_file owner repo "main" file)) as [r1|e1].
  - simpl in R1. rewrite R1. simpl.
    rewrite (fetchFromGitHub_step _ _ _ _ Hparse).
    destruct (fetch env (raw_file owner repo "master" file)) as [r2|e2].
    + simpl in R2. rewrite R2. simpl. rewrite <- app_assoc.
      eexists _, _. split; [reflexivity|].
      repeat constructor; eauto.
    + rewrite <- app_assoc. eexists _, _. split; [reflexivity|].
      repeat constructor; eauto.
  - eexists _, _. split; [reflexivity|]. repeat constructor; eauto.
Qed.

Lemma fetchManifest_unreachable env url tr :
  unreachable env url "manifest.json" ->
  exists e more,
    Build.fetchManifest env (VStr url) "main" tr = (Throw e, (tr ++ more)%list).
Proof.
  intros [owner [repo [Hparse [R1 R2]]]].
  change (raw_file owner repo "main" "manifest.json")
    with (raw_file owner repo "main" "manifest.json") in R1.
  change (raw_file owner repo "master" "manifest.json")
    with (raw_file owner repo "master" "manifest.json") in R2.
  rewrite (fetchManifest_step _ _ _ _ Hparse).
  destruct (fetch env (raw_file owner repo "main" "manifest.json")) as [r1|e1].
  - simpl in R1. rewrite R1. simpl.
    rewrite (fetchManifest_step _ _ _ _ Hparse).
    destruct (fetch env (raw_file owner repo "master" "manifest.json")) as [r2|e2].
    + simpl in R2. rewrite R2. simpl. rewrite <- app_assoc.
      eexists _, _. reflexivity.
    + rewrite <- app_assoc. eexists _, _. reflexivity.
  - eexists _, _. reflexivity.
Qed.

(** ** The loop of the directory builder *)

Lemma get_inv env v key tr x tr' :
  get env v key tr = (Ret x, tr') -> present v /\ x = field v key /\ tr' = tr.
Proof.
  destruct v; simpl; unfold type_error_, throw, ret; intros H;
    inversion H; subst; simpl; auto.
Qed.

Lemma entry_run env manifest_ submission tr :
  present manifest_ -> present submission ->
  Build.entry env manifest_ submission tr =
  (Ret (projection manifest_ (field submission "repo") (toISOString env tr)),
   (tr ++ [Now])%list).
Proof.
  intros Pm Ps. unfold Build.entry.
  repeat (erewrite bind_Ret; [|apply get_present; assumption]).
  reflexivity.
Qed.

Lemma after_push env file manifest_ acc tr :
  exists acc' tr',
    try_catch
      (name <- get env manifest_ "name" ;;
       _ <- toStringM env name ;;
       version <- get env manifest_ "version" ;;
       _ <- toStringM env version ;;
       ret acc)
      (fun e => ret (Build.push_error file e acc)) tr = (Ret acc', tr') /\
    (acc' = acc \/ exists e, acc' = Build.push_error file e acc).
Proof.
  unfold try_catch.
  match goal with
  | |- context [ (let (o, t) := ?c tr in _) ] =>
      destruct (c tr) as [[r|e] t1] eqn:E
  end.
  - binv E. binv E. binv E. binv E. apply ret_inv in E. destruct E as [<- _].
    eauto.
  - eexists _, _. split; [reflexivity|]. eauto.
Qed.

(** One iteration of the builder's loop never throws: it adds an error, or
    an entry, or an entry and then an error. *)
Lemma process_cases env file acc tr :
  exists acc' tr',
    Build.process env file acc tr = (Ret acc', tr') /\
    ((exists e, acc' = Build.push_error file e acc) \/
     exists submission manifest_ tr0 tr1,
       readJSON env (path_join (PLUGINS_DIR env) file) tr =
         (Ret submission, tr0) /\
       Build.fetchManifest env (field submission "repo") "main" tr0 =
         (Ret manifest_, tr1) /\
       let added :=
         Build.push_plugin
           (projection manifest_ (field submission "repo")
                       (toISOString env tr1)) acc in
       acc' = added \/ exists e, acc' = Build.push_error file e added).
Proof.
  unfold Build.process.
  match goal with
  | |- context [ bind (try_catch ?c ?h) ] =>
      destruct (c tr) as [[[[manifest_ plugin]|s]|e] t1] eqn:E
  end.
  2:{ exfalso. binv E. binv E. binv E. binv E.
      apply ret_inv in E. destruct E as [E _]. discriminate. }
  - pose proof E as E'.
    binv E'. binv E'. binv E'. binv E'.
    apply ret_inv in E'. destruct E' as [E' <-].
    inversion E'; subst a1 a2; clear E'.
    apply get_inv in Ha0. destruct Ha0 as [Ps [-> ->]].
    assert (Pm : present manifest_).
    { unfold Build.entry in Ha2. binv Ha2.
      apply get_inv in Ha0. tauto. }
    rewrite (entry_run env manifest_ a t2 Pm Ps) in Ha2.
    inversion Ha2; subst plugin t3; clear Ha2.
    erewrite bind_Ret; [|apply try_Ret; exact E].
    cbv beta iota zeta.
    destruct (after_push env file manifest_
                (Build.push_plugin
                   (projection manifest_ (field a "repo")
                               (toISOString env t2)) acc)
                (t2 ++ [Now])%list) as [acc' [tr' [X Sh]]].
    exists acc', tr'. split; [exact X|]. right.
    exists a, manifest_, t, t2. auto.
  - erewrite bind_Ret; [|erewrite try_Throw; [reflexivity | exact E]].
    eexists _, _. split; [reflexivity|]. left. eauto.
Qed.

(** Both arrays only grow. *)
Lemma process_appends env file acc tr :
  exists acc' tr' ps es,
    Build.process env file acc tr = (Ret acc', tr') /\
    Build.plugins acc' = (Build.plugins acc ++ ps)%list /\
    Build.errors acc' = (Build.errors acc ++ es)%list.
Proof.
  destruct (process_cases env file acc tr) as [acc' [tr' [E C]]].
  exists acc', tr'.
  destruct C as [[e ->]|[sub [man [t0 [t1 [_ [_ [->|[e ->]]]]]]]]].
  - exists [], [(file, e)]. simpl. rewrite app_nil_r. auto.
  - eexists [_], []. simpl. rewrite app_nil_r. auto.
  - eexists [_], [(file, e)]. simpl. auto.
Qed.

(** So the loop over the files always completes. *)
Lemma for_each_file_appends env files : forall acc tr,
  exists acc' tr' ps es,
    Build.for_each_file env files acc tr = (Ret acc', tr') /\
    Build.plugins acc' = (Build.plugins acc ++ ps)%list /\
    Build.errors acc' = (Build.errors acc ++ es)%list.
Proof.
  induction files as [|file files IH]; intros acc tr; simpl.
  - exists acc, tr, [], []. rewrite !app_nil_r. auto.
  - destruct (process_appends env file acc tr)
      as [acc1 [tr1 [ps1 [es1 [E [P1 E1]]]]]].
    destruct (IH acc1 tr1) as [acc2 [tr2 [ps2 [es2 [F [P2 E2]]]]]].
    exists acc2, tr2, (ps1 ++ ps2)%list, (es1 ++ es2)%list.
    erewrite bind_Ret by exact E.
    rewrite P2, E2, P1, E1, !app_assoc. auto.
Qed.

(** ** An unreachable repository, a file name that does not match *)

(** The builder's iteration for a submission whose repository is
    unreachable: an error for the file, and no entry. *)
Lemma process_unreachable env file content submission url acc tr :
  readFileSync env (path_join (PLUGINS_DIR env) file) = Ret content ->
  JSON_parse env content = Ret submission ->
  field submission "repo" = VStr url ->
  unreachable env url "manifest.json" ->
  exists e tr',
    Build.process env file acc tr =
    (Ret (Build.push_error file e acc), tr').
Proof.
  intros Hfile Hparse Hrepo Hun.
  assert (P : present submission).
  { destruct submission; simpl in Hrepo; try discriminate; exact I. }
  destruct (fetchManifest_unreachable env url
              (tr ++ [ReadFile (path_join (PLUGINS_DIR env) file)])%list Hun)
    as [e [more F]].
  unfold Build.process.
  erewrite bind_Ret.
  2:{ erewrite try_Throw; [unfold ret; reflexivity|].
      erewrite bind_Ret;
        [|apply (readJSON_Ret env _ content submission tr Hfile Hparse)].
      erewrite bind_Ret; [|apply get_present; exact P].
      rewrite Hrepo. eapply bind_Throw. exact F. }
  unfold ret. cbv beta iota.
  eexists e, _. reflexivity.
Qed.

Lemma fetchFromGitHub_all_failed env url owner repo file tr :
  parseGitHubUrl env (VStr url) [] = (Ret (Some (owner, repo)), []) ->
  refused (fetch env (raw_file owner repo "main" file)) ->
  refused (fetch env (raw_file owner repo "master" file)) ->
  exists requests e,
    fetchFromGitHub env (VStr url) (VStr file) "main" tr =
      (Throw e, (tr ++ requests)%list) /\
    all_failed env owner repo file requests e.
Proof.
  intros Hparse R1 R2. unfold all_failed.
  rewrite (fetchFromGitHub_step _ _ _ _ Hparse).
  destruct (fetch env (raw_file owner repo "main" file)) as [r1|e1].
  - simpl in R1. rewrite R1. simpl.
    rewrite (fetchFromGitHub_step _ _ _ _ Hparse), <- app_assoc. simpl.
    destruct (fetch env (raw_file owner repo "master" file)) as [r2|e2].
    + simpl in R2. rewrite R2. eexists _, _. split; [reflexivity|]. auto.
    + eexists _, _. split; [reflexivity|]. auto.
  - eexists _, _. split; [reflexivity|]. auto.
Qed.

Lemma stopped_at_check6_run path id dup e :
  addCheck "Repo accessible" false (VStr e) (before_check6 path id dup) =
  stopped_at_check6 path id dup e.
Proof.
  unfold before_check6, checkFilename, stopped_at_check6, filename_check.
  destruct dup; destruct (basename path =? id ++ ".json"); reflexivity.
Qed.

(** Claim C5.  When the repository of an accepted submission serves the
    manifest on neither [main] nor [master], the validator returns, after
    the duplicate check, the result that ends at the failed check "Repo
    accessible" with the message of the failure: five checks, no warning but
    that of the duplicate check, no error, a null manifest and a false flag;
    and after the duplicate check it has made the failed requests for
    [manifest.json] and nothing else, so that no later check has run.  The
    builder, for a file holding that submission, appends the file to its
    error list and adds no plugin, so that the file is in the error list when
    the loop over the files ends. *)
Theorem unreachable_repository (env : Env) (path dir : string)
  (submission : value) (id url : string) (files : list string)
  (tr : list event) :
  accepted env path submission id ->
  readdirSync env dir = Ret files ->
  field submission "repo" = VStr url ->
  unreachable env url "manifest.json" ->
  (exists isDuplicate more owner repo requests e,
     checkDuplicate env (VStr id) dir (tr ++ [ReadFile path])%list =
       (Ret isDuplicate, (tr ++ ReadFile path :: ReadDir dir :: more)%list) /\
     parseGitHubUrl env (VStr url) [] = (Ret (Some (owner, repo)), []) /\
     all_failed env owner repo "manifest.json" requests e /\
     validatePlugin env path dir tr =
       (Ret (stopped_at_check6 path id isDuplicate e),
        (tr ++ ReadFile path :: ReadDir dir :: more ++ requests)%list)) /\
  (forall file content acc tr0,
     readFileSync env (path_join (PLUGINS_DIR env) file) = Ret content ->
     JSON_parse env content = Ret submission ->
     (exists acc' e tr0',
        Build.process env file acc tr0 = (Ret acc', tr0') /\
        Build.plugins acc' = Build.plugins acc /\
        Build.errors acc' = (Build.errors acc ++ [(file, e)])%list) /\
     (forall listing, In file listing ->
        exists acc' e tr0',
          Build.for_each_file env listing acc tr0 = (Ret acc', tr0') /\
          In (file, e) (Build.errors acc'))).
Proof.
  intros Hacc Hdir Hrepo Hun.
  assert (P : present submission).
  { apply (truthy_field_present submission "id").
    apply (accepted_fields _ _ _ _ Hacc). simpl. auto. }
  split.
  - destruct (validatePlugin_accepted env path dir submission id files tr
                Hacc Hdir) as [dup [more [D V]]].
    destruct Hun as [owner [repo [Hparse [R1 R2]]]].
    destruct (fetchFromGitHub_all_failed env url owner repo "manifest.json"
                (tr ++ ReadFile path :: ReadDir dir :: more)%list
                Hparse R1 R2) as [requests [e [F A]]].
    exists dup, more, owner, repo, requests, e.
    split; [exact D|]. split; [exact Hparse|]. split; [exact A|].
    rewrite V. unfold checkRepo.
    erewrite bind_Ret.
    2:{ erewrite try_Throw; [unfold ret; reflexivity|].
        erewrite bind_Ret; [|apply get_present; exact P].
        rewrite Hrepo. eapply bind_Throw. exact F. }
    unfold ret. cbv beta iota.
    rewrite stopped_at_check6_run, <- app_assoc. reflexivity.
  - intros file content acc tr0 Hfile Hparse. split.
    + destruct (process_unreachable env file content submission url acc tr0
                  Hfile Hparse Hrepo Hun) as [e [tr0' E]].
      eexists _, e, tr0'. split; [exact E|]. simpl. auto.
    + intros listing. revert acc tr0.
      induction listing as [|f listing IH]; intros acc tr0 Hin;
        [contradiction|].
      simpl. destruct (string_dec f file) as [->|Hne].
      * destruct (process_unreachable env file content submission url acc tr0
                    Hfile Hparse Hrepo Hun) as [e [tr1 E]].
        destruct (for_each_file_appends env listing
                    (Build.push_error file e acc) tr1)
          as [acc' [tr' [ps [es [F [_ Es]]]]]].
        exists acc', e, tr'. erewrite bind_Ret by exact E.
        split; [exact F|]. rewrite Es. simpl.
        apply in_or_app. left. apply in_or_app. right. simpl. auto.
      * destruct Hin as [Heq|Hin]; [contradiction|].
        destruct (process_appends env f acc tr0)
          as [acc1 [tr1 [ps [es [E _]]]]].
        destruct (IH acc1 tr1 Hin) as [acc' [e [tr' [F I]]]].
        exists acc', e, tr'. erewrite bind_Ret by exact E. auto.
Qed.

(** Example 4 satisfies the hypotheses. *)
Lemma example4_accepted :
  accepted example4 "plugins/com.a.b.json" submission_value "com.a.b".
Proof.
  constructor.
  - exists submission_text. split; vm_compute; reflexivity.
  - intros f H. simpl in H.
    repeat (destruct H as [<-|H]; [reflexivity|]). contradiction.
  - reflexivity.
  - vm_compute. reflexivity.
Defined.

Lemma example4_unreachable : unreachable example4 example_url "manifest.json".
Proof.
  exists "a", "b". split; [vm_compute; reflexivity|].
  split; vm_compute; reflexivity.
Defined.

(** Example 4: the validator's result and events, and the builder's
    arrays. *)
Lemma unreachable_repository_witness :
  accepted example4 "plugins/com.a.b.json" submission_value "com.a.b" /\
  readdirSync example4 "plugins" = Ret ["com.a.b.json"] /\
  field submission_value "repo" = VStr example_url /\
  unreachable example4 example_url "manifest.json" /\
  validatePlugin example4 "plugins/com.a.b.json" "plugins" [] =
    (Ret (Result (VStr "com.a.b") false
            [pass "Valid JSON"; pass "Required fields";
             pass "Plugin ID format"; pass "Filename matches ID";
             Item.Make "Repo accessible" false
               (VStr "Failed to fetch manifest.json: 404")]
            ["Plugin ID already exists - this will update the existing entry"]
            [] VNull),
     [ReadFile "plugins/com.a.b.json"; ReadDir "plugins";
      ReadFile "plugins/com.a.b.json";
      Fetch "https://raw.githubusercontent.com/a/b/main/manifest.json";
      Fetch "https://raw.githubusercontent.com/a/b/master/manifest.json"]) /\
  Build.process example4 "com.a.b.json" (Build.Collected [] []) [] =
    (Ret (Build.Collected []
            [("com.a.b.json", "Failed to fetch manifest: 404")]),
     [ReadFile "plugins/com.a.b.json";
      Fetch "https://raw.githubusercontent.com/a/b/main/manifest.json";
      Fetch "https://raw.githubusercontent.com/a/b/master/manifest.json"]).
Proof.
  split; [exact example4_accepted|].
  split; [reflexivity|]. split; [reflexivity|].
  split; [exact example4_unreachable|].
  destruct (unreachable_repository example4 "plugins/com.a.b.json" "plugins"
              submission_value "com.a.b" example_url ["com.a.b.json"] []
              example4_accepted eq_refl eq_refl example4_unreachable)
    as [[dup [more [owner [repo [requests [e [D [Hp [A V]]]]]]]]] B].
  split.
  - vm_compute in D. inversion D; subst dup more.
    vm_compute in Hp. inversion Hp; subst owner repo.
    vm_compute in A. destruct A as [_ [-> [_ ->]]].
    rewrite V. reflexivity.
  - destruct (B "com.a.b.json" submission_text (Build.Collected [] []) []
                eq_refl eq_refl) as [[acc' [e' [tr0' [R _]]]] _].
    vm_compute. reflexivity.
Defined.




(** ** Directory entries and the sort *)

Ltac optional_cases manifest_ :=
  destruct (truthy (field manifest_ "authorUrl")) eqn:?;
  destruct (truthy (field manifest_ "helpUrl")) eqn:?;
  destruct (truthy (field manifest_ "fundingUrl")) eqn:?;
  destruct (truthy (field manifest_ "supportLinks")) eqn:?;
  destruct (truthy (field manifest_ "tags")) eqn:?;
  destruct (truthy (field manifest_ "category")) eqn:?.

Lemma projection_entry manifest_ repo updatedAt :
  entry_of manifest_ repo updatedAt (projection manifest_ repo updatedAt).
Proof.
  unfold entry_of, projection, Build.optional_field.
  eexists. split; [reflexivity|].
  split; [|split; [|split; [|split; [|split]]]].
  - cbn [ENTRY_FIELDS OPTIONAL_FIELDS filter].
    optional_cases manifest_; reflexivity.
  - intros key H. cbn [ENTRY_FIELDS In] in H.
    repeat (destruct H as [<-|H]; [reflexivity|]). contradiction.
  - reflexivity.
  - reflexivity.
  - intros key H T. cbn [OPTIONAL_FIELDS In] in H.
    repeat (destruct H as [<-|H];
            [optional_cases manifest_; first [reflexivity | discriminate]|]).
    contradiction.
  - optional_cases manifest_; reflexivity.
Qed.

(** Claim C10.  A file whose submission is read and whose manifest is fetched
    contributes one entry, made of the fields of the manifest, the optional
    ones included, and of the [repo] of the submission, whatever the
    identifiers are; every entry the loop adds is of that form; and in the
    world [detailed] the entry is added with the optional fields of the
    manifest although the manifest names another plugin than the
    submission. *)
Theorem entry_from_manifest (env : Env) (file : string)
  (acc : Build.collected) (tr : list event) :
  (forall content submission manifest_ tr1,
     readFileSync env (path_join (PLUGINS_DIR env) file) = Ret content ->
     JSON_parse env content = Ret submission ->
     present submission ->
     Build.fetchManifest env (field submission "repo") "main"
       (tr ++ [ReadFile (path_join (PLUGINS_DIR env) file)])%list =
       (Ret manifest_, tr1) ->
     present manifest_ ->
     exists acc' tr' e,
       Build.process env file acc tr = (Ret acc', tr') /\
       Build.plugins acc' = (Build.plugins acc ++ [e])%list /\
       entry_of manifest_ (field submission "repo") (toISOString env tr1) e) /\
  (exists acc' tr',
     Build.process env file acc tr = (Ret acc', tr') /\
     (Build.plugins acc' = Build.plugins acc \/
      exists submission manifest_ tr0 tr1 e,
        readJSON env (path_join (PLUGINS_DIR env) file) tr =
          (Ret submission, tr0) /\
        Build.fetchManifest env (field submission "repo") "main" tr0 =
          (Ret manifest_, tr1) /\
        Build.plugins acc' = (Build.plugins acc ++ [e])%list /\
        entry_of manifest_ (field submission "repo") (toISOString env tr1) e)) /\
  (exists acc' tr',
     Build.buildDirectory detailed [] = (Ret acc', tr') /\
     Build.plugins acc' = [detailed_entry] /\
     field submission_value "id" = VStr "com.a.b" /\
     field detailed_entry "id" = VStr "org.other.plugin").
Proof.
  split; [|split].
  - intros content submission manifest_ tr1 Hfile Hparse Ps Hfetch Pm.
    unfold Build.process.
    erewrite bind_Ret.
    2:{ apply try_Ret.
        erewrite bind_Ret; [|apply (readJSON_Ret env _ content submission tr Hfile Hparse)].
        erewrite bind_Ret; [|apply get_present; exact Ps].
        erewrite bind_Ret; [|exact Hfetch].
        erewrite bind_Ret; [|apply entry_run; assumption].
        reflexivity. }
    cbv beta iota zeta.
    destruct (after_push env file manifest_
                (Build.push_plugin
                   (projection manifest_ (field submission "repo")
                               (toISOString env tr1)) acc)
                (tr1 ++ [Now])%list) as [acc' [tr' [E Sh]]].
    exists acc', tr', (projection manifest_ (field submission "repo")
                                  (toISOString env tr1)).
    split; [exact E|]. split; [|apply projection_entry].
    destruct Sh as [->|[e ->]]; reflexivity.
  - destruct (process_cases env file acc tr) as [acc' [tr' [E C]]].
    exists acc', tr'. split; [exact E|].
    destruct C as [[e ->]|[sub [man [t0 [t1 [R [F Sh]]]]]]]; [left; reflexivity|].
    right. exists sub, man, t0, t1.
    exists (projection man (field sub "repo") (toISOString env t1)).
    split; [exact R|]. split; [exact F|]. split; [|apply projection_entry].
    destruct Sh as [->|[e ->]]; reflexivity.
  - eexists _, _. split; [vm_compute; reflexivity|].
    repeat split; reflexivity.
Qed.

(** The world [detailed] satisfies the hypotheses, with two identifiers;
    the entry has the optional fields of the manifest that are not empty. *)
Lemma entry_from_manifest_witness :
  readFileSync detailed (path_join (PLUGINS_DIR detailed) "com.a.b.json") =
    Ret submission_text /\
  JSON_parse detailed submission_text = Ret submission_value /\
  present submission_value /\
  present detailed_manifest_value /\
  field submission_value "id" <> field detailed_manifest_value "id" /\
  exists acc' tr',
    Build.process detailed "com.a.b.json" (Build.Collected [] []) [] =
      (Ret acc', tr') /\
    Build.plugins acc' = [detailed_entry].
Proof.
  split; [reflexivity|]. split; [reflexivity|]. split; [exact I|].
  split; [exact I|]. split; [discriminate|].
  destruct (proj1 (entry_from_manifest detailed "com.a.b.json"
                     (Build.Collected [] []) [])
              submission_text submission_value detailed_manifest_value
              [ReadFile "plugins/com.a.b.json";
               Fetch "https://raw.githubusercontent.com/a/b/main/manifest.json"]
              eq_refl eq_refl I
              ltac:(vm_compute; reflexivity) I)
    as [acc' [tr' [e [E [Pl En]]]]].
  exists acc', tr'. split; [exact E|]. rewrite Pl. simpl. f_equal.
  destruct En as [fields [-> [K [V1 [V2 [V3 [V4 V5]]]]]]].
  simpl in K.
  repeat (destruct fields as [|[? ?] fields]; simpl in K;
          [discriminate K|]; injection K as -> K).
  destruct fields; [clear K|discriminate K].
  pose proof (V1 "id" ltac:(simpl; tauto)) as A1.
  pose proof (V1 "name" ltac:(simpl; tauto)) as A2.
  pose proof (V1 "description" ltac:(simpl; tauto)) as A3.
  pose proof (V1 "author" ltac:(simpl; tauto)) as A4.
  pose proof (V1 "version" ltac:(simpl; tauto)) as A5.
  pose proof (V1 "minAppVersion" ltac:(simpl; tauto)) as A6.
  pose proof (V4 "helpUrl" ltac:(simpl; tauto) eq_refl) as A7.
  pose proof (V4 "tags" ltac:(simpl; tauto) eq_refl) as A8.
  pose proof (V4 "category" ltac:(simpl; tauto) eq_refl) as A9.
  clear V1 V4. simpl in *. subst. reflexivity.
Defined.

(** The comparison of two entries with string names does not throw. *)
Lemma by_name_named env a b tr :
  named a -> named b -> exists z, Build.by_name env a b tr = (Ret z, tr).
Proof.
  intros [fa [sa [-> Ha]]] [fb [sb [-> Hb]]].
  unfold Build.by_name, bind, get, string_receiver, toStringM, ret.
  rewrite Ha, Hb. simpl. eauto.
Qed.

Lemma insert_named env x : forall sorted tr,
  named x -> Forall named sorted ->
  exists l, Build.insert (Build.by_name env) x sorted tr = (Ret l, tr) /\
            Forall named l.
Proof.
  induction sorted as [|y sorted IH]; intros tr Hx Hs; simpl.
  - eexists. split; [reflexivity|]. auto.
  - inversion Hs; subst.
    destruct (by_name_named env x y tr Hx) as [z E]; [assumption|].
    erewrite bind_Ret by exact E.
    destruct (z <? 0)%Z.
    + eexists. split; [reflexivity|]. auto.
    + destruct (IH tr Hx) as [l [F N]]; [assumption|].
      erewrite bind_Ret by exact F.
      eexists. split; [reflexivity|]. auto.
Qed.

Lemma sort_into_named env pending : forall sorted tr,
  Forall named sorted -> Forall named pending ->
  exists l, Build.sort_into (Build.by_name env) sorted pending tr = (Ret l, tr) /\
            Forall named l.
Proof.
  induction pending as [|x pending IH]; intros sorted tr Hs Hp; simpl.
  - eexists. split; [reflexivity|]. exact Hs.
  - inversion Hp; subst.
    destruct (insert_named env x sorted tr) as [l [E N]]; [assumption..|].
    erewrite bind_Ret by exact E. apply IH; assumption.
Qed.

(** When every entry has a string name and the output file can be written,
    the directory is written. *)
Lemma named_entries_are_written env files tr :
  readdirSync env (PLUGINS_DIR env) = Ret files ->
  (forall acc tr',
     Build.for_each_file env (filter (endsWith ".json") files)
       (Build.Collected [] []) (tr ++ [ReadDir (PLUGINS_DIR env)])%list =
       (Ret acc, tr') ->
     Forall named (Build.plugins acc)) ->
  writable env (OUTPUT_FILE env) ->
  exists result tr' document,
    Build.buildDirectory env tr =
      (Ret result, (tr' ++ [WriteFile (OUTPUT_FILE env) document])%list).
Proof.
  intros Hdir Hnamed Hwrite. unfold Build.buildDirectory.
  erewrite bind_Ret; [|unfold call; rewrite Hdir; reflexivity].
  destruct (for_each_file_appends env (filter (endsWith ".json") files)
              (Build.Collected [] []) (tr ++ [ReadDir (PLUGINS_DIR env)])%list)
    as [acc [tr1 [ps [es [E _]]]]].
  erewrite bind_Ret by exact E.
  destruct (sort_into_named env (Build.plugins acc) [] tr1)
    as [sorted [S _]]; [constructor | eapply Hnamed; exact E |].
  unfold Build.sort. erewrite bind_Ret by exact S.
  erewrite bind_Ret; [|reflexivity].
  erewrite bind_Ret; [|unfold writeJSON; rewrite Hwrite; reflexivity].
  eexists _, _, _. reflexivity.
Qed.

(** Claim C1, on the code as it is.  With two submissions of which the second
    has a manifest without a name, the loop adds both entries and records no
    error, and then the sort throws: [buildDirectory] fails and nothing is
    written.  The same holds, in either order of the listing, when the name
    is an object that cannot be converted to a string. *)
Theorem manifest_without_name_aborts_the_build :
  (exists acc tr,
     Build.for_each_file (two_submissions ["alpha.json"; "beta.json"] nameless)
       ["alpha.json"; "beta.json"] (Build.Collected [] []) [] = (Ret acc, tr) /\
     List.length (Build.plugins acc) = 2%nat /\ Build.errors acc = []) /\
  (exists e tr,
     Build.buildDirectory (two_submissions ["alpha.json"; "beta.json"] nameless) [] =
       (Throw e, tr) /\
     existsb writes tr = false) /\
  (exists e tr,
     Build.buildDirectory
       (two_submissions ["alpha.json"; "beta.json"] unprintable) [] =
       (Throw e, tr) /\
     existsb writes tr = false) /\
  (exists e tr,
     Build.buildDirectory
       (two_submissions ["beta.json"; "alpha.json"] unprintable) [] =
       (Throw e, tr) /\
     existsb writes tr = false).
Proof.
  split; [|split; [|split]].
  - eexists _, _. split; [vm_compute; reflexivity|]. split; reflexivity.
  - eexists _, _. split; [vm_compute; reflexivity|]. reflexivity.
  - eexists _, _. split; [vm_compute; reflexivity|]. reflexivity.
  - eexists _, _. split; [vm_compute; reflexivity|]. reflexivity.
Qed.

(** ** Dangerous permissions and duplicates *)

Lemma strings_in_spec table items q :
  In q (strings_in table items) <-> In (VStr q) items /\ In q table.
Proof.
  induction items as [|v items IH]; simpl; [tauto|].
  destruct v; try (rewrite IH; split; [tauto | intros [[H|H] T]; [discriminate | tauto]]).
  destruct (existsb (String.eqb s) table) eqn:E; simpl; rewrite IH.
  - split.
    + intros [->|[H T]]; [|tauto]. split; [auto|].
      apply existsb_exists in E. destruct E as [x [I X]].
      apply String.eqb_eq in X. subst x. exact I.
    + intros [[H|H] T]; [inversion H; auto | tauto].
  - split; [tauto|]. intros [[H|H] T]; [|tauto].
    inversion H; subst s. exfalso.
    assert (X : existsb (String.eqb q) table = true).
    { apply existsb_exists. exists q. split; [exact T | apply String.eqb_refl]. }
    congruence.
Qed.

Lemma filter_harmless ws :
  Forall harmless ws -> filter is_dangerous_warning ws = [].
Proof.
  induction 1 as [|w ws H _ IH]; simpl; [reflexivity|].
  unfold harmless in H. rewrite H. exact IH.
Qed.

(** One step of a computation that either goes on or throws. *)
Ltac step_or_throw :=
  match goal with
  | |- exists e tr', bind ?c ?k ?tr = (Throw e, tr') =>
      let E := fresh "E" in
      destruct (c tr) as [[?|?] ?] eqn:E;
      [erewrite bind_Ret by exact E
      |eexists _, _; erewrite bind_Throw by exact E; reflexivity]
  end.

(** A manifest whose required fields are there but whose permissions are
    not an array does not reach the advisory checks: check 10 throws, if
    nothing did before. *)
Lemma no_array_no_advisories env submission manifest_ result tr :
  (forall f, In f REQUIRED_MANIFEST_FIELDS ->
             truthy (field manifest_ f) = true) ->
  (forall items, field manifest_ "permissions" <> VArr items) ->
  exists e tr',
    checkManifest env submission manifest_ result tr = (Throw e, tr').
Proof.
  intros Hreq Hperm.
  assert (P : present manifest_).
  { apply (truthy_field_present manifest_ "id"), Hreq. simpl. auto. }
  assert (T : truthy (field manifest_ "permissions") = true).
  { apply Hreq. simpl. tauto. }
  unfold checkManifest.
  erewrite bind_Ret; [|apply missing_fields; exact P].
  rewrite (no_missing_fields manifest_ _ Hreq).
  change (0 <? List.length (@nil string))%nat with false. cbv iota zeta.
  erewrite bind_Ret; [|apply get_present; exact P].
  step_or_throw. step_or_throw.
  erewrite bind_Ret; [|apply get_present; exact P].
  step_or_throw. step_or_throw.
  erewrite bind_Ret; [|apply get_present; exact P].
  eexists _, _. eapply bind_Throw.
  destruct (field manifest_ "permissions") eqn:F; try discriminate;
    try reflexivity.
  exfalso. eapply Hperm. reflexivity.
Qed.

Lemma dangerous_table p :
  existsb (String.eqb p) DANGEROUS_PERMISSIONS = dangerous p.
Proof.
  unfold dangerous, DANGEROUS_PERMISSIONS, DATA. cbn [existsb append].
  rewrite !orb_false_r, <- !orb_assoc. reflexivity.
Qed.

Lemma strings_in_dangerous items :
  strings_in DANGEROUS_PERMISSIONS items = dangerous_among items.
Proof.
  induction items as [|v items IH]; [reflexivity|].
  destruct v; cbn [strings_in dangerous_among]; try exact IH.
  rewrite dangerous_table, IH. reflexivity.
Qed.

Lemma dangerous_among_spec items q :
  In q (dangerous_among items) <-> In (VStr q) items /\ dangerous q = true.
Proof.
  induction items as [|v items IH]; simpl; [tauto|].
  destruct v;
    try (rewrite IH; split; [tauto | intros [[H|H] T]; [discriminate | tauto]]).
  destruct (dangerous s) eqn:E; simpl; rewrite IH.
  - split.
    + intros [->|[H T]]; [|tauto]. auto.
    + intros [[H|H] T]; [inversion H; auto | tauto].
  - split; [tauto|]. intros [[H|H] T]; [|tauto].
    inversion H; subst s. congruence.
Qed.

(** Claim C8.  For a manifest that has its required fields and whose
    permissions are an array declaring at least one dangerous permission, the
    advisory checks add one warning that lists, between backquotes and
    separated by commas, all the dangerous permissions declared, in the order
    of their declaration; it is the first warning they add and none of the
    others is about dangerous permissions.  In Example 1 every check passes
    and the warnings are that of the duplicate check, the one that lists
    [network], and the two about optional fields. *)
Theorem one_dangerous_warning :
  (forall (env : Env) (submission manifest_ : value) (items : list value)
          (result : ValidationResult) (tr : list event) (p : string),
     (forall f, In f REQUIRED_MANIFEST_FIELDS ->
                truthy (field manifest_ f) = true) ->
     field manifest_ "permissions" = VArr items ->
     In (VStr p) items -> dangerous p = true ->
     exists result' tr' after,
       advisories env submission manifest_ result tr = (Ret result', tr') /\
       warnings result' =
         (warnings result ++
          dangerous_text (dangerous_among items) :: after)%list /\
       Forall (fun w =>
                 prefix "Plugin requests dangerous permissions: " w = false)
              after /\
       forall q, In q (dangerous_among items) <->
                 In (VStr q) items /\ dangerous q = true) /\
  (exists result tr',
     validatePlugin example1 "plugins/com.a.b.json" "plugins" [] =
       (Ret result, tr') /\
     forallb Item.passed (checks result) = true /\
     passed result = true /\
     warnings result =
       ["Plugin ID already exists - this will update the existing entry";
        "Plugin requests dangerous permissions: `network` - please document why these are needed";
        "Consider adding a `helpUrl` for documentation";
        "Consider adding a `category` for better discoverability"]).
Proof.
  split.
  - intros env submission manifest_ items result tr p Hreq Hperm Hin Hd.
    assert (P : present manifest_).
    { apply (truthy_field_present manifest_ "id"), Hreq. simpl. auto. }
    destruct (advisories_run env submission manifest_ items result tr P Hperm)
      as [result' [tr' [after [extra [E [W [F _]]]]]]].
    exists result', tr', after.
    split; [exact E|]. split; [|split; [|apply dangerous_among_spec]].
    + rewrite W. f_equal. unfold dangerous_warnings.
      rewrite strings_in_dangerous.
      destruct (dangerous_among items) as [|s l] eqn:S; [|reflexivity].
      exfalso.
      assert (X : In p (dangerous_among items))
        by (apply dangerous_among_spec; auto).
      rewrite S in X. exact X.
    + exact F.
  - eexists _, _. split; [vm_compute; reflexivity|].
    repeat split; reflexivity.
Qed.

(** The manifest of Example 1 satisfies the hypotheses. *)
Lemma one_dangerous_warning_witness :
  (forall f, In f REQUIRED_MANIFEST_FIELDS ->
             truthy (field manifest_value f) = true) /\
  field manifest_value "permissions" = VArr [VStr "read:goals"; VStr "network"] /\
  In (VStr "network") [VStr "read:goals"; VStr "network"] /\
  dangerous "network" = true /\
  exists result' tr' after,
    advisories example1 submission_value manifest_value
      (new_ValidationResult VNull) [] = (Ret result', tr') /\
    warnings result' =
      "Plugin requests dangerous permissions: `network` - please document why these are needed"
      :: after /\
    Forall (fun w => prefix "Plugin requests dangerous permissions: " w = false)
           after.
Proof.
  assert (R : forall f, In f REQUIRED_MANIFEST_FIELDS ->
                        truthy (field manifest_value f) = true).
  { intros f H. simpl in H.
    repeat (destruct H as [<-|H]; [reflexivity|]). contradiction. }
  assert (I : In (VStr "network") [VStr "read:goals"; VStr "network"])
    by (simpl; auto).
  split; [exact R|]. split; [reflexivity|]. split; [exact I|].
  split; [reflexivity|].
  destruct (proj1 one_dangerous_warning example1 submission_value
              manifest_value [VStr "read:goals"; VStr "network"]
              (new_ValidationResult VNull) [] "network" R eq_refl I eq_refl)
    as [result' [tr' [after [E [W [F _]]]]]].
  exists result', tr', after. split; [exact E|]. split; [exact W | exact F].
Defined.

(** The duplicate check only ever adds its warning. *)
Lemma duplicate_only_warns path id :
  checks (before_check6 path id true) = checks (before_check6 path id false) /\
  errors (before_check6 path id true) = errors (before_check6 path id false) /\
  passed (before_check6 path id true) = passed (before_check6 path id false) /\
  warnings (before_check6 path id true) = [duplicate_warning] /\
  warnings (before_check6 path id false) = [].
Proof.
  unfold before_check6, checkFilename.
  destruct (negb (basename path =? id ++ ".json")); repeat split; reflexivity.
Qed.

(** Claim C3, on the code as it is.  In Example 1 the directory holds the
    validated submission and nothing else, yet [checkDuplicate] reads that
    very file, answers [true], and the result carries the warning that the
    plugin ID already exists. *)
Theorem duplicate_check_reads_the_submission_itself :
  readdirSync example1 "plugins" = Ret ["com.a.b.json"] /\
  checkDuplicate example1 (VStr "com.a.b") "plugins" [] =
    (Ret true, [ReadDir "plugins"; ReadFile "plugins/com.a.b.json"]) /\
  exists result tr',
    validatePlugin example1 "plugins/com.a.b.json" "plugins" [] =
      (Ret result, tr') /\
    In duplicate_warning (warnings result).
Proof.
  split; [reflexivity|]. split; [vm_compute; reflexivity|].
  eexists _, _. split; [vm_compute; reflexivity|].
  simpl. auto.
Qed.

(* ================================================================== *)
(** * Further properties of the two scripts *)
(* ================================================================== *)

(** ** Searching a text for a pattern *)

Lemma exec_from_None r : forall s b i,
  exec_from r b s i = None <->
  forall pre suf st', s = pre ++ suf -> ~ Match r (MState (last_of b pre) suf []) st'.
Proof.
  induction s as [|c s IH]; intros b i; simpl.
  - destruct (m r (MState b EmptyString []) (fun st => Some st)) as [st|] eqn:E.
    + split; [discriminate|]. intros H. exfalso.
      apply m_sound in E. destruct E as [st' [HM _]].
      exact (H EmptyString EmptyString st' eq_refl HM).
    + split; [|reflexivity]. intros _ pre suf st' Hs HM.
      destruct pre; [|discriminate]. simpl in Hs. subst suf. simpl in HM.
      eapply (@m_complete _ _ _ _ HM (fun st => Some st)); [discriminate | exact E].
  - destruct (m r (MState b (String c s) []) (fun st => Some st)) as [st|] eqn:E.
    + split; [discriminate|]. intros H. exfalso.
      apply m_sound in E. destruct E as [st' [HM _]].
      exact (H EmptyString (String c s) st' eq_refl HM).
    + rewrite IH. split.
      * intros H pre suf st' Hs HM. destruct pre as [|c' pre].
        -- simpl in Hs. subst suf. simpl in HM.
           eapply (@m_complete _ _ _ _ HM (fun st => Some st)); [discriminate | exact E].
        -- simpl in Hs. inversion Hs; subst. simpl in HM. exact (H pre suf st' eq_refl HM).
      * intros H pre suf st' Hs HM. subst s.
        exact (H (String c pre) suf st' eq_refl HM).
Qed.

Lemma exec_from_Some r : forall s b i j st,
  exec_from r b s i = Some (j, st) ->
  exists pre suf, s = pre ++ suf /\ j = (i + String.length pre)%nat /\
    m r (MState (last_of b pre) suf []) (fun st => Some st) = Some st.
Proof.
  induction s as [|c s IH]; intros b i j st; simpl.
  - destruct (m r (MState b EmptyString []) (fun st => Some st)) as [st0|] eqn:E; [|discriminate].
    intros H. inversion H; subst. exists EmptyString, EmptyString. simpl.
    repeat split; auto.
  - destruct (m r (MState b (String c s) []) (fun st => Some st)) as [st0|] eqn:E.
    + intros H. inversion H; subst. exists EmptyString, (String c s). simpl.
      repeat split; auto.
    + intros H. apply IH in H. destruct H as [pre [suf [Hs [Hj Hm]]]].
      exists (String c pre), suf. subst. simpl. repeat split; auto; lia.
Qed.

Lemma test_occurs r s : test r s = true <-> occurs r s.
Proof.
  unfold test, exec, occurs.
  destruct (exec_from r None s 0) as [[j st]|] eqn:E.
  - split; [intros _|reflexivity].
    apply exec_from_Some in E. destruct E as [pre [suf [Hs [_ Hm]]]].
    apply m_sound in Hm. destruct Hm as [st' [HM _]]. eauto.
  - split; [discriminate|]. intros [pre [suf [st' [Hs HM]]]]. exfalso.
    rewrite exec_from_None in E. exact (E pre suf st' Hs HM).
Qed.

(** ** parseGitHubUrl *)

Lemma m_Seq A r1 r2 st (k : mstate -> option A) :
  m (Seq r1 r2) st k = m r1 st (fun st1 => m r2 st1 k).
Proof. reflexivity. Qed.

Lemma m_Lit_app A t : forall b s cs (k : mstate -> option A),
  m (Lit t) (MState b (t ++ s) cs) k = k (MState (last_of b t) s cs).
Proof.
  induction t as [|c t IH]; intros b s cs k; simpl; [reflexivity|].
  unfold is_char. rewrite Ascii.eqb_refl. apply IH.
Qed.

Lemma run_split (p : ascii -> bool) : forall s,
  exists w t, s = w ++ t /\ all p w = true /\
    match t with EmptyString => True | String c _ => p c = false end.
Proof.
  induction s as [|c s [w [t [Hs [Hw Ht]]]]].
  - exists EmptyString, EmptyString. simpl. auto.
  - destruct (p c) eqn:E.
    + exists (String c w), t. simpl. rewrite E, Hw. subst. auto.
    + exists EmptyString, (String c s). simpl. auto.
Qed.

Lemma star_greedy A (p : ascii -> bool) (k : mstate -> option A) x t cs :
  match t with EmptyString => True | String c _ => p c = false end ->
  forall w b n,
    all p w = true ->
    k (MState (last_of b w) t cs) = Some x ->
    (String.length (w ++ t) <= n)%nat ->
    repeat (fun st1 k1 => m (Chr p) st1 k1) k n (MState b (w ++ t) cs) = Some x.
Proof.
  intros Ht. induction w as [|c w IH]; intros b n Hw Hk Hn; simpl in *.
  - destruct n as [|n]; simpl; [exact Hk|].
    destruct t as [|c t]; simpl; [exact Hk|]. rewrite Ht. exact Hk.
  - apply andb_prop in Hw. destruct Hw as [Hc Hw].
    destruct n as [|n]; [lia|]. simpl. rewrite Hc. simpl.
    assert (L : (String.length (w ++ t) <? S (String.length (w ++ t)))%nat = true)
      by (apply Nat.ltb_lt; lia).
    rewrite L. rewrite (IH (Some c) n Hw Hk); [reflexivity | lia].
Qed.

Lemma length_append s t :
  String.length (s ++ t) = (String.length s + String.length t)%nat.
Proof. induction s; simpl; auto. Qed.

Lemma substring_prefix w : forall t,
  substring 0 (String.length w) (w ++ t) = w.
Proof. induction w as [|c w IH]; intros t; simpl; [destruct t; reflexivity|]. rewrite IH. reflexivity. Qed.

Lemma consumed_app b b' w t cs cs' :
  consumed (MState b (w ++ t) cs) (MState b' t cs') = w.
Proof.
  unfold consumed. simpl. rewrite length_append.
  replace (String.length w + String.length t - String.length t)%nat
    with (String.length w) by lia.
  apply substring_prefix.
Qed.

Lemma group_plus_greedy A (p : ascii -> bool) i (k : mstate -> option A) x w t b cs :
  w <> EmptyString -> all p w = true ->
  match t with EmptyString => True | String c _ => p c = false end ->
  k (set_cap i w (MState (last_of b w) t cs)) = Some x ->
  m (Group i (Plus (Chr p))) (MState b (w ++ t) cs) k = Some x.
Proof.
  intros Hne Hw Ht Hk. destruct w as [|c w]; [congruence|].
  simpl in Hw. apply andb_prop in Hw. destruct Hw as [Hc Hw].
  simpl. rewrite Hc.
  apply (@star_greedy _ p _ x t cs Ht w (Some c)); auto.
  change (String c (w ++ t)) with (String c w ++ t).
  rewrite consumed_app. exact Hk.
Qed.

Lemma not_slash_false c : not_slash c = false -> c = "/"%char.
Proof.
  unfold not_slash. intros H. apply negb_false_iff in H. apply is_char_true in H. exact H.
Qed.

Lemma Match_github_url_inv st st' :
  Match github_url st st' ->
  exists owner name,
    rest st = "github.com/" ++ owner ++ "/" ++ name ++ rest st' /\
    segment owner /\ segment name.
Proof.
  unfold github_url. intros H.
  apply Match_Seq_inv in H. destruct H as [s1 [H1 H]].
  apply Match_Seq_inv in H. destruct H as [s2 [H2 H]].
  apply Match_Seq_inv in H. destruct H as [s3 [H3 H4]].
  apply Match_Lit_inv in H1. destruct H1 as [R1 _].
  apply Match_Group_inv in H2. destruct H2 as [s2' [H2 E2]].
  apply Match_plus_chr_inv in H2. destruct H2 as [owner [N2 [A2 [R2 _]]]].
  apply Match_Lit_inv in H3. destruct H3 as [R3 _].
  apply Match_Group_inv in H4. destruct H4 as [s4 [H4 E4]].
  apply Match_plus_chr_inv in H4. destruct H4 as [name [N4 [A4 [R4 _]]]].
  exists owner, name. unfold segment. repeat split; auto.
  subst s2 st'. simpl in *. rewrite R1, R2, R3, R4. reflexivity.
Qed.

Lemma Match_github_url_intro b owner name post :
  segment owner -> segment name ->
  exists st', Match github_url
    (MState b ("github.com/" ++ owner ++ "/" ++ name ++ post) []) st'.
Proof.
  intros [N1 A1] [N2 A2]. unfold github_url. eexists.
  eapply MSeq; [apply Match_Lit_intro|].
  eapply MSeq; [apply MGroup, Match_plus_chr_intro; eassumption|].
  eapply MSeq; [apply (Match_Lit_intro "/")|].
  apply MGroup, Match_plus_chr_intro; eassumption.
Qed.

Lemma m_github_url b owner name t :
  segment owner -> segment name ->
  match t with EmptyString => True | String c _ => not_slash c = false end ->
  exists st,
    m github_url (MState b ("github.com/" ++ owner ++ "/" ++ name ++ t) [])
      (fun st => Some st) = Some st /\
    rest st = t /\ cap 1 (caps st) = Some owner /\ cap 2 (caps st) = Some name.
Proof.
  intros [N1 A1] [N2 A2] Ht. unfold github_url. eexists.
  split.
  - rewrite m_Seq, m_Lit_app, m_Seq.
    eapply group_plus_greedy; [exact N1 | exact A1 | reflexivity |].
    unfold set_cap; cbn [before rest caps].
    rewrite m_Seq, (m_Lit_app _ "/").
    eapply group_plus_greedy; [exact N2 | exact A2 | exact Ht |].
    reflexivity.
  - simpl. auto.
Qed.

Lemma substring_all s : substring 0 (String.length s) s = s.
Proof. induction s as [|c s IH]; simpl; [reflexivity | rewrite IH; reflexivity]. Qed.

Lemma substring_suffix pre suf :
  substring (String.length pre) (String.length suf) (pre ++ suf) = suf.
Proof. induction pre as [|c pre IH]; simpl; [apply substring_all | exact IH]. Qed.

Lemma substring_split : forall s i, (i <= String.length s)%nat ->
  s = substring 0 i s ++ substring i (String.length s - i) s.
Proof.
  induction s as [|c s IH]; intros i Hi; simpl in *.
  - destruct i; reflexivity.
  - destruct i as [|i]; simpl.
    + rewrite substring_all. reflexivity.
    + rewrite <- IH by lia. reflexivity.
Qed.

Lemma endsWith_app pre suf : endsWith suf (pre ++ suf) = true.
Proof.
  unfold endsWith. rewrite length_append.
  replace (String.length pre + String.length suf - String.length suf)%nat
    with (String.length pre) by lia.
  rewrite substring_suffix, String.eqb_refl.
  rewrite andb_true_r. apply Nat.leb_le. lia.
Qed.

Lemma endsWith_split suf s :
  endsWith suf s = true -> exists pre, s = pre ++ suf.
Proof.
  unfold endsWith. intros H. apply andb_prop in H. destruct H as [Hl He].
  apply Nat.leb_le in Hl. apply String.eqb_eq in He.
  exists (substring 0 (String.length s - String.length suf) s).
  assert (L : (String.length s - String.length suf <= String.length s)%nat) by lia.
  pose proof (substring_split s _ L) as Hsplit.
  replace (String.length s - (String.length s - String.length suf))%nat
    with (String.length suf) in Hsplit by lia.
  rewrite He in Hsplit. exact Hsplit.
Qed.

Lemma Match_dot_git_inv st st' :
  Match dot_git_at_end st st' -> rest st = ".git" /\ rest st' = EmptyString.
Proof.
  unfold dot_git_at_end. intros H.
  apply Match_Seq_inv in H. destruct H as [s1 [H1 H2]].
  apply Match_Lit_inv in H1. destruct H1 as [R1 _].
  apply Match_Eol_inv in H2. destruct H2 as [R2 E]. subst st'.
  rewrite R1, R2. auto.
Qed.

Lemma replace_dot_git name :
  replace_regex dot_git_at_end EmptyString name = without_dot_git name.
Proof.
  unfold replace_regex, without_dot_git, exec.
  destruct (exec_from dot_git_at_end None name 0) as [[i st]|] eqn:E.
  - apply exec_from_Some in E. destruct E as [pre [suf [Hs [Hi Hm]]]].
    apply m_sound in Hm. destruct Hm as [st' [HM Hst]].
    inversion Hst; subst st'. apply Match_dot_git_inv in HM.
    destruct HM as [R1 R2]. simpl in R1. subst suf name i.
    rewrite endsWith_app, R2. simpl.
    rewrite length_append. simpl.
    replace (String.length pre + 4 - 4)%nat with (String.length pre) by lia.
    rewrite substring_prefix. apply append_empty_r.
  - destruct (endsWith ".git" name) eqn:W; [|reflexivity]. exfalso.
    apply endsWith_split in W. destruct W as [pre Hs].
    rewrite exec_from_None in E.
    apply (E pre ".git" (MState (last_of (last_of None pre) ".git") EmptyString []) Hs).
    unfold dot_git_at_end. eapply MSeq.
    + apply (Match_Lit_intro ".git" _ EmptyString).
    + apply MEol. reflexivity.
Qed.

Lemma found_names_repository url i st :
  exec github_url url = Some (i, st) -> names_repository url.
Proof.
  unfold exec. intros E.
  apply exec_from_Some in E. destruct E as [pre [suf [Hs [_ Hm]]]].
  apply m_sound in Hm. destruct Hm as [st' [HM _]].
  apply Match_github_url_inv in HM. destruct HM as [owner [name [R [So Sn]]]].
  cbn [rest] in R. exists pre, owner, name, (rest st'). subst url. rewrite R. auto.
Qed.

Lemma no_match_no_repository url :
  exec github_url url = None -> ~ names_repository url.
Proof.
  unfold exec. intros E [pre [owner [name [post [Hs [So Sn]]]]]].
  rewrite exec_from_None in E.
  destruct (Match_github_url_intro (last_of None pre) owner name post So Sn)
    as [st' HM].
  exact (E pre _ st' Hs HM).
Qed.

Lemma parseGitHubUrl_None env url tr :
  ~ names_repository url -> parseGitHubUrl env (VStr url) tr = (Ret None, tr).
Proof.
  intros H. unfold parseGitHubUrl, string_receiver, bind, ret.
  destruct (exec github_url url) as [[i st]|] eqn:E; [|reflexivity].
  exfalso. exact (H (found_names_repository url i st E)).
Qed.

(** Property X1.  [parseGitHubUrl], in both scripts, on a string.  It
    returns [null] exactly when the string contains no text of the form
    [github.com/OWNER/NAME] with [OWNER] and [NAME] non-empty and free of
    [/].  Otherwise the owner is such an [OWNER], the name after it runs up to
    the next [/] or to the end of the string, and the repository is that name
    without a final [.git].  Nothing else of the address is looked at, and no
    event is recorded. *)
Theorem parseGitHubUrl_spec (env : Env) (url : string) (tr : list event) :
  exists o,
    parseGitHubUrl env (VStr url) tr = (Ret o, tr) /\
    Build.parseGitHubUrl env (VStr url) tr = (Ret o, tr) /\
    (o = None <-> ~ names_repository url) /\
    (forall owner repo, o = Some (owner, repo) ->
       exists pre name post,
         url = pre ++ "github.com/" ++ owner ++ "/" ++ name ++ post /\
         segment owner /\ segment name /\
         (post = EmptyString \/ exists t, post = "/" ++ t) /\
         repo = without_dot_git name).
Proof.
  change (Build.parseGitHubUrl env (VStr url) tr)
    with (parseGitHubUrl env (VStr url) tr).
  unfold parseGitHubUrl, string_receiver, bind, ret, exec.
  destruct (exec_from github_url None url 0) as [[i st]|] eqn:E.
  - apply exec_from_Some in E. destruct E as [pre [suf [Hs [Hi Hm]]]].
    pose proof Hm as Hm'.
    apply m_sound in Hm'. destruct Hm' as [st' [HM Hst]]. inversion Hst; subst st'.
    apply Match_github_url_inv in HM. destruct HM as [owner [name0 [R [So Sn]]]].
    cbn [rest] in R.
    destruct (run_split not_slash (name0 ++ rest st)) as [name [t [Hsplit [An Ht]]]].
    assert (Nn : name <> EmptyString).
    { intros ->. simpl in Hsplit. destruct Sn as [N A].
      destruct name0 as [|c n0]; [congruence|]. simpl in *.
      subst t. apply andb_prop in A. destruct A as [A _]. congruence. }
    rewrite Hsplit in R.
    destruct (@m_github_url (last_of None pre) owner name t So (conj Nn An) Ht)
      as [st2 [Hm2 [R2 [C1 C2]]]].
    rewrite <- R in Hm2. rewrite Hm in Hm2. inversion Hm2; subst st2.
    rewrite C1, C2.
    eexists. split; [reflexivity|]. split; [reflexivity|]. split.
    + split; [discriminate|]. intros H. exfalso. apply H.
      exists pre, owner, name, t. subst url. rewrite R. repeat split; auto; apply So.
    + intros o r H. inversion H; subst o r.
      exists pre, name, t. subst url. rewrite R. repeat split; auto; try apply So.
      * destruct t as [|c t]; [left; reflexivity|]. right.
        apply not_slash_false in Ht. subst c. exists t. reflexivity.
      * apply replace_dot_git.
  - eexists. split; [reflexivity|]. split; [reflexivity|]. split.
    + split; [intros _|reflexivity].
      intros [pre [owner [name [post [Hs [So Sn]]]]]].
      rewrite exec_from_None in E.
      destruct (@Match_github_url_intro (last_of None pre) owner name post So Sn)
        as [st' HM].
      exact (E pre _ st' Hs HM).
    + intros o r H. discriminate.
Qed.

(** ** Computations that record nothing, or only some events *)

Lemma silent_ret A (a : A) : silent (ret a).
Proof. exists (Ret a). reflexivity. Qed.

Lemma silent_throw A e : silent (@throw A e).
Proof. exists (Throw e). reflexivity. Qed.

Lemma silent_lift A (o : outcome A) : silent (lift o).
Proof. exists o. reflexivity. Qed.

Lemma silent_type_error env A e : silent (@type_error_ env A e).
Proof. apply silent_throw. Qed.

Lemma silent_bind A B (c : M A) (k : A -> M B) :
  silent c -> (forall a, silent (k a)) -> silent (bind c k).
Proof.
  intros [o Ho] Hk. destruct o as [a|e].
  - destruct (Hk a) as [o' Ho']. exists o'. intros tr.
    unfold bind. rewrite Ho. apply Ho'.
  - exists (Throw e). intros tr. unfold bind. rewrite Ho. reflexivity.
Qed.

Lemma silent_try A (c : M A) (h : string -> M A) :
  silent c -> (forall e, silent (h e)) -> silent (try_catch c h).
Proof.
  intros [o Ho] Hh. destruct o as [a|e].
  - exists (Ret a). intros tr. unfold try_catch. rewrite Ho. reflexivity.
  - destruct (Hh e) as [o' Ho']. exists o'. intros tr.
    unfold try_catch. rewrite Ho. apply Ho'.
Qed.

Lemma silent_get env v key : silent (get env v key).
Proof. destruct v; simpl; first [apply silent_ret | apply silent_throw]. Qed.

Lemma silent_toStringM env v : silent (toStringM env v).
Proof. unfold toStringM. destruct (toString v); [apply silent_ret | apply silent_throw]. Qed.

Lemma silent_string_receiver env v method : silent (string_receiver env v method).
Proof. destruct v; simpl; first [apply silent_ret | apply silent_throw]. Qed.

Lemma silent_optional_filter env f v : silent (optional_filter env f v).
Proof. destruct v; simpl; first [apply silent_ret | apply silent_throw]. Qed.

Lemma silent_join_values env sep items : silent (join_values env sep items).
Proof.
  induction items as [|x items IH]; simpl; [apply silent_ret|].
  apply silent_bind.
  - destruct x; first [apply silent_ret | apply silent_toStringM].
  - intros s. destruct items; [apply silent_ret|].
    apply silent_bind; [exact IH | intros; apply silent_ret].
Qed.

Lemma silent_filterM A (f : A -> M bool) l :
  (forall a, silent (f a)) -> silent (filterM f l).
Proof.
  intros Hf. induction l as [|x l IH]; simpl; [apply silent_ret|].
  apply silent_bind; [apply Hf | intros keep].
  apply silent_bind; [exact IH | intros; apply silent_ret].
Qed.

Ltac silence :=
  repeat first
    [ apply silent_ret | apply silent_throw | apply silent_lift
    | apply silent_type_error
    | apply silent_get | apply silent_toStringM | apply silent_string_receiver
    | apply silent_join_values | apply silent_optional_filter
    | apply silent_filterM; intros ?
    | apply silent_bind; [|intros ?]
    | apply silent_try; [|intros ?]
    | match goal with
      | |- silent (if ?b then _ else _) => destruct b
      | |- silent (match ?x with _ => _ end) => destruct x
      end ].

Lemma silent_parseGitHubUrl env url : silent (parseGitHubUrl env url).
Proof. unfold parseGitHubUrl. silence. Qed.

Lemma silent_isValidPluginId env id : silent (isValidPluginId env id).
Proof. unfold isValidPluginId. silence. Qed.

Lemma silent_isValidSemver env v : silent (isValidSemver env v).
Proof. unfold isValidSemver. silence. Qed.

Lemma silent_row env check : silent (row env check).
Proof. unfold row. silence. Qed.

Lemma silent_rows env checks_ : forall md, silent (rows env checks_ md).
Proof.
  induction checks_ as [|c cs IH]; intros md; simpl; [apply silent_ret|].
  apply silent_bind; [apply silent_row | intros r; apply IH].
Qed.

Lemma silent_listed_permissions env v : silent (listed_permissions env v).
Proof. unfold listed_permissions. silence. Qed.

Lemma silent_toMarkdown env r : silent (toMarkdown env r).
Proof.
  unfold toMarkdown.
  apply silent_bind; [apply silent_toStringM | intros id].
  apply silent_bind; [apply silent_rows | intros md].
  cbv zeta.
  destruct (truthy (manifest r)); [|apply silent_ret].
  repeat (apply silent_bind;
          [first [apply silent_get | apply silent_toStringM
                 | apply silent_listed_permissions] | intros ?]).
  silence.
Qed.

Lemma silent_markdowns env results : silent (markdowns env results).
Proof.
  induction results as [|r rs IH]; simpl; [apply silent_ret|].
  apply silent_bind; [apply silent_toMarkdown | intros md].
  apply silent_bind; [exact IH | intros; apply silent_ret].
Qed.

Lemma silent_by_name env a b : silent (Build.by_name env a b).
Proof. unfold Build.by_name. silence. Qed.

Lemma silent_insert env x sorted :
  silent (Build.insert (Build.by_name env) x sorted).
Proof.
  induction sorted as [|y l IH]; simpl; [apply silent_ret|].
  apply silent_bind; [apply silent_by_name | intros order].
  destruct (order <? 0)%Z; [apply silent_ret|].
  apply silent_bind; [exact IH | intros; apply silent_ret].
Qed.

Lemma silent_sort_into env pending : forall sorted,
  silent (Build.sort_into (Build.by_name env) sorted pending).
Proof.
  induction pending as [|x l IH]; intros sorted; simpl; [apply silent_ret|].
  apply silent_bind; [apply silent_insert | intros; apply IH].
Qed.

(** adds_only *)
Lemma adds_silent A P (c : M A) : silent c -> adds_only P c.
Proof.
  intros [o Ho] tr. exists o, []. rewrite app_nil_r. split; [apply Ho | constructor].
Qed.

Lemma adds_call A P e (answer : outcome A) : P e -> adds_only P (call e answer).
Proof. intros He tr. exists answer, [e]. split; [reflexivity | auto]. Qed.

Lemma adds_bind A B P (c : M A) (k : A -> M B) :
  adds_only P c -> (forall a, adds_only P (k a)) -> adds_only P (bind c k).
Proof.
  intros Hc Hk tr. destruct (Hc tr) as [o [more [E F]]].
  unfold bind. rewrite E. destruct o as [a|e].
  - destruct (Hk a (tr ++ more)%list) as [o' [more' [E' F']]].
    exists o', (more ++ more')%list. rewrite app_assoc. split; [exact E'|].
    apply Forall_app; auto.
  - exists (Throw e), more. auto.
Qed.

Lemma adds_try A P (c : M A) (h : string -> M A) :
  adds_only P c -> (forall e, adds_only P (h e)) -> adds_only P (try_catch c h).
Proof.
  intros Hc Hh tr. destruct (Hc tr) as [o [more [E F]]].
  unfold try_catch. rewrite E. destruct o as [a|e].
  - exists (Ret a), more. auto.
  - destruct (Hh e (tr ++ more)%list) as [o' [more' [E' F']]].
    exists o', (more ++ more')%list. rewrite app_assoc. split; [exact E'|].
    apply Forall_app; auto.
Qed.

Lemma adds_now env P : P Now -> adds_only P (now env).
Proof. intros H tr. eexists _, [Now]. split; [reflexivity | auto]. Qed.

(** ** The requests of fetchFromGitHub and fetchManifest *)

Ltac one_request owner repo branch path :=
  eexists _, [_]; split; [reflexivity|]; split; [simpl; lia|];
  split; [constructor; [|constructor]; exists owner, repo, branch, path; reflexivity|].

Ltac no_request :=
  eexists _, []; rewrite app_nil_r; split; [reflexivity|]; split; [simpl; lia|];
  split; [constructor|]; intros; discriminate.

Lemma fetchFromGitHub_once env repoUrl filePath branch tr :
  branch <> "main" ->
  exists o more,
    fetchFromGitHub env repoUrl filePath branch tr = (o, (tr ++ more)%list) /\
    (List.length more <= 1)%nat /\ Forall raw_request more /\
    (forall s, o = Ret s -> exists r, answered_by env more r /\ s = body r).
Proof.
  intros Hb. rewrite fetchFromGitHub_equation_1.
  destruct (silent_parseGitHubUrl env repoUrl) as [o Ho].
  unfold bind at 1. rewrite Ho.
  destruct o as [[[owner repo]|]|e].
  - destruct (silent_toStringM env filePath) as [p Hp].
    unfold bind at 1. rewrite Hp. destruct p as [path|e]; [|no_request].
    unfold bind, call.
    rewrite ?rawUrl_raw_file, ?rawUrl_same.
    destruct (fetch env (raw_file owner repo branch path)) as [r|e] eqn:F.
    + destruct (ok r) eqn:K; simpl.
      * one_request owner repo branch path.
        intros s H. inversion H; subst s. exists r. split; [|reflexivity].
        exists [], (raw_file owner repo branch path). auto.
      * destruct (string_dec branch "main"); [contradiction|].
        one_request owner repo branch path. intros; discriminate.
    + one_request owner repo branch path. intros; discriminate.
  - destruct (silent_toStringM env repoUrl) as [p Hp].
    unfold bind. rewrite Hp. destruct p as [u|e]; no_request.
  - no_request.
Qed.

Lemma fetchManifest_once env repoUrl branch tr :
  branch <> "main" ->
  exists o more,
    Build.fetchManifest env repoUrl branch tr = (o, (tr ++ more)%list) /\
    (List.length more <= 1)%nat /\ Forall raw_request more /\
    (forall v, o = Ret v ->
       exists r, answered_by env more r /\ JSON_parse env (body r) = Ret v).
Proof.
  intros Hb. rewrite Build.fetchManifest_equation_1.
  destruct (silent_parseGitHubUrl env repoUrl) as [o Ho].
  change (Build.parseGitHubUrl env repoUrl) with (parseGitHubUrl env repoUrl).
  unfold bind at 1. rewrite Ho.
  destruct o as [[[owner repo]|]|e].
  - unfold bind, call. rewrite rawUrl_same.
    destruct (fetch env (raw_file owner repo branch "manifest.json")) as [r|e] eqn:F.
    + destruct (ok r) eqn:K; simpl.
      * unfold lift.
        one_request owner repo branch "manifest.json".
        intros v H. exists r. split; [|exact H].
        exists [], (raw_file owner repo branch "manifest.json"). auto.
      * destruct (string_dec branch "main"); [contradiction|].
        one_request owner repo branch "manifest.json". intros; discriminate.
    + one_request owner repo branch "manifest.json". intros; discriminate.
  - destruct (silent_toStringM env repoUrl) as [p Hp].
    unfold bind. rewrite Hp. destruct p as [u|e]; no_request.
  - no_request.
Qed.

Lemma master_not_main : "master" <> "main".
Proof. discriminate. Qed.

Lemma fetchFromGitHub_requests env repoUrl filePath branch tr :
  exists o more,
    fetchFromGitHub env repoUrl filePath branch tr = (o, (tr ++ more)%list) /\
    (List.length more <= 2)%nat /\ Forall raw_request more /\
    (forall s, o = Ret s -> exists r, answered_by env more r /\ s = body r).
Proof.
  destruct (string_dec branch "main") as [->|Hb].
  + rewrite fetchFromGitHub_equation_1.
    destruct (silent_parseGitHubUrl env repoUrl) as [o Ho].
    unfold bind at 1. rewrite Ho.
    destruct o as [[[owner repo]|]|e].
    * destruct (silent_toStringM env filePath) as [p Hp].
      unfold bind at 1. rewrite Hp. destruct p as [path|e].
      2:{ eexists _, []. rewrite app_nil_r. split; [reflexivity|].
          split; [simpl; lia|]. split; [constructor|]. intros; discriminate. }
      unfold bind at 1. unfold call at 1.
      rewrite ?rawUrl_raw_file, ?rawUrl_same.
      destruct (fetch env (raw_file owner repo "main" path)) as [r|e] eqn:F.
      -- destruct (ok r) eqn:K; cbn [negb].
         ++ eexists _, [_]. split; [reflexivity|]. split; [simpl; lia|].
            split; [constructor; [|constructor]; exists owner, repo, "main", path; reflexivity|].
            intros s H. inversion H; subst s. exists r. split; [|reflexivity].
            exists [], (raw_file owner repo "main" path). auto.
         ++ destruct (string_dec "main" "main") as [_|N]; [|congruence].
            destruct (@fetchFromGitHub_once env repoUrl filePath "master"
                        (tr ++ [Fetch (raw_file owner repo "main" path)])%list
                        master_not_main)
              as [o [more [E [L [R A]]]]].
            exists o, (Fetch (raw_file owner repo "main" path) :: more).
            split; [rewrite E; rewrite <- app_assoc; reflexivity|].
            split; [simpl; lia|].
            split; [constructor; [exists owner, repo, "main", path; reflexivity | exact R]|].
            intros s H. destruct (A s H) as [r2 [[earlier [url [M [F2 K2]]]] B]].
            exists r2. split; [|exact B].
            exists (Fetch (raw_file owner repo "main" path) :: earlier), url.
            rewrite M. auto.
      -- eexists _, [_]. split; [reflexivity|]. split; [simpl; lia|].
         split; [constructor; [|constructor]; exists owner, repo, "main", path; reflexivity|].
         intros; discriminate.
    * destruct (silent_toStringM env repoUrl) as [p Hp].
      unfold bind. rewrite Hp.
      destruct p as [u|e]; eexists _, []; rewrite app_nil_r;
        (split; [reflexivity|]); (split; [simpl; lia|]);
        (split; [constructor|]); intros; discriminate.
    * eexists _, []. rewrite app_nil_r. split; [reflexivity|].
      split; [simpl; lia|]. split; [constructor|]. intros; discriminate.
  + destruct (@fetchFromGitHub_once env repoUrl filePath branch tr Hb)
      as [o [more [E [L [R A]]]]].
    exists o, more. repeat split; auto.
Qed.

Lemma fetchManifest_requests env repoUrl branch tr :
  exists o more,
    Build.fetchManifest env repoUrl branch tr = (o, (tr ++ more)%list) /\
    (List.length more <= 2)%nat /\ Forall raw_request more /\
    (forall v, o = Ret v ->
       exists r, answered_by env more r /\ JSON_parse env (body r) = Ret v).
Proof.
  destruct (string_dec branch "main") as [->|Hb].
  + rewrite Build.fetchManifest_equation_1.
    destruct (silent_parseGitHubUrl env repoUrl) as [o Ho].
    change (Build.parseGitHubUrl env repoUrl) with (parseGitHubUrl env repoUrl).
    unfold bind at 1. rewrite Ho.
    destruct o as [[[owner repo]|]|e].
    * unfold bind at 1. unfold call at 1. rewrite rawUrl_same.
      destruct (fetch env (raw_file owner repo "main" "manifest.json")) as [r|e] eqn:F.
      -- destruct (ok r) eqn:K; cbn [negb].
         ++ unfold lift. eexists _, [_]. split; [reflexivity|]. split; [simpl; lia|].
            split; [constructor; [|constructor];
                    exists owner, repo, "main", "manifest.json"; reflexivity|].
            intros v H. exists r. split; [|exact H].
            exists [], (raw_file owner repo "main" "manifest.json"). auto.
         ++ destruct (string_dec "main" "main") as [_|N]; [|congruence].
            destruct (@fetchManifest_once env repoUrl "master"
                        (tr ++ [Fetch (raw_file owner repo "main" "manifest.json")])%list
                        master_not_main)
              as [o [more [E [L [R A]]]]].
            exists o, (Fetch (raw_file owner repo "main" "manifest.json") :: more).
            split; [rewrite E; rewrite <- app_assoc; reflexivity|].
            split; [simpl; lia|].
            split; [constructor;
                    [exists owner, repo, "main", "manifest.json"; reflexivity | exact R]|].
            intros v H. destruct (A v H) as [r2 [[earlier [url [M [F2 K2]]]] B]].
            exists r2. split; [|exact B].
            exists (Fetch (raw_file owner repo "main" "manifest.json") :: earlier), url.
            rewrite M. auto.
      -- eexists _, [_]. split; [reflexivity|]. split; [simpl; lia|].
         split; [constructor; [|constructor];
                 exists owner, repo, "main", "manifest.json"; reflexivity|].
         intros; discriminate.
    * destruct (silent_toStringM env repoUrl) as [p Hp].
      unfold bind. rewrite Hp.
      destruct p as [u|e]; eexists _, []; rewrite app_nil_r;
        (split; [reflexivity|]); (split; [simpl; lia|]);
        (split; [constructor|]); intros; discriminate.
    * eexists _, []. rewrite app_nil_r. split; [reflexivity|].
      split; [simpl; lia|]. split; [constructor|]. intros; discriminate.
  + destruct (@fetchManifest_once env repoUrl branch tr Hb)
      as [o [more [E [L [R A]]]]].
    exists o, more. repeat split; auto.
Qed.

(** Property X2.  Whatever its arguments, [fetchFromGitHub] makes at most
    two requests, each for a raw file of a repository, and keeps the events
    recorded before; when it returns a text, that text is the body of the
    last response, which was successful.  The same holds for [fetchManifest],
    whose result is that body parsed. *)
Theorem at_most_two_requests (env : Env) (repoUrl filePath : value)
  (branch : string) (tr : list event) :
  (exists o more,
     fetchFromGitHub env repoUrl filePath branch tr = (o, (tr ++ more)%list) /\
     (List.length more <= 2)%nat /\ Forall raw_request more /\
     (forall s, o = Ret s -> exists r, answered_by env more r /\ s = body r)) /\
  (exists o more,
     Build.fetchManifest env repoUrl branch tr = (o, (tr ++ more)%list) /\
     (List.length more <= 2)%nat /\ Forall raw_request more /\
     (forall v, o = Ret v ->
        exists r, answered_by env more r /\ JSON_parse env (body r) = Ret v)).
Proof.
  split; [apply fetchFromGitHub_requests | apply fetchManifest_requests].
Qed.

(** ** What a validation consults *)

Lemma invalid_url_is_not_fetched (env : Env) (url : string)
  (filePath : value) (branch : string) (tr : list event) :
  ~ names_repository url ->
  fetchFromGitHub env (VStr url) filePath branch tr =
    (Throw ("Invalid GitHub URL: " ++ url), tr) /\
  Build.fetchManifest env (VStr url) branch tr =
    (Throw ("Invalid GitHub URL: " ++ url), tr).
Proof.
  intros H. split.
  - rewrite fetchFromGitHub_equation_1. unfold bind at 1.
    rewrite (parseGitHubUrl_None env url tr H). reflexivity.
  - rewrite Build.fetchManifest_equation_1. unfold bind at 1.
    change (Build.parseGitHubUrl env (VStr url) tr)
      with (parseGitHubUrl env (VStr url) tr).
    rewrite (parseGitHubUrl_None env url tr H). reflexivity.
Qed.

(** trace discipline of the validator *)
Lemma adds_fetchManifest env P repoUrl branch :
  (forall ev, raw_request ev -> P ev) ->
  adds_only P (Build.fetchManifest env repoUrl branch).
Proof.
  intros HP tr.
  destruct (fetchManifest_requests env repoUrl branch tr)
    as [o [more [E [_ [R _]]]]].
  exists o, more. split; [exact E|]. eapply Forall_impl; eauto.
Qed.

Lemma raw_request_Fetch ev : raw_request ev -> exists u, ev = Fetch u.
Proof. intros [o [r [b [p H]]]]. eauto. Qed.

Lemma consulted_raw path dir ev : raw_request ev -> consulted path dir ev.
Proof.
  intros H. destruct (raw_request_Fetch _ H) as [u ->]. exact H.
Qed.

(** ** Computations that do not depend on the events recorded so far *)

Lemma steady_adds A P (c : M A) : steady P c -> adds_only P c.
Proof. intros [o [more [F H]]] tr. exists o, more. auto. Qed.

Lemma steady_silent A P (c : M A) : silent c -> steady P c.
Proof.
  intros [o H]. exists o, []. split; [constructor|].
  intros tr. rewrite app_nil_r. apply H.
Qed.

Lemma steady_ext A P (c c' : M A) :
  (forall tr, c tr = c' tr) -> steady P c' -> steady P c.
Proof.
  intros E [o [more [F H]]]. exists o, more. split; [exact F|].
  intros tr. rewrite E. apply H.
Qed.

Lemma steady_call A P e (answer : outcome A) : P e -> steady P (call e answer).
Proof. intros He. exists answer, [e]. split; [auto | reflexivity]. Qed.

Lemma steady_bind A B P (c : M A) (k : A -> M B) :
  steady P c -> (forall a, steady P (k a)) -> steady P (bind c k).
Proof.
  intros [o [more [F H]]] Hk. destruct o as [a|e].
  - destruct (Hk a) as [o' [more' [F' H']]].
    exists o', (more ++ more')%list. split; [apply Forall_app; auto|].
    intros tr. unfold bind. rewrite H, H', app_assoc. reflexivity.
  - exists (Throw e), more. split; [exact F|].
    intros tr. unfold bind. rewrite H. reflexivity.
Qed.

Lemma steady_try A P (c : M A) (h : string -> M A) :
  steady P c -> (forall e, steady P (h e)) -> steady P (try_catch c h).
Proof.
  intros [o [more [F H]]] Hh. destruct o as [a|e].
  - exists (Ret a), more. split; [exact F|].
    intros tr. unfold try_catch. rewrite H. reflexivity.
  - destruct (Hh e) as [o' [more' [F' H']]].
    exists o', (more ++ more')%list. split; [apply Forall_app; auto|].
    intros tr. unfold try_catch. rewrite H, H', app_assoc. reflexivity.
Qed.

Lemma steady_readJSON env P path : P (ReadFile path) -> steady P (readJSON env path).
Proof.
  intros H. unfold readJSON. apply steady_bind; [apply steady_call; exact H|].
  intros content. apply steady_silent, silent_lift.
Qed.

Ltac steadily :=
  repeat first
    [ apply steady_silent;
      first [ apply silent_ret | apply silent_throw | apply silent_lift
            | apply silent_type_error | apply silent_get | apply silent_toStringM
            | apply silent_string_receiver | apply silent_join_values
            | apply silent_optional_filter | apply silent_isValidSemver
            | apply silent_isValidPluginId | apply silent_parseGitHubUrl
            | apply silent_toMarkdown | apply silent_markdowns ]
    | apply steady_bind; [|intros ?]
    | apply steady_try; [|intros ?]
    | match goal with
      | |- steady _ (if ?b then _ else _) => destruct b
      | |- steady _ (match ?x with _ => _ end) => destruct x
      end ].

Lemma steady_fetch_once env repoUrl filePath branch :
  branch <> "main" ->
  steady raw_request (fun tr => fetchFromGitHub env repoUrl filePath branch tr).
Proof.
  intros Hb.
  eapply steady_ext; [intros tr; apply fetchFromGitHub_equation_1|].
  apply steady_bind; [steadily|]. intros [[owner repo]|]; [|steadily].
  apply steady_bind; [steadily|]. intros path.
  apply steady_bind.
  { apply steady_call. exists owner, repo, branch, path. reflexivity. }
  intros response. destruct (negb (ok response)); [|steadily].
  destruct (string_dec branch "main"); [contradiction | steadily].
Qed.

Lemma steady_fetchFromGitHub env P repoUrl filePath branch :
  (forall ev, raw_request ev -> P ev) ->
  steady P (fetchFromGitHub env repoUrl filePath branch).
Proof.
  intros HP.
  assert (S : steady raw_request (fetchFromGitHub env repoUrl filePath branch)).
  { destruct (string_dec branch "main") as [->|Hb].
    - eapply steady_ext; [intros tr; apply fetchFromGitHub_equation_1|].
      apply steady_bind; [steadily|]. intros [[owner repo]|]; [|steadily].
      apply steady_bind; [steadily|]. intros path.
      apply steady_bind.
      { apply steady_call. exists owner, repo, "main", path. reflexivity. }
      intros response. destruct (negb (ok response)); [|steadily].
      destruct (string_dec "main" "main"); [|steadily].
      apply steady_fetch_once. discriminate.
    - apply (steady_fetch_once env repoUrl filePath branch Hb). }
  destruct S as [o [more [F H]]]. exists o, more. split; [|exact H].
  eapply Forall_impl; eauto.
Qed.

Lemma steady_advisories env path dir submission manifest_ result :
  steady (consulted path dir) (advisories env submission manifest_ result).
Proof.
  unfold advisories.
  do 5 (apply steady_bind; [solve [steadily]|intros ?]).
  cbv zeta.
  apply steady_try; [|intros; steadily].
  do 2 (apply steady_bind; [solve [steadily]|intros ?]).
  apply steady_bind; [|intros; steadily].
  apply steady_fetchFromGitHub, consulted_raw.
Qed.

Lemma steady_checkManifest env path dir submission manifest_ result :
  steady (consulted path dir) (checkManifest env submission manifest_ result).
Proof.
  unfold checkManifest.
  apply steady_bind.
  { apply steady_silent, silent_filterM. intros f. silence. }
  intros missing. destruct (0 <? List.length missing)%nat; [steadily|].
  cbv zeta.
  do 9 (apply steady_bind; [solve [steadily]|intros ?]).
  apply steady_advisories.
Qed.

Lemma steady_checkRepo env path dir submission result :
  steady (consulted path dir) (checkRepo env submission result).
Proof.
  unfold checkRepo.
  apply steady_bind.
  - apply steady_try; [|intros; steadily].
    apply steady_bind; [steadily|intros repo].
    apply steady_bind; [apply steady_fetchFromGitHub, consulted_raw|intros content].
    steadily.
  - intros [[manifest_ r]|r]; [apply steady_checkManifest | steadily].
Qed.

Lemma steady_checkDuplicate_loop env path dir id files :
  Forall (fun f => endsWith ".json" f = true) files ->
  steady (consulted path dir) (checkDuplicate_loop env id dir files).
Proof.
  induction 1 as [|file files Hf _ IH]; simpl; [steadily|].
  apply steady_bind.
  - apply steady_try; [|intros; steadily].
    apply steady_bind; [|intros; steadily].
    apply steady_readJSON. right. exists file. auto.
  - intros found. destruct found; [steadily | exact IH].
Qed.

Lemma filter_Forall A (f : A -> bool) l : Forall (fun x => f x = true) (filter f l).
Proof.
  apply Forall_forall. intros x H. apply filter_In in H. apply H.
Qed.

Lemma steady_checkDuplicate env path dir id :
  steady (consulted path dir) (checkDuplicate env id dir).
Proof.
  unfold checkDuplicate. apply steady_bind.
  - apply steady_call. reflexivity.
  - intros files. apply steady_checkDuplicate_loop, filter_Forall.
Qed.

Lemma steady_validatePlugin env path dir :
  steady (consulted path dir) (validatePlugin env path dir).
Proof.
  unfold validatePlugin. cbv zeta.
  apply steady_bind.
  { apply steady_try; [|intros; steadily].
    apply steady_bind; [|intros; steadily].
    apply steady_readJSON. left. reflexivity. }
  intros [[submission r]|r]; [|steadily].
  apply steady_bind.
  { apply steady_silent, silent_filterM. intros f. silence. }
  intros missing. destruct (0 <? List.length missing)%nat; [steadily|].
  apply steady_bind; [steadily|intros id].
  apply steady_bind; [steadily|intros valid].
  destruct (negb valid); [steadily|].
  apply steady_bind; [steadily|intros id_text].
  apply steady_bind; [apply steady_checkDuplicate|intros isDuplicate].
  apply steady_checkRepo.
Qed.

Lemma consulted_not_written path dir more :
  Forall (consulted path dir) more -> existsb writes more = false.
Proof.
  induction 1 as [|ev more H _ IH]; simpl; [reflexivity|].
  rewrite IH. destruct ev; simpl in *; auto. contradiction.
Qed.

(** Property X4.  A validation does not depend on the events recorded
    before it: it has one outcome and adds one sequence of events, whatever
    came before.  These events are readings of the submission file, of the
    listing of the directory and of files of the directory whose name ends
    in [.json], and requests for raw files of repositories.  Nothing is
    written and the clock is not read. *)
Theorem validation_only_reads (env : Env) (path dir : string) :
  exists o more,
    Forall (consulted path dir) more /\
    existsb writes more = false /\
    forall tr, validatePlugin env path dir tr = (o, (tr ++ more)%list).
Proof.
  destruct (steady_validatePlugin env path dir) as [o [more [F H]]].
  exists o, more. split; [exact F|]. split; [|exact H].
  exact (consulted_not_written path dir more F).
Qed.

(** ** What the builder reads and writes *)

Lemma files_read_app tr1 tr2 :
  files_read (tr1 ++ tr2) = (files_read tr1 ++ files_read tr2)%list.
Proof.
  induction tr1 as [|ev tr1 IH]; simpl; [reflexivity|].
  destruct ev; simpl; rewrite IH; reflexivity.
Qed.

Lemma files_read_none more :
  Forall request_or_clock more -> files_read more = [] /\ existsb writes more = false.
Proof.
  induction 1 as [|ev more H _ [IH1 IH2]]; simpl; [auto|].
  destruct H as [H| ->]; [|auto].
  destruct (raw_request_Fetch _ H) as [u ->]. auto.
Qed.

Lemma adds_entry env P manifest_ submission :
  P Now -> adds_only P (Build.entry env manifest_ submission).
Proof.
  intros HP. unfold Build.entry.
  do 14 (apply adds_bind; [apply adds_silent, silent_get|intros ?]).
  apply adds_bind; [apply adds_now; exact HP|intros ?].
  apply adds_silent, silent_ret.
Qed.

(** Computations whose first event is [e]. *)
Lemma first_readJSON env P path tr :
  exists o more,
    readJSON env path tr = (o, (tr ++ ReadFile path :: more)%list) /\ Forall P more.
Proof.
  unfold readJSON, bind, call, lift.
  destruct (readFileSync env path) as [content|e]; eexists _, []; split;
    first [reflexivity | constructor].
Qed.

Lemma first_bind A B P e (c : M A) (k : A -> M B) :
  (forall tr, exists o more, c tr = (o, (tr ++ e :: more)%list) /\ Forall P more) ->
  (forall a, adds_only P (k a)) ->
  forall tr, exists o more,
    bind c k tr = (o, (tr ++ e :: more)%list) /\ Forall P more.
Proof.
  intros Hc Hk tr. destruct (Hc tr) as [o [more [E F]]].
  unfold bind. rewrite E. destruct o as [a|m].
  - destruct (Hk a (tr ++ e :: more)%list) as [o' [more' [E' F']]].
    exists o', (more ++ more')%list. rewrite E', <- app_assoc. split; [reflexivity|].
    apply Forall_app; auto.
  - exists (Throw m), more. auto.
Qed.

Lemma first_try A P e (c : M A) (h : string -> M A) :
  (forall tr, exists o more, c tr = (o, (tr ++ e :: more)%list) /\ Forall P more) ->
  (forall m, adds_only P (h m)) ->
  forall tr, exists o more,
    try_catch c h tr = (o, (tr ++ e :: more)%list) /\ Forall P more.
Proof.
  intros Hc Hh tr. destruct (Hc tr) as [o [more [E F]]].
  unfold try_catch. rewrite E. destruct o as [a|m].
  - exists (Ret a), more. auto.
  - destruct (Hh m (tr ++ e :: more)%list) as [o' [more' [E' F']]].
    exists o', (more ++ more')%list. rewrite E', <- app_assoc. split; [reflexivity|].
    apply Forall_app; auto.
Qed.

(** One iteration reads its file first and no other file. *)
Lemma process_trace env file acc tr :
  exists acc' more,
    Build.process env file acc tr =
      (Ret acc', (tr ++ ReadFile (path_join (PLUGINS_DIR env) file) :: more)%list) /\
    Forall request_or_clock more.
Proof.
  destruct (process_cases env file acc tr) as [acc' [tr' [E _]]].
  assert (T : exists o more,
            Build.process env file acc tr =
              (o, (tr ++ ReadFile (path_join (PLUGINS_DIR env) file) :: more)%list) /\
            Forall request_or_clock more).
  { unfold Build.process. apply first_bind.
    - apply first_try; [|intros; apply adds_silent, silent_ret].
      apply first_bind; [apply first_readJSON|intros submission].
      apply adds_bind; [apply adds_silent, silent_get|intros repo].
      apply adds_bind; [apply adds_fetchManifest; intros; left; assumption|intros manifest].
      apply adds_bind; [apply adds_entry; right; reflexivity|intros plugin].
      apply adds_silent, silent_ret.
    - intros [[manifest plugin]|e]; [|apply adds_silent, silent_ret].
      apply adds_try; [|intros; apply adds_silent, silent_ret].
      do 4 (apply adds_bind;
            [apply adds_silent; first [apply silent_get | apply silent_toStringM]
            |intros ?]).
      apply adds_silent, silent_ret. }
  destruct T as [o [more [T F]]]. rewrite T in E. inversion E; subst.
  exists acc', more. auto.
Qed.

Lemma for_each_file_trace env files : forall acc tr,
  exists acc' more,
    Build.for_each_file env files acc tr = (Ret acc', (tr ++ more)%list) /\
    files_read more = map (path_join (PLUGINS_DIR env)) files /\
    existsb writes more = false.
Proof.
  induction files as [|file files IH]; intros acc tr; simpl.
  - exists acc, []. rewrite app_nil_r. auto.
  - destruct (process_trace env file acc tr) as [acc1 [more1 [E1 F1]]].
    destruct (IH acc1 (tr ++ ReadFile (path_join (PLUGINS_DIR env) file) :: more1)%list)
      as [acc2 [more2 [E2 [R2 W2]]]].
    exists acc2, (ReadFile (path_join (PLUGINS_DIR env) file) :: more1 ++ more2)%list.
    erewrite bind_Ret by exact E1. rewrite E2.
    destruct (files_read_none _ F1) as [R1 W1].
    split; [rewrite <- app_assoc; reflexivity|].
    simpl. rewrite files_read_app, existsb_app, R1, R2, W1, W2. auto.
Qed.

(** Property X20.  When the directory can be listed, [buildDirectory]
    first lists it, then reads each of its files ending in [.json] once, in
    the order of the listing, and no other file.  It writes nothing when it
    throws; when it returns, its last event is its only writing, that of the
    output file. *)
Theorem builder_reads_each_submission_once (env : Env) (files : list string)
  (tr : list event) :
  readdirSync env (PLUGINS_DIR env) = Ret files ->
  exists o more,
    Build.buildDirectory env tr =
      (o, (tr ++ ReadDir (PLUGINS_DIR env) :: more)%list) /\
    files_read more =
      map (path_join (PLUGINS_DIR env)) (filter (endsWith ".json") files) /\
    ((exists e, o = Throw e /\ existsb writes more = false) \/
     (exists result earlier document,
        o = Ret result /\
        more = (earlier ++ [WriteFile (OUTPUT_FILE env) document])%list /\
        existsb writes earlier = false)).
Proof.
  intros Hdir. unfold Build.buildDirectory.
  unfold bind at 1. unfold call at 1. rewrite Hdir.
  destruct (for_each_file_trace env (filter (endsWith ".json") files)
              (Build.Collected [] []) (tr ++ [ReadDir (PLUGINS_DIR env)])%list)
    as [acc [more [E [R W]]]].
  unfold bind at 1. rewrite E.
  destruct (silent_sort_into env (Build.plugins acc) []) as [o Ho].
  unfold bind at 1. unfold Build.sort. rewrite Ho.
  destruct o as [sorted|e].
  - unfold bind, now, writeJSON, ret.
    destruct (writeFileSync env (OUTPUT_FILE env) _) as [done|e].
    + eexists _, (more ++ [Now; WriteFile (OUTPUT_FILE env) _])%list.
      split; [rewrite <- !app_assoc; reflexivity|].
      split.
      * rewrite files_read_app. simpl. rewrite app_nil_r. exact R.
      * right. eexists _, (more ++ [Now])%list, _.
        split; [reflexivity|]. split; [rewrite <- app_assoc; reflexivity|].
        rewrite existsb_app, W. reflexivity.
    + exists (Throw e), (more ++ [Now])%list.
      split; [rewrite <- !app_assoc; reflexivity|].
      split.
      * rewrite files_read_app. simpl. rewrite app_nil_r. exact R.
      * left. exists e. split; [reflexivity|].
        rewrite existsb_app, W. reflexivity.
  - exists (Throw e), more.
    split; [rewrite <- app_assoc; reflexivity|].
    split; [exact R|]. left. eauto.
Qed.

(** Property X24.  The builder script ends with status 0 after writing the
    output file as its last event and nothing before, or with status 1
    without having written anything. *)
Theorem build_exit_status (env : Env) (tr : list event) :
  exists t more,
    Build.script env tr = (Ret t, (tr ++ more)%list) /\
    ((t = Exit 1 /\ existsb writes more = false) \/
     (t = Completed /\
      exists earlier document,
        more = (earlier ++ [WriteFile (OUTPUT_FILE env) document])%list /\
        existsb writes earlier = false)).
Proof.
  unfold Build.script, try_catch, bind, Build.buildDirectory.
  unfold bind at 1. unfold call at 1.
  destruct (readdirSync env (PLUGINS_DIR env)) as [files|e].
  - destruct (for_each_file_trace env (filter (endsWith ".json") files)
                (Build.Collected [] []) (tr ++ [ReadDir (PLUGINS_DIR env)])%list)
      as [acc [more [E [_ W]]]].
    unfold bind at 1. rewrite E.
    destruct (silent_sort_into env (Build.plugins acc) []) as [o Ho].
    unfold bind at 1. unfold Build.sort. rewrite Ho.
    destruct o as [sorted|e].
    + unfold bind, now, writeJSON, ret.
      destruct (writeFileSync env (OUTPUT_FILE env) _) as [done|e].
      * eexists Completed,
          (ReadDir (PLUGINS_DIR env) :: more ++
             [Now; WriteFile (OUTPUT_FILE env) _])%list.
        split; [rewrite <- !app_assoc; reflexivity|].
        right. split; [reflexivity|].
        eexists (ReadDir (PLUGINS_DIR env) :: more ++ [Now])%list, _.
        split; [simpl; rewrite <- app_assoc; reflexivity|].
        simpl. rewrite existsb_app, W. reflexivity.
      * exists (Exit 1), (ReadDir (PLUGINS_DIR env) :: more ++ [Now])%list.
        split; [rewrite <- !app_assoc; reflexivity|].
        left. split; [reflexivity|].
        simpl. rewrite existsb_app, W. reflexivity.
    + exists (Exit 1), (ReadDir (PLUGINS_DIR env) :: more).
      split; [rewrite <- app_assoc; reflexivity|]. left. simpl. auto.
  - exists (Exit 1), [ReadDir (PLUGINS_DIR env)].
    split; [reflexivity|]. left. auto.
Qed.

(** ** The loop and the sort of the builder *)

Lemma process_counts env file acc tr :
  exists acc' tr' ps es,
    Build.process env file acc tr = (Ret acc', tr') /\
    Build.plugins acc' = (Build.plugins acc ++ ps)%list /\
    Build.errors acc' = (Build.errors acc ++ es)%list /\
    (List.length ps <= 1)%nat /\ (List.length es <= 1)%nat /\
    (1 <= List.length ps + List.length es)%nat /\
    Forall (fun fe => fst fe = file) es.
Proof.
  destruct (process_cases env file acc tr) as [acc' [tr' [E C]]].
  exists acc', tr'.
  destruct C as [[e ->]|[sub [man [t0 [t1 [_ [_ [->|[e ->]]]]]]]]].
  - exists [], [(file, e)]. simpl. rewrite app_nil_r. repeat split; auto.
  - eexists [_], []. simpl. rewrite app_nil_r. repeat split; auto.
  - eexists [_], [(file, e)]. simpl. repeat split; auto.
Qed.

(** Property X21.  The loop of the builder never throws and drops no
    file: there are at most as many new entries, and at most as many new
    errors, as there are files, at least as many of both together, and every
    new error names one of the files. *)
Theorem every_file_is_accounted_for (env : Env) (files : list string) :
  forall (acc : Build.collected) (tr : list event),
  exists acc' tr' ps es,
    Build.for_each_file env files acc tr = (Ret acc', tr') /\
    Build.plugins acc' = (Build.plugins acc ++ ps)%list /\
    Build.errors acc' = (Build.errors acc ++ es)%list /\
    (List.length ps <= List.length files)%nat /\
    (List.length es <= List.length files)%nat /\
    (List.length files <= List.length ps + List.length es)%nat /\
    Forall (fun fe => In (fst fe) files) es.
Proof.
  induction files as [|file files IH]; intros acc tr; simpl.
  - exists acc, tr, [], []. rewrite !app_nil_r. repeat split; auto.
  - destruct (process_counts env file acc tr)
      as [acc1 [tr1 [ps1 [es1 [E [P1 [E1 [Lp [Le [L1 F1]]]]]]]]]].
    destruct (IH acc1 tr1) as [acc2 [tr2 [ps2 [es2 [F [P2 [E2 [Lp2 [Le2 [L2 F2]]]]]]]]]].
    exists acc2, tr2, (ps1 ++ ps2)%list, (es1 ++ es2)%list.
    erewrite bind_Ret by exact E.
    rewrite P2, E2, P1, E1, !app_assoc, !length_app.
    repeat split; auto; try lia.
    apply Forall_app. split.
    + eapply Forall_impl; [|exact F1]. simpl. intros a H. left. auto.
    + eapply Forall_impl; [|exact F2]. simpl. intros a H. right. auto.
Qed.

(** Property X22.  When the name or the version of a fetched manifest
    cannot be converted to text, the file ends up both in the directory and
    among the errors: the entry is pushed before the console line whose
    conversion fails. *)
Theorem unprintable_entry_is_listed_and_reported (env : Env) (file content : string)
  (submission manifest_ : value) (acc : Build.collected) (tr tr1 : list event) :
  readFileSync env (path_join (PLUGINS_DIR env) file) = Ret content ->
  JSON_parse env content = Ret submission ->
  present submission ->
  Build.fetchManifest env (field submission "repo") "main"
    (tr ++ [ReadFile (path_join (PLUGINS_DIR env) file)])%list =
    (Ret manifest_, tr1) ->
  present manifest_ ->
  toString (field manifest_ "name") = None \/
  toString (field manifest_ "version") = None ->
  Build.process env file acc tr =
  (Ret (Build.push_error file (typeError env CannotConvertToPrimitive)
          (Build.push_plugin
             (projection manifest_ (field submission "repo")
                         (toISOString env tr1)) acc)),
   (tr1 ++ [Now])%list).
Proof.
  intros Hr Hp Ps Hf Pm Hu. unfold Build.process.
  erewrite bind_Ret.
  2:{ apply try_Ret.
      erewrite bind_Ret; [|eapply readJSON_Ret; eassumption].
      erewrite bind_Ret; [|apply get_present; assumption].
      erewrite bind_Ret; [|exact Hf].
      erewrite bind_Ret; [|apply entry_run; assumption].
      reflexivity. }
  cbv beta iota zeta.
  erewrite try_Throw; [unfold ret; reflexivity|].
  erewrite bind_Ret; [|apply get_present; assumption].
  unfold toStringM at 1.
  destruct (toString (field manifest_ "name")) as [s|] eqn:N.
  - destruct Hu as [Hu|Hu]; [discriminate|].
    erewrite bind_Ret; [|reflexivity].
    erewrite bind_Ret; [|apply get_present; assumption].
    unfold toStringM. rewrite Hu. reflexivity.
  - reflexivity.
Qed.

(** ** The sort *)
Lemma by_name_run env a b tr :
  named a -> named b ->
  Build.by_name env a b tr =
  (Ret (localeCompare env (name_of a) (name_of b)), tr).
Proof.
  intros [fa [sa [-> Ha]]] [fb [sb [-> Hb]]].
  unfold Build.by_name, name_of, field, bind, get, ret. simpl.
  rewrite Ha, Hb. reflexivity.
Qed.

Section Sorting.
Variable env : Env.
Hypothesis antisymmetric :
  forall s t, (0 <= localeCompare env s t)%Z -> (localeCompare env t s <= 0)%Z.

Lemma insert_sorted x : forall sorted tr,
  named x -> Forall named sorted -> Sorted (by_name_order env) sorted ->
  exists l,
    Build.insert (Build.by_name env) x sorted tr = (Ret l, tr) /\
    Permutation (x :: sorted) l /\ Forall named l /\
    Sorted (by_name_order env) l /\
    (forall a, by_name_order env a x -> HdRel (by_name_order env) a sorted ->
               HdRel (by_name_order env) a l).
Proof.
  induction sorted as [|y sorted IH]; intros tr Nx Ns Ss; simpl.
  - exists [x]. unfold ret. repeat split; auto.
  - inversion Ns as [|? ? Ny Ns']; subst.
    inversion Ss as [|? ? Ss' Hy]; subst.
    erewrite bind_Ret; [|apply by_name_run; assumption].
    destruct (localeCompare env (name_of x) (name_of y) <? 0)%Z eqn:O.
    + apply Z.ltb_lt in O.
      exists (x :: y :: sorted). unfold ret. repeat split; auto.
      constructor; [exact Ss|]. constructor. unfold by_name_order. lia.
    + apply Z.ltb_ge in O.
      destruct (IH tr Nx Ns' Ss') as [l [E [P [N [S H]]]]].
      exists (y :: l). erewrite bind_Ret by exact E. unfold ret.
      repeat split; auto.
      * rewrite perm_swap. constructor. exact P.
      * constructor; [exact S|]. apply H; [|exact Hy].
        unfold by_name_order. apply antisymmetric. exact O.
      * intros a Hax Ha. inversion Ha; subst. constructor. assumption.
Qed.

Lemma sort_into_sorted pending : forall sorted tr,
  Forall named sorted -> Sorted (by_name_order env) sorted ->
  Forall named pending ->
  exists l,
    Build.sort_into (Build.by_name env) sorted pending tr = (Ret l, tr) /\
    Permutation (sorted ++ pending)%list l /\
    Sorted (by_name_order env) l.
Proof.
  induction pending as [|x pending IH]; intros sorted tr Ns Ss Np; simpl.
  - exists sorted. rewrite app_nil_r. unfold ret. auto.
  - inversion Np as [|? ? Nx Np']; subst.
    destruct (insert_sorted x sorted tr Nx Ns Ss) as [l1 [E [P [N [S _]]]]].
    destruct (IH l1 tr N S Np') as [l [E2 [P2 S2]]].
    exists l. erewrite bind_Ret by exact E. split; [exact E2|]. split; [|exact S2].
    rewrite <- P2. rewrite <- Permutation_middle.
    apply (Permutation_app_tail pending P).
Qed.

End Sorting.

(** Property X23.  When all collected entries have a string as name and
    the collation is consistent, [buildDirectory] puts the collected entries
    in the order of their names, none lost and none added, reads the clock
    and writes the directory document.  When the output file is written it
    returns these entries with the errors as collected; when the writing
    fails it throws that failure and no file was written. *)
Theorem directory_is_ordered_by_name (env : Env) (files : list string)
  (acc : Build.collected) (tr tr1 : list event) :
  readdirSync env (PLUGINS_DIR env) = Ret files ->
  Build.for_each_file env (filter (endsWith ".json") files)
    (Build.Collected [] []) (tr ++ [ReadDir (PLUGINS_DIR env)])%list =
    (Ret acc, tr1) ->
  Forall named (Build.plugins acc) ->
  consistent_collation env ->
  exists sorted,
    Permutation (Build.plugins acc) sorted /\
    StronglySorted (by_name_order env) sorted /\
    Build.buildDirectory env tr =
      match writeFileSync env (OUTPUT_FILE env)
              (directory (toISOString env tr1) sorted) with
      | Ret _ =>
          (Ret (Build.Collected sorted (Build.errors acc)),
           (tr1 ++ [Now;
                    WriteFile (OUTPUT_FILE env)
                      (directory (toISOString env tr1) sorted)])%list)
      | Throw e => (Throw e, (tr1 ++ [Now])%list)
      end.
Proof.
  intros Hdir Hloop Hnamed [Hanti Htrans].
  destruct (@sort_into_sorted env Hanti (Build.plugins acc) [] tr1
              (Forall_nil _) (Sorted_nil _) Hnamed) as [sorted [E [P S]]].
  exists sorted. split; [exact P|]. split.
  - apply Sorted_StronglySorted; [|exact S].
    intros a b c. unfold by_name_order. apply Htrans.
  - unfold Build.buildDirectory.
    erewrite bind_Ret; [|unfold call; rewrite Hdir; reflexivity].
    erewrite bind_Ret; [|exact Hloop].
    erewrite bind_Ret; [|exact E].
    unfold bind, now, writeJSON, ret.
    change (Build.directory_document (toISOString env tr1) sorted)
      with (directory (toISOString env tr1) sorted).
    destruct (writeFileSync env (OUTPUT_FILE env)
                (directory (toISOString env tr1) sorted));
      [rewrite <- app_assoc|]; reflexivity.
Qed.

(** ** The checks of a result *)

Lemma grows_refl r : grows r r [].
Proof. unfold grows. rewrite app_nil_r, andb_true_r. auto. Qed.

Lemma grows_trans r1 r2 r3 a b :
  grows r1 r2 a -> grows r2 r3 b -> grows r1 r3 (a ++ b)%list.
Proof.
  intros [C1 [P1 E1]] [C2 [P2 E2]]. unfold grows.
  rewrite C2, C1, P2, P1, E2, E1, forallb_app, app_assoc, andb_assoc. auto.
Qed.

Lemma grows_addCheck n p d r : grows r (addCheck n p d r) [Item.Make n p d].
Proof.
  unfold grows. simpl. rewrite andb_true_r. repeat split.
  destruct p, (passed r); reflexivity.
Qed.

Lemma grows_addWarning w r : grows r (addWarning w r) [].
Proof. unfold grows. simpl. rewrite app_nil_r, andb_true_r. auto. Qed.

Lemma grows_set_pluginId id r : grows r (set_pluginId id r) [].
Proof. unfold grows. simpl. rewrite app_nil_r, andb_true_r. auto. Qed.

Lemma grows_set_manifest mf r : grows r (set_manifest mf r) [].
Proof. unfold grows. simpl. rewrite app_nil_r, andb_true_r. auto. Qed.

Lemma grows_nil r1 r2 r3 a : grows r1 r2 [] -> grows r2 r3 a -> grows r1 r3 a.
Proof. intros H1 H2. exact (grows_trans _ _ _ _ _ H1 H2). Qed.

Lemma grows_then r1 r2 r3 a : grows r1 r2 a -> grows r2 r3 [] -> grows r1 r3 a.
Proof.
  intros H1 H2. pose proof (grows_trans _ _ _ _ _ H1 H2) as H.
  rewrite app_nil_r in H. exact H.
Qed.

Lemma grows_scan mainJs r : grows r (scan mainJs r) [].
Proof.
  unfold scan.
  assert (F : forall l r0, grows r r0 [] ->
            grows r (fold_left
                       (fun result pn =>
                          if test (fst pn) mainJs
                          then addWarning (pattern_warning (snd pn)) result
                          else result) l r0) []).
  { induction l as [|pn l IH]; intros r0 H; simpl; [exact H|].
    apply IH. destruct (test (fst pn) mainJs); [|exact H].
    eapply grows_nil; [exact H | apply grows_addWarning]. }
  apply F. destruct (1024 * 1024 <? String.length mainJs)%nat;
    [apply grows_addWarning | apply grows_refl].
Qed.

Ltac grows_warnings :=
  repeat match goal with
         | |- grows _ (if ?c then _ else _) [] => destruct c
         | |- grows _ (match ?c with Some _ => _ | None => _ end) [] => destruct c
         | |- grows ?r (addWarning _ ?r') [] =>
             eapply grows_nil; [|apply grows_addWarning]
         | |- grows ?r ?r [] => apply grows_refl
         end.

Lemma advisories_shape env submission manifest_ result tr result' tr' :
  advisories env submission manifest_ result tr = (Ret result', tr') ->
  exists failure, grows result result' (main_check failure).
Proof.
  intros H. unfold advisories in H.
  binv H. binv H. binv H.
  assert (X1 : grows result a1 []).
  { destruct (0 <? List.length a0)%nat.
    - binv Ha1. apply ret_inv in Ha1. destruct Ha1 as [<- _].
      apply grows_addWarning.
    - apply ret_inv in Ha1. destruct Ha1 as [<- _]. apply grows_refl. }
  binv H. binv H. cbv zeta in H.
  match type of H with
  | try_catch _ _ _ = _ => unfold try_catch in H
  end.
  match type of H with
  | context [ ?c t3 ] =>
      match type of (c t3) with
      | (outcome ValidationResult * list event)%type =>
          destruct (c t3) as [[r|e] t4] eqn:E
      end
  end.
  - inversion H; subst. binv E. binv E. binv E.
    apply ret_inv in E. destruct E as [<- _].
    exists None. simpl.
    eapply grows_nil; [exact X1|].
    eapply grows_nil; [|apply grows_scan].
    grows_warnings.
  - apply ret_inv in H. destruct H as [<- _].
    exists (Some e). simpl.
    eapply grows_nil; [exact X1|].
    eapply grows_nil; [|apply grows_addCheck].
    grows_warnings.
Qed.

Lemma checkManifest_shape env submission manifest_ result tr result' tr' :
  checkManifest env submission manifest_ result tr = (Ret result', tr') ->
  (exists d, grows result result' [Item.Make "Manifest valid" false d]) \/
  (exists p8 d8 p9 d9 p10 d10 failure,
     grows result result'
       ([Item.Make "Manifest valid" true VNull; Item.Make "IDs match" p8 d8;
         Item.Make "Version format" p9 d9;
         Item.Make "Valid permissions" p10 d10] ++ main_check failure)%list).
Proof.
  intros H. unfold checkManifest in H.
  binv H.
  destruct (0 <? List.length a)%nat.
  { apply ret_inv in H. destruct H as [<- _]. left. eexists. apply grows_addCheck. }
  right. cbv zeta in H.
  binv H. binv H. binv H.
  assert (X1 : exists p8 d8,
             grows result a2 [Item.Make "Manifest valid" true VNull;
                              Item.Make "IDs match" p8 d8]).
  { destruct (negb (strict_equal a0 a1)).
    - binv Ha2. binv Ha2. apply ret_inv in Ha2. destruct Ha2 as [<- _].
      eexists _, _.
      apply (grows_trans _ _ _ [_] [_] (grows_addCheck _ _ _ _) (grows_addCheck _ _ _ _)).
    - apply ret_inv in Ha2. destruct Ha2 as [<- _].
      eexists _, _.
      apply (grows_trans _ _ _ [_] [_] (grows_addCheck _ _ _ _) (grows_addCheck _ _ _ _)). }
  destruct X1 as [p8 [d8 X1]].
  binv H. binv H. binv H.
  assert (X2 : exists p9 d9, grows a2 a5 [Item.Make "Version format" p9 d9]).
  { destruct (negb a4).
    - binv Ha5. apply ret_inv in Ha5. destruct Ha5 as [<- _].
      eexists _, _. apply grows_addCheck.
    - apply ret_inv in Ha5. destruct Ha5 as [<- _].
      eexists _, _. apply grows_addCheck. }
  destruct X2 as [p9 [d9 X2]].
  binv H. binv H. binv H.
  assert (X3 : exists p10 d10, grows a5 a8 [Item.Make "Valid permissions" p10 d10]).
  { destruct (0 <? List.length a7)%nat.
    - binv Ha8. apply ret_inv in Ha8. destruct Ha8 as [<- _].
      eexists _, _. apply grows_addCheck.
    - apply ret_inv in Ha8. destruct Ha8 as [<- _].
      eexists _, _. apply grows_addCheck. }
  destruct X3 as [p10 [d10 X3]].
  apply advisories_shape in H. destruct H as [failure X4].
  exists p8, d8, p9, d9, p10, d10, failure.
  pose proof (grows_trans _ _ _ _ _ X1 X2) as Y1.
  pose proof (grows_trans _ _ _ _ _ Y1 X3) as Y2.
  exact (grows_trans _ _ _ _ _ Y2 X4).
Qed.

Lemma checkRepo_shape env submission result tr result' tr' :
  checkRepo env submission result tr = (Ret result', tr') ->
  (exists d, grows result result' [Item.Make "Repo accessible" false d] /\
             manifest result' = manifest result) \/
  (exists d,
     grows result result'
       [Item.Make "Repo accessible" true VNull;
        Item.Make "Manifest found" true VNull;
        Item.Make "Manifest valid" false d]) \/
  (exists p8 d8 p9 d9 p10 d10 failure,
     grows result result'
       ([Item.Make "Repo accessible" true VNull;
         Item.Make "Manifest found" true VNull;
         Item.Make "Manifest valid" true VNull; Item.Make "IDs match" p8 d8;
         Item.Make "Version format" p9 d9;
         Item.Make "Valid permissions" p10 d10] ++ main_check failure)%list).
Proof.
  intros H. unfold checkRepo in H. binv H.
  unfold try_catch in Ha.
  match type of Ha with
  | context [ ?c tr ] =>
      match type of (c tr) with
      | (outcome _ * list event)%type => destruct (c tr) as [[r|e] t1] eqn:E
      end
  end.
  - inversion Ha; subst. binv E. binv E. binv E.
    apply ret_inv in E. destruct E as [<- _].
    right.
    assert (X : grows result
                  (set_manifest a2
                     (addCheck "Manifest found" true VNull
                        (addCheck "Repo accessible" true VNull result)))
                  [Item.Make "Repo accessible" true VNull;
                   Item.Make "Manifest found" true VNull]).
    { eapply grows_trans with (a := [_; _]) (b := []);
        [|apply grows_set_manifest].
      apply (grows_trans _ _ _ [_] [_] (grows_addCheck _ _ _ _) (grows_addCheck _ _ _ _)). }
    apply checkManifest_shape in H.
    destruct H as [[d G]|[p8 [d8 [p9 [d9 [p10 [d10 [failure G]]]]]]]].
    + left. exists d. exact (grows_trans _ _ _ _ _ X G).
    + right. exists p8, d8, p9, d9, p10, d10, failure.
      exact (grows_trans _ _ _ _ _ X G).
  - apply ret_inv in Ha. destruct Ha as [<- _].
    apply ret_inv in H. destruct H as [<- _].
    left. eexists. split; [apply grows_addCheck | reflexivity].
Qed.

Lemma checkFilename_grows filename id_text r :
  exists p d,
    grows r (checkFilename filename id_text r)
      [Item.Make "Filename matches ID" p d].
Proof.
  unfold checkFilename.
  destruct (negb (String.eqb filename (id_text ++ ".json")));
    eexists _, _; apply grows_addCheck.
Qed.

Ltac shape_by G :=
  eexists; split; [reflexivity|]; split; [reflexivity|]; split; [reflexivity|];
  split; [exact G|].

(** The lists of checks that a validation can return. *)
Lemma validatePlugin_shape env path dir tr result tr' :
  validatePlugin env path dir tr = (Ret result, tr') ->
  exists r0 added,
    checks r0 = [] /\ passed r0 = true /\ errors r0 = [] /\
    grows r0 result added /\
    ((exists d, added = [Item.Make "Valid JSON" false d]) \/
     (exists d, added = [pass "Valid JSON"; Item.Make "Required fields" false d]) \/
     (exists d, added = [pass "Valid JSON"; pass "Required fields";
                         Item.Make "Plugin ID format" false d]) \/
     (exists p4 d4 d,
        added = [pass "Valid JSON"; pass "Required fields";
                 pass "Plugin ID format";
                 Item.Make "Filename matches ID" p4 d4;
                 Item.Make "Repo accessible" false d]) \/
     (exists p4 d4 d,
        added = [pass "Valid JSON"; pass "Required fields";
                 pass "Plugin ID format";
                 Item.Make "Filename matches ID" p4 d4;
                 pass "Repo accessible"; pass "Manifest found";
                 Item.Make "Manifest valid" false d]) \/
     (exists p4 d4 p8 d8 p9 d9 p10 d10 failure,
        added = ([pass "Valid JSON"; pass "Required fields";
                  pass "Plugin ID format";
                  Item.Make "Filename matches ID" p4 d4;
                  pass "Repo accessible"; pass "Manifest found";
                  pass "Manifest valid"; Item.Make "IDs match" p8 d8;
                  Item.Make "Version format" p9 d9;
                  Item.Make "Valid permissions" p10 d10] ++
                 main_check failure)%list)).
Proof.
  intros H. unfold validatePlugin in H. cbv zeta in H.
  set (r0 := new_ValidationResult
               (VStr (replace_first ".json" EmptyString (basename path)))) in *.
  exists r0. binv H.
  unfold try_catch in Ha.
  match type of Ha with
  | context [ ?c tr ] =>
      match type of (c tr) with
      | (outcome _ * list event)%type => destruct (c tr) as [[r|e] t1] eqn:E
      end
  end.
  2:{ apply ret_inv in Ha. destruct Ha as [<- _].
      apply ret_inv in H. destruct H as [<- _].
      shape_by (grows_addCheck "Valid JSON" false (VStr e) r0). left. repeat eexists. }
  inversion Ha; subst a t; clear Ha.
  binv E. apply ret_inv in E. destruct E as [<- _].
  binv H.
  destruct (0 <? List.length a0)%nat.
  { apply ret_inv in H. destruct H as [<- _].
    shape_by (grows_trans _ _ _ [_] [_]
                (grows_addCheck "Valid JSON" true VNull r0)
                (grows_addCheck "Required fields" false
                   (VStr ("missing: " ++ join ", " a0)) _)).
    right. left. repeat eexists. }
  cbv zeta in H. binv H. binv H.
  assert (X3 : forall p d,
            grows r0
              (addCheck "Plugin ID format" p d
                 (set_pluginId a1
                    (addCheck "Required fields" true VNull
                       (addCheck "Valid JSON" true VNull r0))))
              [pass "Valid JSON"; pass "Required fields";
               Item.Make "Plugin ID format" p d]).
  { intros p d.
    eapply grows_trans with (a := [_; _]) (b := [_]); [|apply grows_addCheck].
    eapply grows_trans with (a := [_; _]) (b := []); [|apply grows_set_pluginId].
    apply (grows_trans _ _ _ [_] [_] (grows_addCheck _ _ _ _) (grows_addCheck _ _ _ _)). }
  destruct (negb a2).
  { apply ret_inv in H. destruct H as [<- _].
    shape_by (X3 false
                (VStr "must be reverse domain notation (e.g., com.author.name)")).
    right. right. left. repeat eexists. }
  binv H. binv H.
  destruct (checkFilename_grows (basename path) a3
              (addCheck "Plugin ID format" true VNull
                 (set_pluginId a1
                    (addCheck "Required fields" true VNull
                       (addCheck "Valid JSON" true VNull r0)))))
    as [p4 [d4 X4]].
  pose proof (grows_trans _ _ _ _ _ (X3 true VNull) X4) as Y4.
  match type of H with
  | checkRepo _ _ ?r _ = _ =>
      assert (X5 : grows r0 r
                     [pass "Valid JSON"; pass "Required fields";
                      pass "Plugin ID format";
                      Item.Make "Filename matches ID" p4 d4])
  end.
  { destruct a4; [|exact Y4].
    eapply grows_then; [exact Y4 | apply grows_addWarning]. }
  apply checkRepo_shape in H.
  destruct H as [[d [G _]]|[[d G]|[p8 [d8 [p9 [d9 [p10 [d10 [failure G]]]]]]]]];
    pose proof (grows_trans _ _ _ _ _ X5 G) as Y; shape_by Y.
  - right. right. right. left. repeat eexists.
  - right. right. right. right. left. repeat eexists.
  - right. right. right. right. right. repeat eexists.
Qed.

(** Property X10.  In every result that [validatePlugin] returns, the
    checks carry the names of [CHECK_ORDER], in that order and without gaps.
    A result with fewer than ten checks ends in a failed check of one of the
    five kinds that stop a validation, and before the last check no check of
    these kinds has failed.  No error is recorded, and [passed] is the
    conjunction of the checks. *)
Theorem checks_are_recorded_in_order (env : Env) (path dir : string)
  (tr : list event) (result : ValidationResult) (tr' : list event) :
  validatePlugin env path dir tr = (Ret result, tr') ->
  let cs := checks result in
  map Item.name cs = firstn (List.length cs) CHECK_ORDER /\
  (1 <= List.length cs)%nat /\
  ((List.length cs < 10)%nat ->
   stopping (last cs (pass EmptyString)) = true /\
   Item.passed (last cs (pass EmptyString)) = false) /\
  forallb (fun c => implb (stopping c) (Item.passed c)) (removelast cs) = true /\
  errors result = [] /\
  passed result = forallb Item.passed cs.
Proof.
  intros H. apply validatePlugin_shape in H.
  destruct H as [r0 [added [C0 [P0 [E0 [[C [P E]] S]]]]]].
  rewrite C0 in C. rewrite P0 in P. rewrite E0 in E. simpl in C, P.
  cbv zeta. rewrite C, P, E. clear C P E C0 P0 E0.
  destruct S as [[d ->]|[[d ->]|[[d ->]|[[p4 [d4 [d ->]]]|[[p4 [d4 [d ->]]]|
    [p4 [d4 [p8 [d8 [p9 [d9 [p10 [d10 [[e|] ->]]]]]]]]]]]]]];
    simpl; repeat split; auto; try lia.
Qed.

(** ** How a validation ends early, and how it goes on *)

(** Property X6.  A submission file that cannot be read, or that does
    not hold JSON: the result has the single failed check "Valid JSON" with
    the message of the error as detail, its identifier is the file name
    without its first [.json], and nothing but the file was read. *)
Theorem unreadable_submission_fails_first_check (env : Env) (path dir e : string)
  (tr : list event) :
  readFileSync env path = Throw e \/
  (exists content, readFileSync env path = Ret content /\
                   JSON_parse env content = Throw e) ->
  validatePlugin env path dir tr =
  (Ret (addCheck "Valid JSON" false (VStr e) (fresh_result path)),
   (tr ++ [ReadFile path])%list).
Proof.
  intros H. unfold validatePlugin. cbv zeta.
  erewrite bind_Ret;
    [|erewrite try_Throw with (e := e) (tr' := (tr ++ [ReadFile path])%list);
      [unfold ret; reflexivity|];
      unfold readJSON, bind, call, lift;
      destruct H as [->|[content [-> ->]]]; reflexivity].
  reflexivity.
Qed.

(** Property X7.  A submission that lacks required fields, a field that
    is empty or otherwise falsy counting as lacking: the second check fails
    with the detail [missing: ] followed by the lacking fields, in the order of
    the list of required fields and separated by a comma and a space;
    the validation stops there, having read only the file. *)
Theorem missing_fields_are_listed (env : Env) (path dir content : string)
  (submission : value) (tr : list event) :
  readFileSync env path = Ret content ->
  JSON_parse env content = Ret submission ->
  present submission ->
  missing submission REQUIRED_SUBMISSION_FIELDS <> [] ->
  validatePlugin env path dir tr =
  (Ret (addCheck "Required fields" false
          (VStr ("missing: " ++
                 join ", " (missing submission REQUIRED_SUBMISSION_FIELDS)))
          (addCheck "Valid JSON" true VNull (fresh_result path))),
   (tr ++ [ReadFile path])%list).
Proof.
  intros Hr Hp Ps Hm. unfold validatePlugin. cbv zeta.
  erewrite bind_Ret;
    [|apply try_Ret; erewrite bind_Ret;
      [reflexivity | apply (readJSON_Ret env path content submission tr Hr Hp)]].
  cbv beta iota.
  erewrite bind_Ret; [|apply missing_fields; exact Ps].
  fold (missing submission REQUIRED_SUBMISSION_FIELDS).
  destruct (missing submission REQUIRED_SUBMISSION_FIELDS) as [|f l]; [congruence|].
  reflexivity.
Qed.

(** Property X8.  A submission with all required fields whose identifier
    is a string that is not in the required format: the third check fails, the
    result carries the identifier of the submission instead of the file name,
    and the validation stops there, having read only the file. *)
Theorem malformed_identifier_stops_validation (env : Env)
  (path dir content : string) (submission : value) (id : string)
  (tr : list event) :
  readFileSync env path = Ret content ->
  JSON_parse env content = Ret submission ->
  (forall f, In f REQUIRED_SUBMISSION_FIELDS ->
             truthy (field submission f) = true) ->
  field submission "id" = VStr id ->
  isValidPluginId env (VStr id) [] = (Ret false, []) ->
  validatePlugin env path dir tr =
  (Ret (addCheck "Plugin ID format" false
          (VStr "must be reverse domain notation (e.g., com.author.name)")
          (set_pluginId (VStr id)
             (addCheck "Required fields" true VNull
                (addCheck "Valid JSON" true VNull (fresh_result path))))),
   (tr ++ [ReadFile path])%list).
Proof.
  intros Hr Hp Hf Hid Hformat.
  assert (P : present submission).
  { apply (truthy_field_present submission "id"), Hf. simpl. auto. }
  unfold validatePlugin. cbv zeta.
  erewrite bind_Ret;
    [|apply try_Ret; erewrite bind_Ret;
      [reflexivity | apply (readJSON_Ret env path content submission tr Hr Hp)]].
  cbv beta iota.
  erewrite bind_Ret; [|apply missing_fields; exact P].
  rewrite (no_missing_fields submission _ Hf).
  change (0 <? List.length (@nil string))%nat with false. cbv iota.
  erewrite bind_Ret; [|apply get_present; exact P]. rewrite Hid.
  erewrite bind_Ret; [|apply (isValidPluginId_pure env id [] _ false Hformat)].
  reflexivity.
Qed.

(** ** checkDuplicate *)
Lemma duplicate_probe env id dir file tr :
  try_catch
    (content <- readJSON env (path_join dir file) ;;
     id0 <- get env content "id" ;;
     ret (strict_equal id0 id))
    (fun _ => ret false) tr =
  (Ret (holds_id env dir id file), (tr ++ [ReadFile (path_join dir file)])%list).
Proof.
  unfold holds_id, try_catch, readJSON, bind, call, lift, ret.
  destruct (readFileSync env (path_join dir file)) as [content|e]; [|reflexivity].
  destruct (JSON_parse env content) as [v|e]; [|reflexivity].
  destruct v; reflexivity.
Qed.

Lemma checkDuplicate_loop_run env id dir files : forall tr,
  checkDuplicate_loop env id dir files tr =
  (Ret (existsb (holds_id env dir id) files),
   (tr ++ map (fun f => ReadFile (path_join dir f))
            (up_to_first (holds_id env dir id) files))%list).
Proof.
  induction files as [|file files IH]; intros tr; simpl.
  - rewrite app_nil_r. reflexivity.
  - erewrite bind_Ret; [|apply duplicate_probe].
    destruct (holds_id env dir id file); simpl; [reflexivity|].
    rewrite IH, <- app_assoc. reflexivity.
Qed.

(** Property X5.  When the directory can be listed, [checkDuplicate] returns
    whether one of its files with a name ending in [.json] holds JSON whose
    [id] is the given identifier.  A file that cannot be read or parsed, or
    that holds [null], counts as not holding it; the other files of the
    directory are not read; reading stops at the first file that holds it. *)
Theorem checkDuplicate_spec (env : Env) (id : value) (dir : string)
  (files : list string) (tr : list event) :
  readdirSync env dir = Ret files ->
  let candidates := filter (endsWith ".json") files in
  checkDuplicate env id dir tr =
  (Ret (existsb (holds_id env dir id) candidates),
   (tr ++ ReadDir dir ::
      map (fun f => ReadFile (path_join dir f))
          (up_to_first (holds_id env dir id) candidates))%list).
Proof.
  intros H. cbv zeta. unfold checkDuplicate, bind, call. rewrite H.
  rewrite checkDuplicate_loop_run, <- app_assoc. reflexivity.
Qed.

Lemma checkDuplicate_run env id dir files tr :
  readdirSync env dir = Ret files ->
  checkDuplicate env id dir tr =
  (Ret (existsb (holds_id env dir id) (filter (endsWith ".json") files)),
   (tr ++ ReadDir dir ::
      map (fun f => ReadFile (path_join dir f))
          (up_to_first (holds_id env dir id)
             (filter (endsWith ".json") files)))%list).
Proof.
  intros H. unfold checkDuplicate, bind, call. rewrite H.
  rewrite checkDuplicate_loop_run, <- app_assoc. reflexivity.
Qed.

Lemma no_fetch_in_reads (u : string) (l : list string) (f : string -> string) :
  ~ In (Fetch u) (map (fun x => ReadFile (f x)) l).
Proof.
  induction l as [|x l IH]; simpl; [auto|]. intros [H|H]; [discriminate | auto].
Qed.

(** Property X3.  For an accepted submission whose [repo] is a string
    that names no repository: the validator records the failed check
    "Repo accessible" with the detail [Invalid GitHub URL: ] and the address,
    returns a failed result without manifest, and makes no request; the
    builder records that message as the error of the file, having read only
    the file. *)
Theorem repository_address_is_checked (env : Env) (path dir : string)
  (submission : value) (id url : string) (files : list string)
  (tr : list event) :
  accepted env path submission id ->
  readdirSync env dir = Ret files ->
  field submission "repo" = VStr url ->
  ~ names_repository url ->
  (exists result tr' filename_check,
     validatePlugin env path dir tr = (Ret result, tr') /\
     checks result =
       [pass "Valid JSON"; pass "Required fields"; pass "Plugin ID format";
        filename_check;
        Item.Make "Repo accessible" false
                   (VStr ("Invalid GitHub URL: " ++ url))] /\
     manifest result = VNull /\
     passed result = false /\
     forall u, In (Fetch u) tr' -> In (Fetch u) tr) /\
  (forall file content acc tr0,
     readFileSync env (path_join (PLUGINS_DIR env) file) = Ret content ->
     JSON_parse env content = Ret submission ->
     Build.process env file acc tr0 =
     (Ret (Build.push_error file ("Invalid GitHub URL: " ++ url) acc),
      (tr0 ++ [ReadFile (path_join (PLUGINS_DIR env) file)])%list)).
Proof.
  intros Hacc Hdir Hrepo Hurl.
  assert (P : present submission).
  { apply (truthy_field_present submission "id").
    apply (accepted_fields _ _ _ _ Hacc). simpl. auto. }
  split.
  - destruct (validatePlugin_accepted env path dir submission id files tr
                Hacc Hdir) as [dup [more [D V]]].
    rewrite (checkDuplicate_run env (VStr id) dir files _ Hdir) in D.
    rewrite <- app_assoc in D. simpl in D.
    inversion D as [[Hdup Hmore]].
    apply app_inv_head in Hmore. inversion Hmore as [Hmore'].
    rewrite V. unfold checkRepo.
    erewrite bind_Ret.
    2:{ erewrite try_Throw; [unfold ret; reflexivity|].
        erewrite bind_Ret; [|apply get_present; exact P].
        rewrite Hrepo. eapply bind_Throw.
        apply (proj1 (invalid_url_is_not_fetched env url (VStr "manifest.json")
                        "main" _ Hurl)). }
    unfold ret. cbv beta iota.
    unfold before_check6, checkFilename.
    assert (NF : forall u,
              In (Fetch u) (tr ++ ReadFile path :: ReadDir dir :: more)%list ->
              In (Fetch u) tr).
    { intros u H. apply in_app_or in H. destruct H as [H|H]; [exact H|].
      exfalso. destruct H as [H|[H|H]]; try discriminate.
      rewrite <- Hmore' in H. exact (no_fetch_in_reads _ _ _ H). }
    destruct dup; destruct (negb (basename path =? id ++ ".json"));
      (eexists _, _, _; split; [reflexivity|]; simpl;
       repeat split; try reflexivity; exact NF).
  - intros file content acc tr0 Hfile Hparse.
    unfold Build.process.
    erewrite bind_Ret.
    2:{ erewrite try_Throw; [unfold ret; reflexivity|].
        erewrite bind_Ret;
          [|apply (readJSON_Ret env _ content submission tr0 Hfile Hparse)].
        erewrite bind_Ret; [|apply get_present; exact P].
        rewrite Hrepo. eapply bind_Throw.
        apply (proj2 (invalid_url_is_not_fetched env url VNull "main" _ Hurl)). }
    reflexivity.
Qed.

(** Property X12.  When the entry file that the manifest names cannot be
    fetched, the warning checks end by recording the failed check
    "Main script accessible", so that the result is failed; no error is
    recorded. *)
Theorem missing_entry_file_fails_validation (env : Env)
  (submission manifest_ : value) (items : list value) (url main_ : string)
  (result : ValidationResult) (tr : list event) :
  present manifest_ ->
  field manifest_ "permissions" = VArr items ->
  field submission "repo" = VStr url ->
  field manifest_ "main" = VStr main_ ->
  unreachable env url main_ ->
  exists result' tr' e,
    advisories env submission manifest_ result tr = (Ret result', tr') /\
    checks result' =
      (checks result ++
       [Item.Make "Main script accessible" false (VStr e)])%list /\
    passed result' = false /\
    errors result' = errors result.
Proof.
  intros Pm Hperm Hrepo Hmain Hun.
  destruct (advisories_run env submission manifest_ items result tr Pm Hperm)
    as [result' [tr' [after [extra [H _]]]]].
  exists result', tr'.
  pose proof H as H0.
  unfold advisories in H.
  binv H. binv H. binv H.
  assert (X1 : grows result a1 []).
  { destruct (0 <? List.length a0)%nat.
    - binv Ha1. apply ret_inv in Ha1. destruct Ha1 as [<- _].
      apply grows_addWarning.
    - apply ret_inv in Ha1. destruct Ha1 as [<- _]. apply grows_refl. }
  binv H. binv H. cbv zeta in H.
  match type of H with
  | try_catch _ _ _ = _ => unfold try_catch in H
  end.
  match type of H with
  | context [ ?c t3 ] =>
      match type of (c t3) with
      | (outcome ValidationResult * list event)%type =>
          destruct (c t3) as [[r|e] t4] eqn:E
      end
  end.
  - exfalso. binv E. binv E. binv E.
    apply get_inv in Ha4. destruct Ha4 as [_ [-> ->]].
    apply get_inv in Ha5. destruct Ha5 as [_ [-> ->]].
    rewrite Hrepo, Hmain in Ha6.
    destruct (fetchFromGitHub_unreachable env url main_ t3 Hun) as [e [more [F _]]].
    rewrite F in Ha6. discriminate.
  - exists e. split; [exact H0|].
    apply ret_inv in H. destruct H as [<- _].
    match goal with
    | |- context [ addCheck _ _ _ ?r ] =>
        assert (X2 : grows result r []) by
          (eapply grows_nil; [exact X1|]; grows_warnings)
    end.
    destruct X2 as [C [_ Er]]. rewrite app_nil_r in C.
    simpl. rewrite C, Er. auto.
Qed.

(** Property X9.  [validatePlugin] throws, instead of returning a result:
    when the submission is [null]; when all required fields are there but the
    identifier is not a string; and when the submission is accepted but the
    directory cannot be listed. *)
Theorem validation_can_throw (env : Env) (path dir content : string)
  (submission : value) (tr : list event) :
  readFileSync env path = Ret content ->
  JSON_parse env content = Ret submission ->
  (submission = VNull ->
   validatePlugin env path dir tr =
   (Throw (typeError env (CannotReadProperty VNull "id")),
    (tr ++ [ReadFile path])%list)) /\
  ((forall f, In f REQUIRED_SUBMISSION_FIELDS ->
              truthy (field submission f) = true) ->
   (forall s, field submission "id" <> VStr s) ->
   validatePlugin env path dir tr =
   (Throw (typeError env (NotAFunction "split")),
    (tr ++ [ReadFile path])%list)) /\
  (forall id e,
     accepted env path submission id ->
     readdirSync env dir = Throw e ->
     validatePlugin env path dir tr =
     (Throw e, (tr ++ [ReadFile path; ReadDir dir])%list)).
Proof.
  intros Hr Hp.
  assert (R : forall A (k : _ -> M A),
            bind (try_catch
                    (s <- readJSON env path ;;
                     ret (inl (s, addCheck "Valid JSON" true VNull (fresh_result path))))
                    (fun e => ret (inr (addCheck "Valid JSON" false (VStr e)
                                          (fresh_result path))))) k tr =
            k (inl (submission, addCheck "Valid JSON" true VNull (fresh_result path)))
              (tr ++ [ReadFile path])%list).
  { intros A k. erewrite bind_Ret; [reflexivity|].
    apply try_Ret. erewrite bind_Ret; [reflexivity|].
    apply (readJSON_Ret env path content submission tr Hr Hp). }
  split; [|split].
  - intros ->. unfold validatePlugin. cbv zeta.
    change (new_ValidationResult
              (VStr (replace_first ".json" EmptyString (basename path))))
      with (fresh_result path).
    rewrite R. reflexivity.
  - intros Hf Hid.
    assert (P : present submission).
    { apply (truthy_field_present submission "id"), Hf. simpl. auto. }
    unfold validatePlugin. cbv zeta.
    change (new_ValidationResult
              (VStr (replace_first ".json" EmptyString (basename path))))
      with (fresh_result path).
    rewrite R.
    erewrite bind_Ret; [|apply missing_fields; exact P].
    rewrite (no_missing_fields submission _ Hf).
    change (0 <? List.length (@nil string))%nat with false. cbv iota.
    erewrite bind_Ret; [|apply get_present; exact P].
    apply bind_Throw.
    assert (T : truthy (field submission "id") = true) by (apply Hf; simpl; auto).
    unfold isValidPluginId. apply bind_Throw.
    destruct (field submission "id") eqn:F; simpl in T; try discriminate;
      try reflexivity.
    exfalso. exact (Hid s eq_refl).
  - intros id e Hacc Hdir.
    destruct Hacc as [_ Hf Hid Hformat].
    assert (P : present submission).
    { apply (truthy_field_present submission "id"), Hf. simpl. auto. }
    unfold validatePlugin. cbv zeta.
    change (new_ValidationResult
              (VStr (replace_first ".json" EmptyString (basename path))))
      with (fresh_result path).
    rewrite R.
    erewrite bind_Ret; [|apply missing_fields; exact P].
    rewrite (no_missing_fields submission _ Hf).
    change (0 <? List.length (@nil string))%nat with false. cbv iota.
    erewrite bind_Ret; [|apply get_present; exact P]. rewrite Hid.
    erewrite bind_Ret; [|apply (isValidPluginId_pure env id [] _ true Hformat)].
    change (negb true) with false. cbv iota.
    erewrite bind_Ret; [|reflexivity].
    apply bind_Throw. unfold checkDuplicate, bind, call. rewrite Hdir.
    rewrite <- app_assoc. reflexivity.
Qed.

Lemma filter_not_includes table items :
  filter (fun p => negb (includes table p)) (map VStr items) =
  map VStr (filter (fun p => negb (existsb (String.eqb p) table)) items).
Proof.
  induction items as [|s items IH]; simpl; [reflexivity|].
  rewrite includes_VStr. destruct (existsb (String.eqb s) table); simpl;
    rewrite IH; reflexivity.
Qed.

Lemma checkManifest_run (env : Env)
  (submission manifest_ : value) (items : list string) (sid mid v : string)
  (result : ValidationResult) (tr : list event) :
  (forall f, In f REQUIRED_MANIFEST_FIELDS ->
             truthy (field manifest_ f) = true) ->
  field submission "id" = VStr sid ->
  field manifest_ "id" = VStr mid ->
  field manifest_ "version" = VStr v ->
  field manifest_ "permissions" = VArr (map VStr items) ->
  checkManifest env submission manifest_ result tr =
  advisories env submission manifest_
    (permissions_check items
       (version_check v
          (ids_check sid mid
             (addCheck "Manifest valid" true VNull result)))) tr.
Proof.
  intros Hf Hsid Hmid Hv Hperm.
  assert (Pm : present manifest_).
  { apply (truthy_field_present manifest_ "id"), Hf. simpl. auto. }
  assert (Ps : present submission).
  { destruct submission; simpl in Hsid; try discriminate; exact I. }
  unfold checkManifest.
  erewrite bind_Ret; [|apply missing_fields; exact Pm].
  rewrite (no_missing_fields manifest_ _ Hf).
  change (0 <? List.length (@nil string))%nat with false. cbv iota zeta.
  erewrite bind_Ret; [|apply get_present; exact Pm]. rewrite Hmid.
  erewrite bind_Ret; [|apply get_present; exact Ps]. rewrite Hsid.
  erewrite bind_Ret with
    (a := ids_check sid mid (addCheck "Manifest valid" true VNull result)).
  2:{ unfold ids_check. simpl. destruct (String.eqb mid sid); reflexivity. }
  erewrite bind_Ret; [|apply get_present; exact Pm]. rewrite Hv.
  erewrite bind_Ret; [|reflexivity].
  erewrite bind_Ret with
    (a := version_check v
            (ids_check sid mid (addCheck "Manifest valid" true VNull result))).
  2:{ unfold version_check. destruct (test semver v); reflexivity. }
  erewrite bind_Ret; [|apply get_present; exact Pm]. rewrite Hperm.
  erewrite bind_Ret; [|reflexivity].
  rewrite filter_not_includes.
  erewrite bind_Ret with
    (a := permissions_check items
            (version_check v
               (ids_check sid mid (addCheck "Manifest valid" true VNull result)))).
  2:{ unfold permissions_check, unknown_permissions.
      rewrite length_map.
      destruct (filter (fun p => negb (existsb (String.eqb p) VALID_PERMISSIONS)) items)
        as [|p l] eqn:F; [reflexivity|].
      change (0 <? List.length (p :: l))%nat with true. cbv iota.
      erewrite bind_Ret; [|apply join_values_strings]. reflexivity. }
  reflexivity.
Qed.

(** Property X11.  For a manifest that has its required fields and whose
    identifier, version and permissions are strings: checks 8, 9 and 10 are
    recorded, passed or failed, with the details that [ids_check],
    [version_check] and [permissions_check] give, and whatever their outcome
    the validation goes on with the warning checks. *)
Theorem later_checks_do_not_stop_validation (env : Env)
  (submission manifest_ : value) (items : list string) (sid mid v : string)
  (result : ValidationResult) (tr : list event) :
  (forall f, In f REQUIRED_MANIFEST_FIELDS ->
             truthy (field manifest_ f) = true) ->
  field submission "id" = VStr sid ->
  field manifest_ "id" = VStr mid ->
  field manifest_ "version" = VStr v ->
  field manifest_ "permissions" = VArr (map VStr items) ->
  checkManifest env submission manifest_ result tr =
  advisories env submission manifest_
    (permissions_check items
       (version_check v
          (ids_check sid mid
             (addCheck "Manifest valid" true VNull result)))) tr.
Proof. apply checkManifest_run. Qed.

(** ** The source scan *)

Lemma Match_WordB_inv st st' :
  Match WordB st st' -> st' = st /\ xorb (word_before st) (word_after st) = true.
Proof. intros H. inversion H; subst. auto. Qed.

Lemma word_can_start_before pre s cs :
  word_can_start pre <-> word_before (MState (last_of None pre) s cs) = false.
Proof.
  unfold word_can_start, word_before. simpl.
  destruct (last_of None pre); [reflexivity|]. split; auto.
Qed.

Lemma eval_pattern s :
  test (Seq WordB (Seq (Lit "eval") (Seq spaces (Lit "(")))) s = true <->
  calls_eval s.
Proof.
  rewrite test_occurs. unfold occurs, calls_eval. split.
  - intros [pre [suf [st' [Hs HM]]]].
    apply Match_Seq_inv in HM. destruct HM as [s1 [H1 HM]].
    apply Match_WordB_inv in H1. destruct H1 as [-> Hw].
    apply Match_Seq_inv in HM. destruct HM as [s2 [H2 HM]].
    apply Match_Lit_inv in H2. destruct H2 as [R2 _].
    apply Match_Seq_inv in HM. destruct HM as [s3 [H3 H4]].
    apply Match_star_chr_inv in H3. destruct H3 as [ws [Aw [R3 _]]].
    apply Match_Lit_inv in H4. destruct H4 as [R4 _].
    cbn [rest] in R2. exists pre, ws, (rest st').
    split; [rewrite Hs, R2, R3, R4; reflexivity|].
    split; [|exact Aw].
    apply (word_can_start_before pre suf []).
    rewrite R2 in Hw. unfold word_after in Hw. simpl in Hw.
    destruct (word_before _); [discriminate | reflexivity].
  - intros [pre [ws [post [Hs [Hw Hb]]]]].
    exists pre, ("eval" ++ ws ++ "(" ++ post). eexists. split; [exact Hs|].
    eapply MSeq.
    { apply MWordB.
      rewrite (proj1 (word_can_start_before pre _ []) Hw). reflexivity. }
    eapply MSeq; [apply Match_Lit_intro|].
    eapply MSeq; [apply Match_star_chr_intro; exact Hb|].
    apply (Match_Lit_intro "(").
Qed.

Lemma new_Function_pattern s :
  test (Seq WordB (Seq (Lit "new") (Seq (Plus (Chr is_space))
         (Seq (Lit "Function") (Seq spaces (Lit "(")))))) s = true <->
  calls_new_Function s.
Proof.
  rewrite test_occurs. unfold occurs, calls_new_Function. split.
  - intros [pre [suf [st' [Hs HM]]]].
    apply Match_Seq_inv in HM. destruct HM as [s1 [H1 HM]].
    apply Match_WordB_inv in H1. destruct H1 as [-> Hw].
    apply Match_Seq_inv in HM. destruct HM as [s2 [H2 HM]].
    apply Match_Lit_inv in H2. destruct H2 as [R2 _].
    apply Match_Seq_inv in HM. destruct HM as [s3 [H3 HM]].
    apply Match_plus_chr_inv in H3. destruct H3 as [ws1 [N1 [A1 [R3 _]]]].
    apply Match_Seq_inv in HM. destruct HM as [s4 [H4 HM]].
    apply Match_Lit_inv in H4. destruct H4 as [R4 _].
    apply Match_Seq_inv in HM. destruct HM as [s5 [H5 H6]].
    apply Match_star_chr_inv in H5. destruct H5 as [ws2 [A2 [R5 _]]].
    apply Match_Lit_inv in H6. destruct H6 as [R6 _].
    cbn [rest] in R2. exists pre, ws1, ws2, (rest st').
    split; [rewrite Hs, R2, R3, R4, R5, R6; reflexivity|].
    split; [|auto].
    apply (word_can_start_before pre suf []).
    rewrite R2 in Hw. unfold word_after in Hw. simpl in Hw.
    destruct (word_before _); [discriminate | reflexivity].
  - intros [pre [ws1 [ws2 [post [Hs [Hw [N1 [B1 B2]]]]]]]].
    exists pre, ("new" ++ ws1 ++ "Function" ++ ws2 ++ "(" ++ post). eexists.
    split; [exact Hs|].
    eapply MSeq.
    { apply MWordB.
      rewrite (proj1 (word_can_start_before pre _ []) Hw). reflexivity. }
    eapply MSeq; [apply Match_Lit_intro|].
    eapply MSeq; [apply Match_plus_chr_intro; [exact N1 | exact B1]|].
    eapply MSeq; [apply Match_Lit_intro|].
    eapply MSeq; [apply Match_star_chr_intro; exact B2|].
    apply (Match_Lit_intro "(").
Qed.

Lemma document_write_pattern s :
  test (Lit "document.write") s = true <-> mentions_document_write s.
Proof.
  rewrite test_occurs. unfold occurs, mentions_document_write. split.
  - intros [pre [suf [st' [Hs HM]]]].
    apply Match_Lit_inv in HM. destruct HM as [R _]. cbn [rest] in R.
    exists pre, (rest st'). rewrite Hs, R. reflexivity.
  - intros [pre [post Hs]].
    exists pre, ("document.write" ++ post). eexists. split; [exact Hs|].
    apply Match_Lit_intro.
Qed.

Lemma innerHTML_pattern s :
  test (Seq (Lit "innerHTML") (Seq spaces (Lit "="))) s = true <->
  assigns_innerHTML s.
Proof.
  rewrite test_occurs. unfold occurs, assigns_innerHTML. split.
  - intros [pre [suf [st' [Hs HM]]]].
    apply Match_Seq_inv in HM. destruct HM as [s2 [H2 HM]].
    apply Match_Lit_inv in H2. destruct H2 as [R2 _].
    apply Match_Seq_inv in HM. destruct HM as [s3 [H3 H4]].
    apply Match_star_chr_inv in H3. destruct H3 as [ws [Aw [R3 _]]].
    apply Match_Lit_inv in H4. destruct H4 as [R4 _].
    cbn [rest] in R2. exists pre, ws, (rest st').
    split; [rewrite Hs, R2, R3, R4; reflexivity | exact Aw].
  - intros [pre [ws [post [Hs Hb]]]].
    exists pre, ("innerHTML" ++ ws ++ "=" ++ post). eexists. split; [exact Hs|].
    eapply MSeq; [apply Match_Lit_intro|].
    eapply MSeq; [apply Match_star_chr_intro; exact Hb|].
    apply (Match_Lit_intro "=").
Qed.

Lemma fetch_pattern s :
  test (Seq WordB (Seq (Lit "fetch") (Seq spaces (Seq (Lit "(")
         (Seq (Star (Chr (fun c => negb (is_char ")" c)))) (Lit "${")))))) s = true <->
  fetches_template s.
Proof.
  rewrite test_occurs. unfold occurs, fetches_template. split.
  - intros [pre [suf [st' [Hs HM]]]].
    apply Match_Seq_inv in HM. destruct HM as [s1 [H1 HM]].
    apply Match_WordB_inv in H1. destruct H1 as [-> Hw].
    apply Match_Seq_inv in HM. destruct HM as [s2 [H2 HM]].
    apply Match_Lit_inv in H2. destruct H2 as [R2 _].
    apply Match_Seq_inv in HM. destruct HM as [s3 [H3 HM]].
    apply Match_star_chr_inv in H3. destruct H3 as [ws [Aw [R3 _]]].
    apply Match_Seq_inv in HM. destruct HM as [s4 [H4 HM]].
    apply Match_Lit_inv in H4. destruct H4 as [R4 _].
    apply Match_Seq_inv in HM. destruct HM as [s5 [H5 H6]].
    apply Match_star_chr_inv in H5. destruct H5 as [args [Aa [R5 _]]].
    apply Match_Lit_inv in H6. destruct H6 as [R6 _].
    cbn [rest] in R2. exists pre, ws, args, (rest st').
    split; [rewrite Hs, R2, R3, R4, R5, R6; reflexivity|].
    split; [|auto].
    apply (word_can_start_before pre suf []).
    rewrite R2 in Hw. unfold word_after in Hw. simpl in Hw.
    destruct (word_before _); [discriminate | reflexivity].
  - intros [pre [ws [args [post [Hs [Hw [Bw Ba]]]]]]].
    exists pre, ("fetch" ++ ws ++ "(" ++ args ++ "${" ++ post). eexists.
    split; [exact Hs|].
    eapply MSeq.
    { apply MWordB.
      rewrite (proj1 (word_can_start_before pre _ []) Hw). reflexivity. }
    eapply MSeq; [apply Match_Lit_intro|].
    eapply MSeq; [apply Match_star_chr_intro; exact Bw|].
    eapply MSeq; [apply (Match_Lit_intro "(")|].
    eapply MSeq; [apply Match_star_chr_intro; exact Ba|].
    apply (Match_Lit_intro "${").
Qed.

Lemma scan_fold mainJs l : forall r,
  let r' := fold_left
              (fun result pn =>
                 if test (fst pn) mainJs
                 then addWarning (pattern_warning (snd pn)) result
                 else result) l r in
  warnings r' =
    (warnings r ++
     map pattern_warning
         (map snd (filter (fun pn => test (fst pn) mainJs) l)))%list.
Proof.
  induction l as [|pn l IH]; intros r; simpl.
  - rewrite app_nil_r. reflexivity.
  - rewrite IH. destruct (test (fst pn) mainJs); simpl; [|reflexivity].
    rewrite <- app_assoc. reflexivity.
Qed.

(** Property X13.  The source scan only adds warnings: the one about the
    size when the script has more than 1024 * 1024 code units, then one for
    each pattern of the table that is found in the script, in the order of
    the table.  The five patterns are found exactly in the scripts that
    [calls_eval], [calls_new_Function], [mentions_document_write],
    [assigns_innerHTML] and [fetches_template] describe. *)
Theorem scan_reports_dangerous_patterns (mainJs : string)
  (r : ValidationResult) :
  warnings (scan mainJs r) =
    (warnings r ++
     (if (1024 * 1024 <? String.length mainJs)%nat
      then [size_warning mainJs] else []) ++
     map pattern_warning (flagged mainJs))%list /\
  checks (scan mainJs r) = checks r /\
  passed (scan mainJs r) = passed r /\
  errors (scan mainJs r) = errors r /\
  (In "eval()" (flagged mainJs) <-> calls_eval mainJs) /\
  (In "new Function()" (flagged mainJs) <-> calls_new_Function mainJs) /\
  (In "document.write" (flagged mainJs) <-> mentions_document_write mainJs) /\
  (In "innerHTML assignment" (flagged mainJs) <-> assigns_innerHTML mainJs) /\
  (In "dynamic fetch URL" (flagged mainJs) <-> fetches_template mainJs).
Proof.
  split.
  { unfold scan, flagged. rewrite scan_fold.
    destruct (1024 * 1024 <? String.length mainJs)%nat; simpl;
      [rewrite <- app_assoc|]; reflexivity. }
  destruct (grows_scan mainJs r) as [C [P E]].
  rewrite app_nil_r in C. rewrite andb_true_r in P.
  split; [exact C|]. split; [exact P|]. split; [exact E|].
  cbv [flagged DANGEROUS_PATTERNS filter map fst snd].
  remember (test (Seq WordB (Seq (Lit "eval") (Seq spaces (Lit "(")))) mainJs)
    as t1 eqn:T1.
  remember (test (Seq WordB (Seq (Lit "new") (Seq (Plus (Chr is_space))
         (Seq (Lit "Function") (Seq spaces (Lit "(")))))) mainJs) as t2 eqn:T2.
  remember (test (Lit "document.write") mainJs) as t3 eqn:T3.
  remember (test (Seq (Lit "innerHTML") (Seq spaces (Lit "="))) mainJs)
    as t4 eqn:T4.
  remember (test (Seq WordB (Seq (Lit "fetch") (Seq spaces (Seq (Lit "(")
         (Seq (Star (Chr (fun c => negb (is_char ")" c)))) (Lit "${")))))) mainJs)
    as t5 eqn:T5.
  symmetry in T1, T2, T3, T4, T5.
  rewrite <- eval_pattern, <- new_Function_pattern, <- document_write_pattern,
    <- innerHTML_pattern, <- fetch_pattern.
  rewrite T1, T2, T3, T4, T5. clear.
  destruct t1, t2, t3, t4, t5; simpl;
    repeat split; intros H; try reflexivity; try discriminate; auto 10;
    exfalso; repeat (destruct H as [H|H]; [discriminate|]); exact H.
Qed.

(** ** main *)

Lemma validatePlugin_frame env path tr :
  validatePlugin env path (PLUGINS_DIR env) tr =
  (verdict env path, (tr ++ consultation env path)%list).
Proof.
  destruct (steady_validatePlugin env path (PLUGINS_DIR env)) as [o [more [_ H]]].
  unfold verdict, consultation. rewrite (H []), (H tr). reflexivity.
Qed.

Lemma consultation_reads env path :
  Forall (consulted path (PLUGINS_DIR env)) (consultation env path).
Proof.
  destruct (steady_validatePlugin env path (PLUGINS_DIR env)) as [o [more [F H]]].
  unfold consultation. rewrite (H []). exact F.
Qed.

Lemma toMarkdown_frame env r tr :
  toMarkdown env r tr = (rendering env r, tr).
Proof.
  destruct (silent_toMarkdown env r) as [o H].
  unfold rendering. rewrite (H []), (H tr). reflexivity.
Qed.

Lemma validate_file_run env bw file results tr :
  validate_file env bw file results tr =
  (Ret (results ++ reported env bw file)%list,
   (tr ++ consultation env file)%list).
Proof.
  unfold validate_file, reported.
  unfold bind at 1. unfold try_catch at 1. unfold bind at 1.
  rewrite validatePlugin_frame.
  destruct (verdict env file) as [r|e]; [|reflexivity].
  unfold ret at 1. cbv beta iota zeta.
  unfold try_catch, bind. rewrite toMarkdown_frame.
  destruct (rendering env r) as [md|e]; unfold ret;
    [|rewrite <- app_assoc]; reflexivity.
Qed.

Lemma for_each_arg_run env bw args : forall results tr,
  for_each_arg env bw args results tr =
  (Ret (results ++ flat_map (reported env bw) args)%list,
   (tr ++ flat_map (consultation env) args)%list).
Proof.
  induction args as [|file args IH]; intros results tr; simpl.
  - rewrite !app_nil_r. reflexivity.
  - erewrite bind_Ret; [|apply validate_file_run].
    rewrite IH, <- !app_assoc. reflexivity.
Qed.

Lemma markdowns_frame env results tr :
  markdowns env results tr = (fst (markdowns env results []), tr).
Proof.
  destruct (silent_markdowns env results) as [o H].
  rewrite (H []), (H tr). reflexivity.
Qed.

(** The run of the script, with its loops resolved. *)
Lemma script_run env bw args tr :
  args <> [] ->
  script env bw args tr =
  match fst (markdowns env (flat_map (reported env bw) args) []) with
  | Ret rendered =>
      match writeFileSync env RESULT_FILE
              (output_document (flat_map (reported env bw) args) rendered) with
      | Ret _ =>
          (Ret (if forallb passed (flat_map (reported env bw) args)
                then Completed else Exit 1),
           (tr ++ flat_map (consultation env) args ++
              [WriteFile RESULT_FILE
                 (output_document (flat_map (reported env bw) args)
                                  rendered)])%list)
      | Throw _ =>
          (Ret (Exit 1), (tr ++ flat_map (consultation env) args)%list)
      end
  | Throw _ => (Ret (Exit 1), (tr ++ flat_map (consultation env) args)%list)
  end.
Proof.
  intros Hne. unfold script, main.
  destruct args as [|file args]; [congruence|].
  change (List.length (file :: args) =? 0)%nat with false. cbv iota.
  unfold try_catch. unfold bind at 1. rewrite for_each_arg_run.
  cbn [app]. unfold bind at 1. rewrite markdowns_frame.
  destruct (fst (markdowns env (flat_map (reported env bw) (file :: args)) []))
    as [rendered|e]; [|reflexivity].
  unfold bind, writeJSON.
  destruct (writeFileSync env RESULT_FILE
              (output_document (flat_map (reported env bw) (file :: args))
                               rendered)) as [done|e]; [|reflexivity].
  destruct (forallb passed (flat_map (reported env bw) (file :: args)));
    unfold ret; simpl; rewrite <- app_assoc; reflexivity.
Qed.

Lemma markdowns_Ret env results : forall rendered,
  fst (markdowns env results []) = Ret rendered ->
  Forall2 (fun r md => rendering env r = Ret md) results rendered.
Proof.
  induction results as [|r results IH]; intros rendered; simpl.
  - intros H. inversion H. constructor.
  - unfold bind at 1. rewrite toMarkdown_frame.
    destruct (rendering env r) as [md|e] eqn:R; [|discriminate].
    unfold bind. rewrite markdowns_frame.
    destruct (fst (markdowns env results [])) as [mds|e]; [|discriminate].
    simpl. intros H. inversion H; subst. constructor; auto.
Qed.

Lemma markdowns_all env results :
  Forall (fun r => exists md, rendering env r = Ret md) results ->
  exists rendered, fst (markdowns env results []) = Ret rendered.
Proof.
  induction 1 as [|r results [md R] _ [mds IH]]; simpl.
  - eexists. reflexivity.
  - unfold bind at 1. rewrite toMarkdown_frame, R.
    unfold bind. rewrite markdowns_frame, IH. eexists. reflexivity.
Qed.

Lemma markdowns_Throw env results r e :
  In r results -> rendering env r = Throw e ->
  exists e', fst (markdowns env results []) = Throw e'.
Proof.
  induction results as [|r' results IH]; intros Hin R; [contradiction|].
  simpl. unfold bind at 1. rewrite toMarkdown_frame.
  destruct Hin as [->|Hin].
  - rewrite R. eexists. reflexivity.
  - destruct (rendering env r') as [md|e1]; [|eexists; reflexivity].
    unfold bind. rewrite markdowns_frame.
    destruct (IH Hin R) as [e' ->]. eexists. reflexivity.
Qed.

Lemma failed_result_renders env bw file e :
  exists md, rendering env (failed_result bw file e) = Ret md.
Proof. eexists. reflexivity. Qed.

Lemma reported_clean env bw file :
  forallb passed (reported env bw file) = true <-> clean env file.
Proof.
  unfold reported, clean.
  destruct (verdict env file) as [r|e] eqn:V.
  - destruct (rendering env r) as [md|e] eqn:R; simpl.
    + rewrite andb_true_r. split.
      * intros H. exists r, md. auto.
      * intros [r' [md' [E [P _]]]]. inversion E; subst. exact P.
    + rewrite andb_false_r. split; [discriminate|].
      intros [r' [md' [E [_ R']]]]. inversion E; subst. congruence.
  - simpl. split; [discriminate|]. intros [r' [md' [E _]]]. discriminate.
Qed.

Lemma all_reported_clean env bw args :
  forallb passed (flat_map (reported env bw) args) = true <->
  Forall (clean env) args.
Proof.
  induction args as [|file args IH]; simpl.
  - split; auto.
  - rewrite forallb_app, andb_true_iff, IH, reported_clean. split.
    + intros [H1 H2]. constructor; auto.
    + intros H. inversion H; subst. auto.
Qed.

Lemma clean_reported env bw args :
  Forall (clean env) args ->
  Forall2 (fun file r => verdict env file = Ret r) args
          (flat_map (reported env bw) args) /\
  Forall (fun r => exists md, rendering env r = Ret md)
         (flat_map (reported env bw) args).
Proof.
  induction 1 as [|file args [r [md [V [P R]]]] _ [IH1 IH2]]; simpl.
  - split; constructor.
  - unfold reported at 1 3. rewrite V, R. simpl. split; constructor; eauto.
Qed.

Lemma consultations_not_written env args :
  existsb writes (flat_map (consultation env) args) = false.
Proof.
  induction args as [|file args IH]; simpl; [reflexivity|].
  rewrite existsb_app, IH, (consulted_not_written _ _ _ (consultation_reads env file)).
  reflexivity.
Qed.

(** The results and the renderings of a run are determined by the files. *)
Lemma verdicts_unique env bw args : forall results,
  Forall (clean env) args ->
  Forall2 (fun file r => verdict env file = Ret r) args results ->
  results = flat_map (reported env bw) args.
Proof.
  induction args as [|file args IH]; intros results C V.
  - inversion V. reflexivity.
  - inversion C as [|? ? [r [md [Hv [_ Hr]]]] C']; subst.
    inversion V as [|? r' ? results' Hv' V']; subst.
    simpl. unfold reported at 1. rewrite Hv, Hr.
    rewrite Hv in Hv'. inversion Hv'; subst r'.
    simpl. f_equal. apply IH; assumption.
Qed.

Lemma renderings_unique env results : forall rendered rendered',
  Forall2 (fun r md => rendering env r = Ret md) results rendered ->
  Forall2 (fun r md => rendering env r = Ret md) results rendered' ->
  rendered = rendered'.
Proof.
  induction results as [|r results IH]; intros rendered rendered' A B;
    inversion A; inversion B; subst; [reflexivity|].
  f_equal; [congruence|]. apply IH; assumption.
Qed.

(** Property X17.  The validator script ends with status 0 or 1, and
    keeps the events recorded before.  It ends with 0 exactly when it is
    given at least one file, every file validates, without exception, to a
    passed result that can be rendered, and the result file, with these
    results and renderings as its document, can be written.  Then its last
    event is the writing of the result file, nothing else was written, and
    the document holds one result for each file, in the order of the
    arguments. *)
Theorem exit_status_reflects_the_results (env : Env)
  (basename_without : string -> string -> string) (args : list string)
  (tr : list event) :
  exists t more,
    script env basename_without args tr = (Ret t, (tr ++ more)%list) /\
    (t = Completed \/ t = Exit 1) /\
    (t = Completed <->
     args <> [] /\ Forall (clean env) args /\
     exists results rendered,
       Forall2 (fun file r => verdict env file = Ret r) args results /\
       Forall2 (fun r md => rendering env r = Ret md) results rendered /\
       writeFileSync env RESULT_FILE (output_document results rendered) =
         Ret tt) /\
    (t = Completed ->
     exists earlier results rendered,
       more = (earlier ++
               [WriteFile RESULT_FILE (output_document results rendered)])%list /\
       existsb writes earlier = false /\
       Forall2 (fun file r => verdict env file = Ret r) args results /\
       Forall2 (fun r md => rendering env r = Ret md) results rendered).
Proof.
  destruct args as [|file args].
  { exists (Exit 1), []. rewrite app_nil_r. split; [reflexivity|].
    split; [auto|]. split; [|discriminate].
    split; [discriminate|]. intros [H _]. congruence. }
  assert (Hne : file :: args <> []) by discriminate.
  rewrite (script_run env basename_without (file :: args) tr Hne).
  set (results := flat_map (reported env basename_without) (file :: args)).
  destruct (fst (markdowns env results [])) as [rendered|e] eqn:Mk.
  - destruct (writeFileSync env RESULT_FILE (output_document results rendered))
      as [[]|e] eqn:Wr.
    + destruct (forallb passed results) eqn:All.
      * eexists _, _. split; [reflexivity|]. split; [auto|].
        apply all_reported_clean in All.
        split.
        -- split; [|reflexivity]. intros _.
           split; [exact Hne|]. split; [exact All|].
           exists results, rendered.
           split; [apply clean_reported; exact All|].
           split; [apply markdowns_Ret; exact Mk | exact Wr].
        -- intros _.
           exists (flat_map (consultation env) (file :: args)), results, rendered.
           split; [reflexivity|]. split; [apply consultations_not_written|].
           split; [apply clean_reported; exact All|].
           apply markdowns_Ret. exact Mk.
      * eexists _, _. split; [reflexivity|]. split; [auto|].
        split; [|discriminate]. split; [discriminate|].
        intros [_ [H _]]. apply (all_reported_clean env basename_without) in H.
        fold results in H. congruence.
    + eexists _, _. split; [reflexivity|]. split; [auto|].
      split; [|discriminate]. split; [discriminate|].
      intros [_ [C [results' [rendered' [V [R W]]]]]]. exfalso.
      rewrite (verdicts_unique env basename_without _ _ C V) in R, W.
      fold results in R, W.
      rewrite (renderings_unique env results _ _ R
                 (markdowns_Ret env results rendered Mk)) in W.
      congruence.
  - eexists _, _. split; [reflexivity|]. split; [auto|].
    split; [|discriminate]. split; [discriminate|].
    intros [_ [H _]]. exfalso.
    destruct (clean_reported env basename_without _ H) as [_ R].
    apply markdowns_all in R. destruct R as [rendered R].
    fold results in R. congruence.
Qed.

(** Property X18.  When the result of one of the files cannot be
    rendered, [main] records two results for that file, the rendering after
    the loop fails as well, and the script ends with status 1 without having
    written anything. *)
Theorem unrenderable_result_leaves_no_report (env : Env)
  (basename_without : string -> string -> string) (args : list string)
  (file : string) (r : ValidationResult) (e : string) (tr : list event) :
  In file args ->
  verdict env file = Ret r ->
  rendering env r = Throw e ->
  reported env basename_without file =
    [r; failed_result basename_without file e] /\
  script env basename_without args tr =
    (Ret (Exit 1), (tr ++ flat_map (consultation env) args)%list) /\
  existsb writes (flat_map (consultation env) args) = false.
Proof.
  intros Hin V R.
  assert (Hne : args <> []) by (intros ->; contradiction).
  split; [unfold reported; rewrite V, R; reflexivity|].
  split; [|apply consultations_not_written].
  rewrite (script_run env basename_without args tr Hne).
  assert (X : In r (flat_map (reported env basename_without) args)).
  { apply in_flat_map. exists file. split; [exact Hin|].
    unfold reported. rewrite V, R. simpl. auto. }
  destruct (markdowns_Throw env _ r e X R) as [e' ->]. reflexivity.
Qed.

(** Property X19.  When the validation of one of the files throws,
    [main] records one failed result for that file and goes on with the other
    files; the script ends with status 1, and a result file, if one is
    written, holds that failed result and at least one result for each
    file. *)
Theorem thrown_validation_is_reported (env : Env)
  (basename_without : string -> string -> string) (args : list string)
  (file e : string) (tr : list event) :
  In file args ->
  verdict env file = Throw e ->
  reported env basename_without file = [failed_result basename_without file e] /\
  exists more,
    script env basename_without args tr = (Ret (Exit 1), (tr ++ more)%list) /\
    forall document,
      In (WriteFile RESULT_FILE document) more ->
      exists results rendered,
        document = output_document results rendered /\
        In (failed_result basename_without file e) results /\
        (List.length args <= List.length results)%nat.
Proof.
  intros Hin V.
  assert (Hne : args <> []) by (intros ->; contradiction).
  assert (Rp : reported env basename_without file =
               [failed_result basename_without file e]).
  { unfold reported. rewrite V. reflexivity. }
  split; [exact Rp|].
  rewrite (script_run env basename_without args tr Hne).
  set (results := flat_map (reported env basename_without) args).
  assert (X : In (failed_result basename_without file e) results).
  { apply in_flat_map. exists file. split; [exact Hin|]. rewrite Rp. simpl. auto. }
  assert (F : forallb passed results = false).
  { destruct (forallb passed results) eqn:All; [|reflexivity].
    rewrite forallb_forall in All. apply All in X. discriminate. }
  assert (L : (List.length args <= List.length results)%nat).
  { unfold results. clear. induction args as [|f args IH]; simpl; [lia|].
    rewrite length_app.
    assert (1 <= List.length (reported env basename_without f))%nat; [|lia].
    unfold reported. destruct (verdict env f) as [r|e]; [|simpl; lia].
    destruct (rendering env r); simpl; lia. }
  assert (N : forall document,
            ~ In (WriteFile RESULT_FILE document)
                 (flat_map (consultation env) args)).
  { intros document Hd.
    pose proof (consultations_not_written env args) as W.
    assert (Y : existsb writes (flat_map (consultation env) args) = true).
    { apply existsb_exists. eexists. split; [exact Hd|]. reflexivity. }
    congruence. }
  destruct (fst (markdowns env results [])) as [rendered|e'].
  - destruct (writeFileSync env RESULT_FILE (output_document results rendered))
      as [done|e'].
    + rewrite F. eexists. split; [reflexivity|].
      intros document Hd. apply in_app_or in Hd. destruct Hd as [Hd|Hd].
      * exfalso. exact (N document Hd).
      * destruct Hd as [Hd|[]]. inversion Hd; subst.
        exists results, rendered. auto.
    + eexists. split; [reflexivity|].
      intros document Hd. exfalso. exact (N document Hd).
  - eexists. split; [reflexivity|].
    intros document Hd. exfalso.
    pose proof (consultations_not_written env args) as W.
    assert (Y : existsb writes (flat_map (consultation env) args) = true).
    { apply existsb_exists. eexists. split; [exact Hd|]. reflexivity. }
    congruence.
Qed.

(** ** toMarkdown *)

Lemma toStringM_Ret env v tr s tr' :
  toStringM env v tr = (Ret s, tr') <-> toString v = Some s /\ tr' = tr.
Proof.
  unfold toStringM. destruct (toString v) as [t|]; unfold ret, type_error_, throw.
  - split.
    + intros H. inversion H; subst. auto.
    + intros [H ->]. inversion H; subst. reflexivity.
  - split; [discriminate|]. intros [H _]. discriminate.
Qed.

Lemma toStringM_printable env v tr :
  (exists s, toStringM env v tr = (Ret s, tr)) <-> printable v.
Proof.
  unfold printable. split.
  - intros [s H]. apply toStringM_Ret in H. destruct H as [H _]. eauto.
  - intros [s H]. exists s. apply toStringM_Ret. auto.
Qed.

Lemma row_Ret env check tr :
  (exists s, row env check tr = (Ret s, tr)) <->
  (truthy (Item.details check) = true -> printable (Item.details check)).
Proof.
  unfold row. cbv zeta. destruct (truthy (Item.details check)).
  - split.
    + intros [s H] _. binv H. binv Ha.
      apply toStringM_Ret in Ha0. destruct Ha0 as [Ha0 _].
      exists a0. exact Ha0.
    + intros H. destruct (H eq_refl) as [s Hs].
      eexists. erewrite bind_Ret; [reflexivity|].
      erewrite bind_Ret; [reflexivity|].
      apply toStringM_Ret. split; [exact Hs | reflexivity].
  - split; [intros _ H; discriminate|]. intros _. eexists. reflexivity.
Qed.

Lemma silent_Ret A (c : M A) a tr tr' : silent c -> c tr = (Ret a, tr') -> tr' = tr.
Proof. intros [o H] E. rewrite H in E. inversion E. reflexivity. Qed.

Lemma rows_Ret env checks_ : forall md tr,
  (exists s, rows env checks_ md tr = (Ret s, tr)) <->
  Forall (fun c => truthy (Item.details c) = true -> printable (Item.details c))
         checks_.
Proof.
  induction checks_ as [|c cs IH]; intros md tr; simpl.
  - split; [constructor|]. intros _. eexists. reflexivity.
  - split.
    + intros [s H]. binv H.
      pose proof (silent_Ret _ _ _ _ _ (silent_row env c) Ha) as ->.
      constructor.
      * apply (row_Ret env c tr). eauto.
      * apply (IH (md ++ a) tr). eauto.
    + intros H. inversion H as [|? ? Hc Hcs]; subst.
      apply (row_Ret env c tr) in Hc. destruct Hc as [s Hc].
      apply (IH (md ++ s) tr) in Hcs. destruct Hcs as [s' Hcs].
      exists s'. erewrite bind_Ret; [exact Hcs | exact Hc].
Qed.

Lemma element_Ret env (x : value) tr s tr' :
  match x with
  | VUndefined | VNull => ret EmptyString
  | _ => toStringM env x
  end tr = (Ret s, tr') ->
  printable x /\ tr' = tr.
Proof.
  intros H.
  assert (T : toStringM env x tr = (Ret s, tr') -> printable x /\ tr' = tr).
  { intros E. apply toStringM_Ret in E. destruct E as [E ->].
    split; [exists s; exact E | reflexivity]. }
  destruct x; try (apply T; exact H);
    apply ret_inv in H; destruct H as [_ <-];
    (split; [eexists; reflexivity | reflexivity]).
Qed.

Lemma element_printable env (x : value) tr :
  printable x ->
  exists s, match x with
            | VUndefined | VNull => ret EmptyString
            | _ => toStringM env x
            end tr = (Ret s, tr).
Proof.
  intros [sx Hx].
  assert (T : exists s, toStringM env x tr = (Ret s, tr)).
  { exists sx. apply toStringM_Ret. auto. }
  destruct x; try exact T; eexists; reflexivity.
Qed.

Lemma join_values_Ret env sep items : forall tr,
  (exists s, join_values env sep items tr = (Ret s, tr)) <-> joinable items.
Proof.
  unfold joinable.
  induction items as [|x items IH]; intros tr; simpl.
  - split; [constructor|]. intros _. eexists. reflexivity.
  - split.
    + intros [s H]. binv H.
      apply element_Ret in Ha. destruct Ha as [Px ->].
      constructor; [exact Px|].
      destruct items as [|y items]; [constructor|].
      binv H.
      pose proof (silent_Ret _ _ _ _ _ (silent_join_values env sep (y :: items)) Ha)
        as ->.
      apply (IH tr). eauto.
    + intros H. inversion H as [|? ? Hx Hitems]; subst.
      destruct (element_printable env x tr Hx) as [s X].
      destruct items as [|y items].
      * exists s. erewrite bind_Ret; [reflexivity | exact X].
      * apply (IH tr) in Hitems. destruct Hitems as [t Ht].
        eexists. erewrite bind_Ret; [|exact X].
        erewrite bind_Ret; [reflexivity | exact Ht].
Qed.

Lemma listed_permissions_Ret env v tr :
  (exists s, listed_permissions env v tr = (Ret s, tr)) <->
  match v with
  | VUndefined | VNull => True
  | VArr items => joinable items
  | _ => False
  end.
Proof.
  unfold listed_permissions.
  destruct v; try (split; [intros [out H]; discriminate | contradiction]);
    try (split; [auto | intros _; eexists; reflexivity]).
  split.
  - intros [out H]. binv H.
    pose proof (silent_Ret _ _ _ _ _ (silent_join_values env ", " items) Ha) as ->.
    apply (join_values_Ret env ", " items tr). eauto.
  - intros H. apply (join_values_Ret env ", " items tr) in H.
    destruct H as [out H]. eexists. erewrite bind_Ret; [reflexivity | exact H].
Qed.

(** Property X15.  [toMarkdown] returns exactly when everything it
    converts to text can be converted: the identifier, the details of the
    checks that have some, and, when there is a manifest, its version, its
    minimal application version, its category if it has one, and its
    permissions, which must be absent or an array of such values. *)
Theorem rendering_succeeds_iff_printable (env : Env) (r : ValidationResult) :
  (exists md, rendering env r = Ret md) <-> renderable r.
Proof.
  unfold rendering, renderable.
  assert (Fst : forall o : outcome string,
            (exists md, fst (toMarkdown env r []) = Ret md) <->
            (exists md, toMarkdown env r [] = (Ret md, []))).
  { intros _. rewrite toMarkdown_frame. simpl. split; intros [md H]; exists md;
      [rewrite H; reflexivity | inversion H; reflexivity]. }
  rewrite (Fst (Throw EmptyString)). clear Fst.
  unfold toMarkdown. cbv zeta. split.
  - intros [md H]. binv H.
    pose proof (silent_Ret _ _ _ _ _ (silent_toStringM env (pluginId r)) Ha) as ->.
    split; [apply (toStringM_printable env (pluginId r) []); eauto|].
    binv H.
    pose proof (silent_Ret _ _ _ _ _ (silent_rows env (checks r) _) Ha0) as ->.
    split; [eapply (rows_Ret env (checks r) _ []); eauto|].
    intros T. rewrite T in H.
    assert (Pm : present (manifest r)).
    { destruct (manifest r); simpl in T; try discriminate; exact I. }
    binv H. apply get_inv in Ha1. destruct Ha1 as [_ [-> ->]].
    binv H. apply toStringM_Ret in Ha1. destruct Ha1 as [V ->].
    binv H. apply get_inv in Ha1. destruct Ha1 as [_ [-> ->]].
    binv H. apply toStringM_Ret in Ha1. destruct Ha1 as [V2 ->].
    binv H. apply get_inv in Ha1. destruct Ha1 as [_ [-> ->]].
    binv H.
    pose proof (silent_Ret _ _ _ _ _
                  (silent_listed_permissions env (field (manifest r) "permissions"))
                  Ha1) as ->.
    binv H. apply get_inv in Ha2. destruct Ha2 as [_ [-> ->]].
    unfold summary_printable.
    split; [eexists; exact V|]. split; [eexists; exact V2|]. split.
    + intros C. rewrite C in H. binv H.
      apply toStringM_Ret in Ha2. destruct Ha2 as [V3 _]. eexists; exact V3.
    + apply (listed_permissions_Ret env _ []). eauto.
  - intros [[sid Hid] [Hchecks Hm]].
    erewrite bind_Ret; [|apply toStringM_Ret; split; [exact Hid | reflexivity]].
    match goal with
    | |- context [ rows env (checks r) ?md0 ] =>
        destruct (proj2 (rows_Ret env (checks r) md0 []) Hchecks) as [md1 Hrows]
    end.
    erewrite bind_Ret; [|exact Hrows].
    destruct (truthy (manifest r)) eqn:T; [|eexists; reflexivity].
    assert (Pm : present (manifest r)).
    { destruct (manifest r); simpl in T; try discriminate; exact I. }
    destruct (Hm eq_refl) as [[sv Hv] [[sa Ha] [Hc Hp]]].
    erewrite bind_Ret; [|apply get_present; exact Pm].
    erewrite bind_Ret; [|apply toStringM_Ret; split; [exact Hv | reflexivity]].
    erewrite bind_Ret; [|apply get_present; exact Pm].
    erewrite bind_Ret; [|apply toStringM_Ret; split; [exact Ha | reflexivity]].
    erewrite bind_Ret; [|apply get_present; exact Pm].
    apply (listed_permissions_Ret env _ []) in Hp. destruct Hp as [sp Hp].
    erewrite bind_Ret; [|exact Hp].
    erewrite bind_Ret; [|apply get_present; exact Pm].
    destruct (truthy (field (manifest r) "category")) eqn:C;
      [|eexists; reflexivity].
    destruct (Hc eq_refl) as [sc Hsc].
    erewrite bind_Ret; [|apply toStringM_Ret; split; [exact Hsc | reflexivity]].
    eexists. reflexivity.
Qed.

(** ** toJSON, and a submission that passes *)

Lemma map_injective A B (f : A -> B) :
  (forall x y, f x = f y -> x = y) ->
  forall l l', map f l = map f l' -> l = l'.
Proof.
  intros Hf. induction l as [|x l IH]; intros [|y l'] H; simpl in H;
    try discriminate; [reflexivity|].
  inversion H. f_equal; auto.
Qed.

(** Property X16.  [toJSON] loses nothing: two results with the same JSON
    form are the same result. *)
Theorem toJSON_injective (r r' : ValidationResult) :
  toJSON r = toJSON r' -> r = r'.
Proof.
  destruct r as [i p c w e m], r' as [i' p' c' w' e' m'].
  unfold toJSON. simpl. intros H. inversion H as [[Hi Hp Hc Hw He Hm]].
  apply map_injective in Hc.
  2:{ intros [n1 p1 d1] [n2 p2 d2] E. inversion E. reflexivity. }
  apply map_injective in Hw; [|intros x y E; inversion E; reflexivity].
  apply map_injective in He; [|intros x y E; inversion E; reflexivity].
  subst. reflexivity.
Qed.

Lemma fetchFromGitHub_serves env url file text tr :
  serves env url file text ->
  exists more,
    fetchFromGitHub env (VStr url) (VStr file) "main" tr =
    (Ret text, (tr ++ more)%list).
Proof.
  intros [owner [repo [r [Hparse [Hok [Hbody Hfetch]]]]]].
  rewrite (fetchFromGitHub_step env url owner repo Hparse).
  destruct Hfetch as [F|[[r1 [F1 K1]] F]].
  - rewrite F, Hok, Hbody. eexists. reflexivity.
  - rewrite F1, K1. destruct (string_dec "main" "main"); [|congruence].
    rewrite (fetchFromGitHub_step env url owner repo Hparse).
    rewrite F, Hok, Hbody. eexists. rewrite <- app_assoc. reflexivity.
Qed.

Lemma scan_keeps mainJs r :
  pluginId (scan mainJs r) = pluginId r /\ manifest (scan mainJs r) = manifest r.
Proof.
  unfold scan.
  assert (F : forall l r0,
            pluginId r0 = pluginId r /\ manifest r0 = manifest r ->
            let r1 := fold_left
                        (fun result pn =>
                           if test (fst pn) mainJs
                           then addWarning (pattern_warning (snd pn)) result
                           else result) l r0 in
            pluginId r1 = pluginId r /\ manifest r1 = manifest r).
  { induction l as [|pn l IH]; intros r0 H; simpl; [exact H|].
    apply IH. destruct (test (fst pn) mainJs); exact H. }
  apply F. destruct (1024 * 1024 <? String.length mainJs)%nat; auto.
Qed.

Lemma advisories_keeps env submission manifest_ result tr result' tr' :
  advisories env submission manifest_ result tr = (Ret result', tr') ->
  pluginId result' = pluginId result /\ manifest result' = manifest result.
Proof.
  intros H. unfold advisories in H.
  binv H. binv H. binv H.
  assert (X1 : pluginId a1 = pluginId result /\ manifest a1 = manifest result).
  { destruct (0 <? List.length a0)%nat.
    - binv Ha1. apply ret_inv in Ha1. destruct Ha1 as [<- _]. auto.
    - apply ret_inv in Ha1. destruct Ha1 as [<- _]. auto. }
  binv H. binv H. cbv zeta in H.
  match type of H with
  | try_catch _ _ _ = _ => unfold try_catch in H
  end.
  match type of H with
  | context [ ?c t3 ] =>
      match type of (c t3) with
      | (outcome ValidationResult * list event)%type =>
          destruct (c t3) as [[r|e] t4] eqn:E
      end
  end.
  - inversion H; subst. binv E. binv E. binv E.
    apply ret_inv in E. destruct E as [<- _].
    match goal with
    | |- pluginId (scan ?js ?r0) = _ /\ _ =>
        destruct (scan_keeps js r0) as [-> ->]
    end.
    destruct X1 as [<- <-].
    repeat match goal with
           | |- context [ if ?c then _ else _ ] => destruct c
           | |- context [ match ?c with Some _ => _ | None => _ end ] => destruct c
           end; auto.
  - apply ret_inv in H. destruct H as [<- _].
    destruct X1 as [<- <-].
    repeat match goal with
           | |- context [ if ?c then _ else _ ] => destruct c
           | |- context [ match ?c with Some _ => _ | None => _ end ] => destruct c
           end; auto.
Qed.

Lemma advisories_served env submission manifest_ items url main_ js result tr :
  present manifest_ ->
  field manifest_ "permissions" = VArr items ->
  field submission "repo" = VStr url ->
  field manifest_ "main" = VStr main_ ->
  serves env url main_ js ->
  exists result' tr',
    advisories env submission manifest_ result tr = (Ret result', tr') /\
    grows result result' [].
Proof.
  intros Pm Hperm Hrepo Hmain Hs.
  destruct (advisories_run env submission manifest_ items result tr Pm Hperm)
    as [result' [tr' [after [extra [H _]]]]].
  exists result', tr'. split; [exact H|].
  unfold advisories in H.
  binv H. binv H. binv H.
  assert (X1 : grows result a1 []).
  { destruct (0 <? List.length a0)%nat.
    - binv Ha1. apply ret_inv in Ha1. destruct Ha1 as [<- _].
      apply grows_addWarning.
    - apply ret_inv in Ha1. destruct Ha1 as [<- _]. apply grows_refl. }
  binv H. binv H. cbv zeta in H.
  match type of H with
  | try_catch _ _ _ = _ => unfold try_catch in H
  end.
  match type of H with
  | context [ ?c t3 ] =>
      match type of (c t3) with
      | (outcome ValidationResult * list event)%type =>
          destruct (c t3) as [[r|e] t4] eqn:E
      end
  end.
  - inversion H; subst. binv E. binv E. binv E.
    apply ret_inv in E. destruct E as [<- _].
    eapply grows_nil; [exact X1|].
    eapply grows_nil; [|apply grows_scan].
    grows_warnings.
  - exfalso.
    assert (Ps : present submission).
    { destruct submission; simpl in Hrepo; try discriminate; exact I. }
    destruct (fetchFromGitHub_serves env url main_ js t3 Hs) as [more F].
    erewrite bind_Ret in E; [|apply get_present; exact Ps].
    erewrite bind_Ret in E; [|apply get_present; exact Pm].
    rewrite Hrepo, Hmain in E.
    erewrite bind_Ret in E; [|exact F].
    discriminate.
Qed.

Lemma no_unknown_permissions items :
  Forall (fun p => In p VALID_PERMISSIONS) items ->
  unknown_permissions items = [].
Proof.
  unfold unknown_permissions.
  induction 1 as [|p items Hp _ IH]; [reflexivity|].
  assert (X : existsb (String.eqb p) VALID_PERMISSIONS = true).
  { apply existsb_exists. exists p. split; [exact Hp | apply String.eqb_refl]. }
  cbn [filter]. rewrite X. exact IH.
Qed.

(** Property X14.  An accepted submission that is stored under its
    identifier and whose repository serves the entry file and a manifest with
    the required fields, the identifier of the submission, a semantic version
    and known permissions: all ten checks pass, the ninth showing the
    version; the result is passed, has no error, and carries the identifier
    and the manifest. *)
Theorem complete_submission_passes (env : Env) (path dir : string)
  (submission manifest_ : value) (id url text v main_ js : string)
  (items files : list string) (tr : list event) :
  accepted env path submission id ->
  readdirSync env dir = Ret files ->
  basename path = id ++ ".json" ->
  field submission "repo" = VStr url ->
  serves env url "manifest.json" text ->
  JSON_parse env text = Ret manifest_ ->
  (forall f, In f REQUIRED_MANIFEST_FIELDS ->
             truthy (field manifest_ f) = true) ->
  field manifest_ "id" = VStr id ->
  field manifest_ "version" = VStr v ->
  semantic_version v ->
  field manifest_ "permissions" = VArr (map VStr items) ->
  Forall (fun p => In p VALID_PERMISSIONS) items ->
  field manifest_ "main" = VStr main_ ->
  serves env url main_ js ->
  exists result tr',
    validatePlugin env path dir tr = (Ret result, tr') /\
    checks result = all_checks_passed v /\
    passed result = true /\
    errors result = [] /\
    pluginId result = VStr id /\
    manifest result = manifest_.
Proof.
  intros Hacc Hdir Hname Hrepo Hserve Hparse Hf Hmid Hv Hsem Hperm Hvalid Hmain Hjs.
  assert (Ps : present submission).
  { apply (truthy_field_present submission "id").
    apply (accepted_fields _ _ _ _ Hacc). simpl. auto. }
  assert (Pm : present manifest_).
  { apply (truthy_field_present manifest_ "id"), Hf. simpl. auto. }
  destruct (validatePlugin_accepted env path dir submission id files tr Hacc Hdir)
    as [dup [more [_ V]]].
  rewrite V. clear V.
  set (tr1 := (tr ++ ReadFile path :: ReadDir dir :: more)%list).
  destruct (fetchFromGitHub_serves env url "manifest.json" text tr1 Hserve)
    as [more1 F].
  unfold checkRepo.
  erewrite bind_Ret.
  2:{ apply try_Ret.
      erewrite bind_Ret; [|apply get_present; exact Ps]. rewrite Hrepo.
      erewrite bind_Ret; [|exact F].
      erewrite bind_Ret; [|unfold lift; rewrite Hparse; reflexivity].
      reflexivity. }
  cbv beta iota zeta.
  rewrite (checkManifest_run env submission manifest_ items id id v _ _
             Hf (accepted_id _ _ _ _ Hacc) Hmid Hv Hperm).
  match goal with
  | |- context [ advisories env submission manifest_ ?r ?t ] =>
      destruct (advisories_served env submission manifest_ (map VStr items)
                  url main_ js r t Pm Hperm Hrepo Hmain Hjs)
        as [result [tr' [A [C [P E]]]]]
  end.
  exists result, tr'. split; [exact A|].
  rewrite app_nil_r in C. rewrite andb_true_r in P.
  unfold permissions_check, version_check, ids_check in C, P, E.
  rewrite (no_unknown_permissions items Hvalid) in C, P, E.
  rewrite (proj2 (semver_test v) Hsem) in C, P, E.
  rewrite String.eqb_refl in C, P, E.
  unfold before_check6, checkFilename in C, P, E.
  rewrite Hname, String.eqb_refl in C, P, E.
  split; [rewrite C; destruct dup; reflexivity|].
  split; [rewrite P; destruct dup; reflexivity|].
  split; [rewrite E; destruct dup; reflexivity|].
  apply advisories_keeps in A. destruct A as [-> ->].
  unfold permissions_check, version_check, ids_check.
  rewrite (no_unknown_permissions items Hvalid).
  rewrite (proj2 (semver_test v) Hsem).
  rewrite String.eqb_refl.
  unfold before_check6, checkFilename.
  rewrite Hname, String.eqb_refl.
  destruct dup; auto.
Qed.

(** ** Instances *)

Lemma elsewhere_accepted :
  accepted elsewhere "plugins/com.a.b.json" elsewhere_value "com.a.b".
Proof.
  constructor.
  - exists elsewhere_text. split; vm_compute; reflexivity.
  - intros f H. simpl in H.
    repeat (destruct H as [<-|H]; [reflexivity|]). contradiction.
  - reflexivity.
  - vm_compute. reflexivity.
Defined.

Lemma gitlab_names_no_repository : ~ names_repository "https://gitlab.com/a/b".
Proof. apply no_match_no_repository. vm_compute. reflexivity. Defined.

Lemma repository_address_is_checked_witness :
  accepted elsewhere "plugins/com.a.b.json" elsewhere_value "com.a.b" /\
  readdirSync elsewhere "plugins" = Ret ["com.a.b.json"] /\
  field elsewhere_value "repo" = VStr "https://gitlab.com/a/b" /\
  ~ names_repository "https://gitlab.com/a/b" /\
  exists result tr',
    validatePlugin elsewhere "plugins/com.a.b.json" "plugins" [] =
      (Ret result, tr') /\
    passed result = false /\
    forall u, ~ In (Fetch u) tr'.
Proof.
  split; [exact elsewhere_accepted|]. split; [reflexivity|].
  split; [reflexivity|]. split; [exact gitlab_names_no_repository|].
  destruct (proj1 (repository_address_is_checked elsewhere
                     "plugins/com.a.b.json" "plugins" elsewhere_value "com.a.b"
                     "https://gitlab.com/a/b" ["com.a.b.json"] []
                     elsewhere_accepted eq_refl eq_refl
                     gitlab_names_no_repository))
    as [result [tr' [fc [E [_ [_ [P NF]]]]]]].
  exists result, tr'. split; [exact E|]. split; [exact P|].
  intros u H. exact (NF u H).
Defined.

Lemma checkDuplicate_spec_witness :
  readdirSync example1 "plugins" = Ret ["com.a.b.json"] /\
  checkDuplicate example1 (VStr "org.x.y") "plugins" [] =
    (Ret false, [ReadDir "plugins"; ReadFile "plugins/com.a.b.json"]).
Proof.
  split; [reflexivity|].
  exact (checkDuplicate_spec example1 (VStr "org.x.y") "plugins"
           ["com.a.b.json"] [] eq_refl).
Defined.

Lemma unreadable_submission_fails_first_check_witness :
  readFileSync example1 "plugins/absent.json" =
    Throw "ENOENT: no such file or directory" /\
  exists result,
    validatePlugin example1 "plugins/absent.json" "plugins" [] =
      (Ret result, [ReadFile "plugins/absent.json"]) /\
    checks result =
      [Item.Make "Valid JSON" false (VStr "ENOENT: no such file or directory")] /\
    pluginId result = VStr "absent".
Proof.
  split; [reflexivity|].
  eexists. split.
  - exact (unreadable_submission_fails_first_check example1
             "plugins/absent.json" "plugins" _ [] (or_introl eq_refl)).
  - split; reflexivity.
Defined.

Lemma missing_fields_are_listed_witness :
  readFileSync rejected "plugins/sparse.json" = Ret sparse_text /\
  JSON_parse rejected sparse_text = Ret sparse_value /\
  present sparse_value /\
  missing sparse_value REQUIRED_SUBMISSION_FIELDS =
    ["name"; "description"; "author"; "repo"] /\
  exists result,
    validatePlugin rejected "plugins/sparse.json" "plugins" [] =
      (Ret result, [ReadFile "plugins/sparse.json"]) /\
    checks result =
      [pass "Valid JSON";
       Item.Make "Required fields" false
                  (VStr "missing: name, description, author, repo")].
Proof.
  split; [reflexivity|]. split; [reflexivity|]. split; [exact I|].
  split; [reflexivity|].
  eexists. split.
  - exact (missing_fields_are_listed rejected "plugins/sparse.json" "plugins"
             sparse_text sparse_value [] eq_refl eq_refl I
             ltac:(discriminate)).
  - reflexivity.
Defined.

Lemma capitals_fields f :
  In f REQUIRED_SUBMISSION_FIELDS -> truthy (field capitals_value f) = true.
Proof.
  intros H. simpl in H.
  repeat (destruct H as [<-|H]; [reflexivity|]). contradiction.
Defined.

Lemma malformed_identifier_stops_validation_witness :
  readFileSync rejected "plugins/capitals.json" = Ret capitals_text /\
  JSON_parse rejected capitals_text = Ret capitals_value /\
  field capitals_value "id" = VStr "Com.A.B" /\
  isValidPluginId rejected (VStr "Com.A.B") [] = (Ret false, []) /\
  exists result,
    validatePlugin rejected "plugins/capitals.json" "plugins" [] =
      (Ret result, [ReadFile "plugins/capitals.json"]) /\
    passed result = false /\ pluginId result = VStr "Com.A.B".
Proof.
  split; [reflexivity|]. split; [reflexivity|]. split; [reflexivity|].
  split; [vm_compute; reflexivity|].
  eexists. split.
  - exact (malformed_identifier_stops_validation rejected
             "plugins/capitals.json" "plugins" capitals_text capitals_value
             "Com.A.B" [] eq_refl eq_refl capitals_fields eq_refl
             ltac:(vm_compute; reflexivity)).
  - split; reflexivity.
Defined.

Lemma validation_can_throw_witness :
  readFileSync rejected "plugins/null.json" = Ret "null" /\
  JSON_parse rejected "null" = Ret VNull /\
  validatePlugin rejected "plugins/null.json" "plugins" [] =
    (Throw "Cannot read properties of null (reading 'id')",
     [ReadFile "plugins/null.json"]).
Proof.
  split; [reflexivity|]. split; [reflexivity|].
  exact (proj1 (validation_can_throw rejected "plugins/null.json" "plugins"
                  "null" VNull [] eq_refl eq_refl) eq_refl).
Defined.

Lemma manifest_fields f :
  In f REQUIRED_MANIFEST_FIELDS -> truthy (field manifest_value f) = true.
Proof.
  intros H. simpl in H.
  repeat (destruct H as [<-|H]; [reflexivity|]). contradiction.
Defined.

Lemma other_manifest_fields f :
  In f REQUIRED_MANIFEST_FIELDS -> truthy (field other_manifest_value f) = true.
Proof.
  intros H. simpl in H.
  repeat (destruct H as [<-|H]; [reflexivity|]). contradiction.
Defined.

Lemma example1_accepted :
  accepted example1 "plugins/com.a.b.json" submission_value "com.a.b".
Proof.
  constructor.
  - exists submission_text. split; vm_compute; reflexivity.
  - intros f H. simpl in H.
    repeat (destruct H as [<-|H]; [reflexivity|]). contradiction.
  - reflexivity.
  - vm_compute. reflexivity.
Defined.

Lemma checks_are_recorded_in_order_witness :
  exists result tr',
    validatePlugin example4 "plugins/com.a.b.json" "plugins" [] =
      (Ret result, tr') /\
    map Item.name (checks result) = firstn 5 CHECK_ORDER /\
    stopping (last (checks result) (pass EmptyString)) = true /\
    Item.passed (last (checks result) (pass EmptyString)) = false.
Proof.
  destruct (validatePlugin example4 "plugins/com.a.b.json" "plugins" [])
    as [[result|e] tr'] eqn:E; [|vm_compute in E; discriminate].
  exists result, tr'. split; [reflexivity|].
  pose proof (checks_are_recorded_in_order example4 "plugins/com.a.b.json"
                "plugins" [] result tr' E) as [N [_ [S _]]].
  assert (L : List.length (checks result) = 5%nat).
  { vm_compute in E. inversion E. reflexivity. }
  rewrite L in N. split; [exact N|]. apply S. rewrite L. lia.
Defined.

Lemma later_checks_do_not_stop_validation_witness :
  (forall f, In f REQUIRED_MANIFEST_FIELDS ->
             truthy (field other_manifest_value f) = true) /\
  field submission_value "id" = VStr "com.a.b" /\
  field other_manifest_value "id" = VStr "org.other.plugin" /\
  field other_manifest_value "version" = VStr "2.0.0" /\
  field other_manifest_value "permissions" = VArr (map VStr []) /\
  checkManifest mismatch submission_value other_manifest_value
    (new_ValidationResult VNull) [] =
  advisories mismatch submission_value other_manifest_value
    (addCheck "Valid permissions" true VNull
       (addCheck "Version format" true (VStr "2.0.0")
          (addCheck "IDs match" false
             (VStr "submission: com.a.b, manifest: org.other.plugin")
             (addCheck "Manifest valid" true VNull
                (new_ValidationResult VNull))))) [].
Proof.
  split; [exact other_manifest_fields|].
  split; [reflexivity|]. split; [reflexivity|]. split; [reflexivity|].
  split; [reflexivity|].
  exact (later_checks_do_not_stop_validation mismatch submission_value
           other_manifest_value [] "com.a.b" "org.other.plugin" "2.0.0"
           (new_ValidationResult VNull) [] other_manifest_fields
           eq_refl eq_refl eq_refl eq_refl).
Defined.

Lemma no_entry_file_unreachable : unreachable no_entry_file example_url "main.js".
Proof.
  exists "a", "b". split; [vm_compute; reflexivity|].
  split; vm_compute; reflexivity.
Defined.

Lemma missing_entry_file_fails_validation_witness :
  present manifest_value /\
  field manifest_value "permissions" = VArr [VStr "read:goals"; VStr "network"] /\
  field submission_value "repo" = VStr example_url /\
  field manifest_value "main" = VStr "main.js" /\
  unreachable no_entry_file example_url "main.js" /\
  exists result' tr' e,
    advisories no_entry_file submission_value manifest_value
      (new_ValidationResult VNull) [] = (Ret result', tr') /\
    checks result' = [Item.Make "Main script accessible" false (VStr e)] /\
    passed result' = false.
Proof.
  split; [exact I|]. split; [reflexivity|]. split; [reflexivity|].
  split; [reflexivity|]. split; [exact no_entry_file_unreachable|].
  destruct (missing_entry_file_fails_validation no_entry_file submission_value
              manifest_value [VStr "read:goals"; VStr "network"] example_url
              "main.js" (new_ValidationResult VNull) [] I eq_refl eq_refl
              eq_refl no_entry_file_unreachable)
    as [result' [tr' [e [E [C [P _]]]]]].
  exists result', tr', e. auto.
Defined.

Lemma example1_serves_manifest :
  serves example1 example_url "manifest.json" manifest_text.
Proof.
  exists "a", "b", (Response 200 manifest_text).
  split; [vm_compute; reflexivity|]. split; [reflexivity|].
  split; [reflexivity|]. left. vm_compute. reflexivity.
Defined.

Lemma example1_serves_entry_file :
  serves example1 example_url "main.js" main_js.
Proof.
  exists "a", "b", (Response 200 main_js).
  split; [vm_compute; reflexivity|]. split; [reflexivity|].
  split; [reflexivity|]. left. vm_compute. reflexivity.
Defined.

Lemma version_1_0_0 : semantic_version "1.0.0".
Proof. apply semver_test. vm_compute. reflexivity. Defined.

Lemma example1_permissions :
  Forall (fun p => In p VALID_PERMISSIONS) ["read:goals"; "network"].
Proof.
  apply Forall_cons; [simpl; repeat (first [left; reflexivity | right])|].
  apply Forall_cons; [simpl; repeat (first [left; reflexivity | right])|].
  apply Forall_nil.
Defined.

Lemma complete_submission_passes_witness :
  accepted example1 "plugins/com.a.b.json" submission_value "com.a.b" /\
  readdirSync example1 "plugins" = Ret ["com.a.b.json"] /\
  basename "plugins/com.a.b.json" = "com.a.b" ++ ".json" /\
  field submission_value "repo" = VStr example_url /\
  serves example1 example_url "manifest.json" manifest_text /\
  JSON_parse example1 manifest_text = Ret manifest_value /\
  field manifest_value "id" = VStr "com.a.b" /\
  field manifest_value "version" = VStr "1.0.0" /\
  semantic_version "1.0.0" /\
  field manifest_value "permissions" = VArr (map VStr ["read:goals"; "network"]) /\
  field manifest_value "main" = VStr "main.js" /\
  serves example1 example_url "main.js" main_js /\
  exists result tr',
    validatePlugin example1 "plugins/com.a.b.json" "plugins" [] =
      (Ret result, tr') /\
    checks result = all_checks_passed "1.0.0" /\
    passed result = true.
Proof.
  split; [exact example1_accepted|]. split; [reflexivity|].
  split; [reflexivity|]. split; [reflexivity|].
  split; [exact example1_serves_manifest|]. split; [reflexivity|].
  split; [reflexivity|]. split; [reflexivity|].
  split; [exact version_1_0_0|]. split; [reflexivity|].
  split; [reflexivity|]. split; [exact example1_serves_entry_file|].
  destruct (complete_submission_passes example1 "plugins/com.a.b.json" "plugins"
              submission_value manifest_value "com.a.b" example_url
              manifest_text "1.0.0" "main.js" main_js
              ["read:goals"; "network"] ["com.a.b.json"] []
              example1_accepted eq_refl eq_refl eq_refl
              example1_serves_manifest eq_refl manifest_fields eq_refl eq_refl
              version_1_0_0 eq_refl example1_permissions eq_refl
              example1_serves_entry_file)
    as [result [tr' [E [C [P _]]]]].
  exists result, tr'. auto.
Defined.

Lemma toJSON_injective_witness :
  toJSON (new_ValidationResult (VStr "a")) =
    toJSON (new_ValidationResult (VStr "a")) /\
  new_ValidationResult (VStr "a") = new_ValidationResult (VStr "a").
Proof.
  split; [reflexivity|].
  exact (toJSON_injective (new_ValidationResult (VStr "a"))
           (new_ValidationResult (VStr "a")) eq_refl).
Defined.

Lemma unrenderable_result_leaves_no_report_witness :
  In "plugins/com.a.b.json" ["plugins/com.a.b.json"] /\
  (exists r,
     verdict unrenderable "plugins/com.a.b.json" = Ret r /\
     rendering unrenderable r = Throw "Cannot convert object to primitive value") /\
  exists tr',
    script unrenderable keep_path ["plugins/com.a.b.json"] [] =
      (Ret (Exit 1), tr') /\
    existsb writes tr' = false.
Proof.
  assert (I1 : In "plugins/com.a.b.json" ["plugins/com.a.b.json"])
    by (simpl; auto).
  split; [exact I1|].
  destruct (verdict unrenderable "plugins/com.a.b.json") as [r|e] eqn:V;
    [|vm_compute in V; discriminate].
  assert (R : rendering unrenderable r =
              Throw "Cannot convert object to primitive value").
  { vm_compute in V. inversion V. vm_compute. reflexivity. }
  split; [exists r; auto|].
  destruct (unrenderable_result_leaves_no_report unrenderable keep_path
              ["plugins/com.a.b.json"] "plugins/com.a.b.json" r _ [] I1 V R)
    as [_ [S W]].
  eexists. split; [exact S | exact W].
Defined.

Lemma thrown_validation_is_reported_witness :
  In "plugins/null.json" ["plugins/sparse.json"; "plugins/null.json"] /\
  verdict rejected "plugins/null.json" =
    Throw "Cannot read properties of null (reading 'id')" /\
  exists more,
    script rejected keep_path ["plugins/sparse.json"; "plugins/null.json"] [] =
      (Ret (Exit 1), more).
Proof.
  assert (I1 : In "plugins/null.json" ["plugins/sparse.json"; "plugins/null.json"])
    by (simpl; auto).
  assert (V : verdict rejected "plugins/null.json" =
              Throw "Cannot read properties of null (reading 'id')")
    by (vm_compute; reflexivity).
  split; [exact I1|]. split; [exact V|].
  destruct (thrown_validation_is_reported rejected keep_path
              ["plugins/sparse.json"; "plugins/null.json"] "plugins/null.json"
              _ [] I1 V) as [_ [more [S _]]].
  exists more. exact S.
Defined.

Lemma builder_reads_each_submission_once_witness :
  readdirSync (two_submissions ["alpha.json"; "notes.txt"; "beta.json"]
                 beta_manifest) "plugins" =
    Ret ["alpha.json"; "notes.txt"; "beta.json"] /\
  exists o more,
    Build.buildDirectory
      (two_submissions ["alpha.json"; "notes.txt"; "beta.json"] beta_manifest)
      [] = (o, ReadDir "plugins" :: more) /\
    files_read more = ["plugins/alpha.json"; "plugins/beta.json"].
Proof.
  split; [reflexivity|].
  destruct (builder_reads_each_submission_once
              (two_submissions ["alpha.json"; "notes.txt"; "beta.json"]
                 beta_manifest)
              ["alpha.json"; "notes.txt"; "beta.json"] [] eq_refl)
    as [o [more [E [R _]]]].
  exists o, more. split; [exact E | exact R].
Defined.

Lemma unprintable_entry_is_listed_and_reported_witness :
  readFileSync (two_submissions ["beta.json"] unprintable) "plugins/beta.json" =
    Ret beta_text /\
  JSON_parse (two_submissions ["beta.json"] unprintable) beta_text =
    Ret beta_value /\
  toString (field (snd unprintable) "name") = None /\
  exists entry tr',
    Build.process (two_submissions ["beta.json"] unprintable) "beta.json"
      (Build.Collected [] []) [] =
    (Ret (Build.Collected [entry]
            [("beta.json", "Cannot convert object to primitive value")]), tr').
Proof.
  split; [reflexivity|]. split; [reflexivity|]. split; [reflexivity|].
  eexists _, _.
  exact (unprintable_entry_is_listed_and_reported
           (two_submissions ["beta.json"] unprintable) "beta.json" beta_text
           beta_value (snd unprintable) (Build.Collected [] []) []
           [ReadFile "plugins/beta.json";
            Fetch "https://raw.githubusercontent.com/b/beta/main/manifest.json"]
           eq_refl eq_refl I ltac:(vm_compute; reflexivity) I
           (or_introl eq_refl)).
Defined.

(** Collation by code unit is consistent. *)
Lemma world_collation files dirs web documents :
  consistent_collation (world files dirs web documents).
Proof.
  unfold consistent_collation. simpl. split.
  - intros s t. rewrite (String.compare_antisym t s).
    destruct (String.compare s t); simpl; lia.
  - intros s t u.
    destruct (String.compare s t) eqn:C1; try (simpl; lia).
    + apply String.compare_eq_iff in C1. subst t. auto.
    + destruct (String.compare t u) eqn:C2; try (simpl; lia).
      * apply String.compare_eq_iff in C2. subst u. rewrite C1. auto.
      * intros _ _.
        apply OrderedTypeEx.String_as_OT.cmp_lt in C1. apply OrderedTypeEx.String_as_OT.cmp_lt in C2.
        pose proof (OrderedTypeEx.String_as_OT.lt_trans _ _ _ C1 C2) as C3.
        apply OrderedTypeEx.String_as_OT.cmp_lt in C3. unfold OrderedTypeEx.String_as_OT.cmp in C3.
        rewrite C3. lia.
Defined.

Lemma directory_is_ordered_by_name_witness :
  readdirSync (two_submissions ["beta.json"; "alpha.json"] beta_manifest)
    "plugins" = Ret ["beta.json"; "alpha.json"] /\
  consistent_collation
    (two_submissions ["beta.json"; "alpha.json"] beta_manifest) /\
  exists acc sorted tr',
    Build.for_each_file
      (two_submissions ["beta.json"; "alpha.json"] beta_manifest)
      ["beta.json"; "alpha.json"] (Build.Collected [] []) [ReadDir "plugins"] =
      (Ret acc, tr') /\
    map name_of (Build.plugins acc) = ["Beta"; "Alpha"] /\
    Build.buildDirectory
      (two_submissions ["beta.json"; "alpha.json"] beta_manifest) [] =
      (Ret (Build.Collected sorted (Build.errors acc)),
       (tr' ++ [Now;
                WriteFile "plugins.json"
                  (directory "2024-01-01T00:00:00.000Z" sorted)])%list) /\
    Build.buildDirectory
      (read_only (two_submissions ["beta.json"; "alpha.json"] beta_manifest))
      [] =
      (Throw "EACCES: permission denied", (tr' ++ [Now])%list) /\
    Permutation (Build.plugins acc) sorted /\
    StronglySorted
      (by_name_order (two_submissions ["beta.json"; "alpha.json"] beta_manifest))
      sorted.
Proof.
  split; [reflexivity|]. split; [apply world_collation|].
  destruct (Build.for_each_file
              (two_submissions ["beta.json"; "alpha.json"] beta_manifest)
              ["beta.json"; "alpha.json"] (Build.Collected [] [])
              [ReadDir "plugins"]) as [[acc|e] tr'] eqn:E;
    [|vm_compute in E; discriminate].
  assert (N : Forall named (Build.plugins acc)).
  { vm_compute in E. inversion E.
    repeat constructor; eexists _, _; split; reflexivity. }
  assert (Nm : map name_of (Build.plugins acc) = ["Beta"; "Alpha"]).
  { vm_compute in E. inversion E. reflexivity. }
  destruct (directory_is_ordered_by_name
              (two_submissions ["beta.json"; "alpha.json"] beta_manifest)
              ["beta.json"; "alpha.json"] acc [] tr' eq_refl E N
              (world_collation _ _ _ _))
    as [sorted [P [S B]]].
  destruct (directory_is_ordered_by_name
              (read_only
                 (two_submissions ["beta.json"; "alpha.json"] beta_manifest))
              ["beta.json"; "alpha.json"] acc [] tr' eq_refl E N
              (world_collation _ _ _ _))
    as [sorted' [_ [_ B']]].
  exists acc, sorted, tr'. split; [reflexivity|]. split; [exact Nm|].
  split; [exact B|]. split; [exact B'|]. split; [exact P | exact S].
Defined.
